(** * Parametric t-SNE: calibration, similarity matrices and the training loop

    A shallow embedding of the two variants of the repository,
    [src/parametric_tsne.py] (module [Root]) and
    [src/msp_tsne/parametric_tsne.py] (module [Msp]), and the properties
    of their specification.

    NumPy code is generic in the element type of its arrays; the embedding
    keeps that: the numeric code is written over a class [Scalar] of
    operations, instantiated with IEEE binary64 (Rocq's primitive floats),
    the arithmetic the code runs on, and with the integers where a
    property is about exact arithmetic. *)

From Stdlib Require Import ZArith List Bool Lia Floats Ring.
From Stdlib Require String.
Import ListNotations.

Set Implicit Arguments.
#[local] Set Warnings "-inexact-float".

(** ** Scalars *)

(** The ring part of the arithmetic: what the pairwise distances use. *)
Class RingOps (T : Type) : Type := {
  rzero : T;
  rone : T;
  rtwo : T;
  radd : T -> T -> T;
  rsub : T -> T -> T;
  rmul : T -> T -> T
}.

(** The rest of what the source asks of a NumPy float: division, absolute
    value, [np.exp], [np.log], the comparison [<], the tests [np.isnan],
    [np.isposinf], [np.isneginf], the constants [np.inf] and [-np.inf], and
    float literals. *)
Class Scalar (T : Type) : Type := {
  sc_ring :: RingOps T;
  sopp : T -> T;
  sdiv : T -> T -> T;
  sabs : T -> T;
  sexp : T -> T;
  slog : T -> T;
  sltb : T -> T -> bool;
  sisnan : T -> bool;
  sisposinf : T -> bool;
  sisneginf : T -> bool;
  pinf : T;
  ninf : T;
  of_float : float -> T;
  of_int : Z -> T
}.

(** ** Binary64 *)

(** [np.exp] and [np.log] come from the platform's mathematical library,
    which is not part of the repository: the binary64 instance takes them
    as a record. *)
Record Libm : Type := {
  fexp : float -> float;
  flog : float -> float
}.

(** [float(z)] for a Python integer below [2^63] in absolute value. *)
Definition float_of_Z (z : Z) : float :=
  match z with
  | Z0 => 0%float
  | Zpos _ => PrimFloat.of_uint63 (Uint63.of_Z z)
  | Zneg _ => PrimFloat.opp (PrimFloat.of_uint63 (Uint63.of_Z (Z.opp z)))
  end.

Definition float_ring : RingOps float := {|
  rzero := 0%float;
  rone := 1%float;
  rtwo := 2%float;
  radd := PrimFloat.add;
  rsub := PrimFloat.sub;
  rmul := PrimFloat.mul
|}.

Definition float_scalar (lib : Libm) : Scalar float := {|
  sc_ring := float_ring;
  sopp := PrimFloat.opp;
  sdiv := PrimFloat.div;
  sabs := PrimFloat.abs;
  sexp := fexp lib;
  slog := flog lib;
  sltb := PrimFloat.ltb;
  sisnan := PrimFloat.is_nan;
  sisposinf := fun x => PrimFloat.eqb x infinity;
  sisneginf := fun x => PrimFloat.eqb x neg_infinity;
  pinf := infinity;
  ninf := neg_infinity;
  of_float := fun x => x;
  of_int := float_of_Z
|}.

(** A concrete mathematical library, to run the code on concrete rows: the
    IEEE special cases are exact (NaN, the infinities, overflow, underflow
    to zero, [exp 0 = 1], [log 0 = -inf], [log] of a negative number), the
    other values are computed by range reduction and a truncated series and
    agree with a correctly rounded library up to the last digits. *)
Module LibmModel.

(** The integer part [floor x] of a finite float. *)
Definition floor_Z (x : float) : Z :=
  match Prim2SF x with
  | S754_finite s m e => Z.shiftl (if s then Zneg m else Zpos m) e
  | _ => 0%Z
  end.

Definition ln2 : float := 0.6931471805599453%float.
Definition ln2_hi : float := 0.6931471803691238%float.
Definition ln2_lo : float := 1.9082149292705877e-10%float.

(** Horner evaluation of [sum_k c_k * x^k]. *)
Fixpoint horner (cs : list float) (x : float) : float :=
  match cs with
  | [] => 0%float
  | c :: cs' => (c + x * horner cs' x)%float
  end.

(** [1 / k!] for [k = 0 .. n - 1]. *)
Fixpoint inv_factorials (n : nat) (k : float) (acc : float) : list float :=
  match n with
  | O => []
  | S n' => acc :: inv_factorials n' (k + 1)%float (acc / (k + 1))%float
  end.

Definition exp_model (x : float) : float :=
  if PrimFloat.is_nan x then nan
  else if (709.782712893384 <? x)%float then infinity
  else if (x <? -745.1332191019412)%float then 0%float
  else
    let k := floor_Z (x / ln2 + 0.5)%float in
    let kf := float_of_Z k in
    let r := (x - kf * ln2_hi - kf * ln2_lo)%float in
    Z.ldexp (horner (inv_factorials 16 0%float 1%float) r) k.

(** [1 / (2 k + 1)] for [k = 0 .. n - 1]. *)
Fixpoint inv_odds (n : nat) (k : float) : list float :=
  match n with
  | O => []
  | S n' => (1 / k)%float :: inv_odds n' (k + 2)%float
  end.

Definition log_model (x : float) : float :=
  if PrimFloat.is_nan x then nan
  else if (x <? 0)%float then nan
  else if (x =? 0)%float then neg_infinity
  else if (x =? infinity)%float then infinity
  else
    let '(m, e) := Z.frexp x in
    let '(m, e) := if (m <? 0.7071067811865476)%float
                   then ((m * 2)%float, (e - 1)%Z) else (m, e) in
    let s := ((m - 1) / (m + 1))%float in
    (float_of_Z e * ln2 + 2 * s * horner (inv_odds 14 1%float) (s * s))%float.

Definition libm : Libm := {| fexp := exp_model; flog := log_model |}.

End LibmModel.

(** The binary64 instance the examples run on. *)
Definition binary64 : Scalar float := float_scalar LibmModel.libm.

(** ** Control: exceptions and loops *)

(** The exceptions the modelled code can raise. *)
Inductive exn : Type :=
| NotFittedError
| ValueError
| TypeError
| ZeroDivisionError.

Inductive result (A : Type) : Type :=
| Ok (a : A)
| Raise (e : exn).

Arguments Ok {A} a.
Arguments Raise {A} e.

Definition bind {A B : Type} (r : result A) (k : A -> result B) : result B :=
  match r with
  | Ok a => k a
  | Raise e => Raise e
  end.

Notation "x <- r ;; k" := (bind r (fun x => k))
  (at level 61, r at next level, right associativity).

Fixpoint mapM {A B : Type} (f : A -> result B) (l : list A) : result (list B) :=
  match l with
  | [] => Ok []
  | a :: l' => b <- f a ;; bs <- mapM f l' ;; Ok (b :: bs)
  end.

(** What one pass through the body of a [while] loop does: it reaches its
    end, executes [break], or raises, each in some state. *)
Inductive step (S : Type) : Type :=
| Next (s : S)
| Break (s : S)
| Throw (e : exn) (s : S).

Arguments Next {S} s.
Arguments Break {S} s.
Arguments Throw {S} e s.

(** How a run of a loop ended: its condition became false, its body executed
    [break] or raised, or the fuel of the model ran out with the condition
    still true. *)
Inductive exit : Type :=
| ByCond
| ByBreak
| ByRaise (e : exn)
| OutOfFuel.

(** [while cond: body], at most [fuel] passes. *)
Fixpoint while_loop {S : Type} (cond : S -> bool) (body : S -> step S)
    (fuel : nat) (s : S) : exit * S :=
  if cond s then
    match fuel with
    | O => (OutOfFuel, s)
    | Datatypes.S fuel' =>
        match body s with
        | Next s' => while_loop cond body fuel' s'
        | Break s' => (ByBreak, s')
        | Throw e s' => (ByRaise e, s')
        end
    end
  else (ByCond, s).

(** The states a loop passes through, from [s0]: the state before each test
    of the condition. *)
Inductive visits {S : Type} (cond : S -> bool) (body : S -> step S)
    (s0 : S) : S -> Prop :=
| visits_start : visits cond body s0 s0
| visits_next : forall s s',
    visits cond body s0 s -> cond s = true -> body s = Next s' ->
    visits cond body s0 s'.

(** ** Arrays *)

Definition matrix (T : Type) : Type := list (list T).

(** [range(0, n, b)] for a positive step [b]. *)
Definition range_step (n b : nat) : list nat :=
  map (fun k => k * b) (seq 0 ((n + b - 1) / b)).

(** [X[i:i + b]]. *)
Definition slice {A : Type} (i b : nat) (X : list A) : list A :=
  firstn b (skipn i X).

(** Row [i] of [D[idx].reshape((n, -1))], [idx] the off-diagonal mask: the
    row without its [i]-th entry. *)
Definition drop_nth {A : Type} (i : nat) (l : list A) : list A :=
  firstn i l ++ skipn (Datatypes.S i) l.

(** [row = zeros(n); row[idx[i]] = p]: the entries of [p] around a zero at
    position [i]. *)
Definition put_around {A : Type} (i : nat) (z : A) (p : list A) : list A :=
  firstn i p ++ z :: skipn i p.

(** [M[i][j]], with [z] outside the matrix. *)
Definition entry {A : Type} (z : A) (M : matrix A) (i j : nat) : A :=
  nth j (nth i M []) z.

(** [M[:, j]]. *)
Definition column {A : Type} (z : A) (M : matrix A) (j : nat) : list A :=
  map (fun row => nth j row z) M.

(** [M.T] for a matrix of [n] columns. *)
Definition transpose {A : Type} (z : A) (n : nat) (M : matrix A) : matrix A :=
  map (column z M) (seq 0 n).

(** [l[p]], indexing with an index array. *)
Definition take_indices {A : Type} (z : A) (p : list nat) (l : list A) : list A :=
  map (fun i => nth i l z) p.

Fixpoint map2 {A B C : Type} (f : A -> B -> C) (l : list A) (l' : list B)
    : list C :=
  match l, l' with
  | a :: t, b :: t' => f a b :: map2 f t t'
  | _, _ => []
  end.

(** ** Pairwise distances *)

Section Distances.
Context {T : Type} {R : RingOps T}.

(** [np.sum] of a vector.  (NumPy adds floats pairwise in blocks; the model
    adds from the left.) *)
Definition rsum (l : list T) : T := fold_left radd l rzero.

(** [np.sum(np.square(X), axis=1)[i]]. *)
Definition sq_norm (x : list T) : T := rsum (map (fun a => rmul a a) x).

(** [np.dot(X, X.T)[i][j]]. *)
Definition dot (x y : list T) : T := rsum (map2 rmul x y).

(** [D = sum_X + (sum_X.reshape((-1, 1)) - 2 * np.dot(X, X.T))]: by
    broadcasting, [D[i][j] = sum_X[j] + (sum_X[i] - 2 * dot(X[i], X[j]))]. *)
Definition pairwise_D (X : matrix T) : matrix T :=
  map (fun xi =>
         map (fun xj => radd (sq_norm xj)
                             (rsub (sq_norm xi) (rmul rtwo (dot xi xj)))) X) X.

(** The squared Euclidean distance, [sum_k (x[k] - y[k])^2]. *)
Definition sq_dist (x y : list T) : T :=
  rsum (map2 (fun a b => rmul (rsub a b) (rsub a b)) x y).

Definition sq_dist_matrix (X : matrix T) : matrix T :=
  map (fun xi => map (fun xj => sq_dist xi xj) X) X.

End Distances.

(** ** Perplexity calibration: what the two variants share *)

Section Calibration.
Context {T : Type} {SC : Scalar T}.

(** [Hbeta(D, beta)]: the entropy [H] and the probability row [P]. *)
Definition Hbeta (D : list T) (beta : T) : T * list T :=
  let P := map (fun d => sexp (rmul (sopp d) beta)) D in
  let sumP := rsum P in
  let H := radd (slog sumP) (sdiv (rmul beta (rsum (map2 rmul D P))) sumP) in
  (H, map (fun p => sdiv p sumP) P).

(** The local variables of [x2p_job]. *)
Record search : Type := {
  beta : T;
  beta_min : T;
  beta_max : T;
  H : T;
  thisP : list T;
  Hdiff : T;
  tries : Z
}.

(** The state of [x2p_job] when its loop is reached. *)
Definition search_start (Di : list T) (logU : T) : search :=
  let beta0 := rone in
  let '(H0, P0) := Hbeta Di beta0 in
  {| beta := beta0; beta_min := ninf; beta_max := pinf;
     H := H0; thisP := P0; Hdiff := rsub H0 logU; tries := 0 |}.

(** [tries < max_iteration and np.abs(Hdiff) > tol]. *)
Definition search_cond (max_iteration : Z) (tol : T) (s : search) : bool :=
  (tries s <? max_iteration)%Z && sltb tol (sabs (Hdiff s)).

(** [np.isnan(P).any()]. *)
Definition has_nan (P : list T) : bool := existsb sisnan P.

(** [np.isinf]. *)
Definition sisinf (x : T) : bool := sisposinf x || sisneginf x.

(** The defaults of [x2p_job]. *)
Definition default_max_iteration : Z := 50.
Definition default_tol : T := of_float 1e-5%float.

(** *** From conditional rows to a similarity block *)

(** [P_batch[np.isnan(P_batch)] = 0]. *)
Definition nan_to_zero (M : matrix T) : matrix T :=
  map (map (fun p => if sisnan p then rzero else p)) M.

(** [P_batch + P_batch.T]. *)
Definition add_transpose (M : matrix T) : matrix T :=
  map2 (map2 radd) M (transpose rzero (length M) M).

(** [P_batch.sum()]. *)
Definition total (M : matrix T) : T := rsum (concat M).

(** [P_batch / P_batch.sum()]. *)
Definition normalize (M : matrix T) : matrix T :=
  let s := total M in map (map (fun p => sdiv p s)) M.

(** [np.maximum(a, b)]: the larger, and NaN when one of them is. *)
Definition smaximum (a b : T) : T :=
  if sisnan a then a else if sisnan b then b else if sltb a b then b else a.

(** [np.maximum(P_batch, eps)]. *)
Definition floor_at (eps : T) (M : matrix T) : matrix T :=
  map (map (fun p => smaximum p eps)) M.

(** The four statements of [calculate_P] between [x2p] and the store into
    [P]. *)
Definition similarity_block (eps : T) (P_batch : matrix T) : matrix T :=
  floor_at eps (normalize (add_transpose (nan_to_zero P_batch))).

(** [P[i:i + batch_size] = P_batch], where the slot has [len(P_batch)] rows
    of [batch_size] columns: NumPy broadcasts a 1 x 1 block and refuses
    another block that is not [batch_size] wide. *)
Definition store_block (batch_size : nat) (P_batch : matrix T)
    : result (matrix T) :=
  if Nat.eqb (length P_batch) batch_size then Ok P_batch
  else if Nat.eqb (length P_batch) 1
       then Ok (map (fun row => repeat (hd rzero row) batch_size) P_batch)
       else Raise ValueError.

(** [M *= v], on the value of the array. *)
Definition scale (v : T) (M : matrix T) : matrix T :=
  map (map (fun p => rmul p v)) M.

End Calibration.

Arguments search T : clear implicits.
Arguments Hbeta : simpl never.

(** ** Training: what the two variants share *)

(** [early_stopping_epochs], and the patience counted down from it: an
    integer, or [np.inf] (the default), which no decrement changes. *)
Inductive count : Type :=
| Finite (z : Z)
| Unbounded.

(** [c - 1]. *)
Definition count_pred (c : count) : count :=
  match c with
  | Finite z => Finite (z - 1)
  | Unbounded => Unbounded
  end.

(** [c == 0]. *)
Definition count_is_zero (c : count) : bool :=
  match c with
  | Finite z => (z =? 0)%Z
  | Unbounded => false
  end.

(** The arrays of a run of [fit], by address: [P] and its copies are
    objects that statements change in place. *)
Definition heap (T : Type) : Type := list (matrix T).
Definition loc : Type := nat.

(** A new array holding [M]. *)
Definition alloc {T : Type} (h : heap T) (M : matrix T) : loc * heap T :=
  (length h, h ++ [M]).

Definition read {T : Type} (h : heap T) (l : loc) : matrix T := nth l h [].

(** The array at [l], changed in place to [M]. *)
Definition write {T : Type} (h : heap T) (l : loc) (M : matrix T) : heap T :=
  if Nat.ltb l (length h) then firstn l h ++ M :: skipn (Datatypes.S l) h
  else h.

(** Keras and NumPy's random generator, the collaborators of the training
    loop: a network is built and compiled for an input and an output width,
    hidden widths and the two parameters its loss reads ([alpha] and the
    batch size); [train_on_batch] updates it and returns the loss of the
    batch; [predict] is its forward pass; [permutation n] draws a
    permutation of [range(n)]. *)
Class Keras (T : Type) : Type := {
  Net : Type;
  Rng : Type;
  compile_model : nat -> nat -> list nat -> T -> Z -> Net;
  train_on_batch : Net -> matrix T -> matrix T -> Net * T;
  predict : Net -> matrix T -> matrix T;
  permutation : Rng -> nat -> Rng * list nat
}.

(** What one epoch trained on: the epoch, the data as ordered in that epoch
    and the similarity matrix handed, slice by slice, to
    [train_on_batch]. *)
Record seen (T : Type) : Type := {
  seen_epoch : Z;
  seen_X : matrix T;
  seen_P : matrix T
}.

Section Training.
Context {T : Type} {SC : Scalar T}.

(** [loss < es_loss and np.abs(loss - es_loss) > min_improvement]. *)
Definition improved (min_improvement es_loss loss : T) : bool :=
  sltb loss es_loss && sltb min_improvement (sabs (rsub loss es_loss)).

(** The early-stopping variables of [fit]. *)
Record stopper : Type := {
  es_patience : count;
  es_loss : T;
  es_stop : bool
}.

(** Their values before the loop. *)
Definition stopper_start (early_stopping_epochs : count) : stopper :=
  {| es_patience := early_stopping_epochs; es_loss := pinf; es_stop := false |}.

(** "Check early-stopping condition", at the end of an epoch of loss
    [loss]. *)
Definition es_update (early_stopping_epochs : count) (min_improvement : T)
    (es : stopper) (loss : T) : stopper :=
  let '(es_loss', es_patience') :=
    if improved min_improvement (es_loss es) loss
    then (loss, early_stopping_epochs)
    else (es_loss es, count_pred (es_patience es)) in
  {| es_patience := es_patience';
     es_loss := es_loss';
     es_stop := if count_is_zero es_patience' then true else es_stop es |}.

(** "Early exaggeration", on the array at [l]. *)
Definition exaggerate (epoch early_exaggeration_epochs : Z)
    (early_exaggeration_value : T) (h : heap T) (l : loc) : heap T :=
  if (epoch <? early_exaggeration_epochs)%Z
  then write h l (scale early_exaggeration_value (read h l))
  else h.

End Training.

Arguments stopper T : clear implicits.

(** [X.shape[1]], for a block of rows of one length. *)
Definition width {A : Type} (X : matrix A) : nat :=
  match X with
  | [] => 0
  | row :: _ => length row
  end.

(** ** [src/parametric_tsne.py] *)

Module Root.
Section Code.
Context {T : Type} {SC : Scalar T} {K : Keras T}.

(** One pass through the loop of [x2p_job]. *)
Definition x2p_body (Di : list T) (logU : T) (s : search T) : step (search T) :=
  let thisP_old := thisP s in
  let '(beta_min', beta_max', beta') :=
    if sltb rzero (Hdiff s) then
      (beta s, beta_max s,
       if sisposinf (beta_max s) then rmul (beta s) rtwo
       else sdiv (radd (beta s) (beta_max s)) rtwo)
    else
      (beta_min s, beta s,
       if sisneginf (beta_min s) then sdiv (beta s) rtwo
       else sdiv (radd (beta s) (beta_min s)) rtwo) in
  let '(H', thisP') := Hbeta Di beta' in
  if has_nan thisP' then
    Break {| beta := beta'; beta_min := beta_min'; beta_max := beta_max';
             H := H'; thisP := thisP_old; Hdiff := Hdiff s;
             tries := tries s |}
  else
    Next {| beta := beta'; beta_min := beta_min'; beta_max := beta_max';
            H := H'; thisP := thisP'; Hdiff := rsub H' logU;
            tries := tries s + 1 |}.

(** The loop of [x2p_job], from its first test to its exit. *)
Definition x2p_run (Di : list T) (logU : T) (max_iteration : Z) (tol : T)
    : exit * search T :=
  while_loop (search_cond max_iteration tol) (x2p_body Di logU)
    (Z.to_nat max_iteration) (search_start Di logU).

Definition x2p_job (data : nat * list T * T) (max_iteration : Z) (tol : T)
    : nat * list T :=
  let '(i, Di, logU) := data in
  (i, thisP (snd (x2p_run Di logU max_iteration tol))).

(** [x2p]; the pool maps [x2p_job] over the rows and returns the results
    in the order of the rows.  An empty block has no reshape to
    [(0, -1)]. *)
Definition x2p (X : matrix T) (perplexity : T) : result (matrix T) :=
  match X with
  | [] => Raise ValueError
  | _ :: _ =>
      let n := length X in
      let logU := slog perplexity in
      let D := pairwise_D X in
      let results :=
        map (fun i => x2p_job (i, drop_nth i (nth i D []), logU)
                        default_max_iteration default_tol) (seq 0 n) in
      Ok (map (fun '(i, thisP) => put_around i rzero thisP) results)
  end.

(** The floor of [calculate_P]. *)
Definition floor_eps : T := of_float 1e-8%float.

(** [calculate_P]: [np.zeros] refuses a negative width, [range] a zero
    step. *)
Definition calculate_P (X : matrix T) (batch_size : Z) (perplexity : T)
    : result (matrix T) :=
  if (batch_size <=? 0)%Z then Raise ValueError
  else
    let b := Z.to_nat batch_size in
    blocks <- mapM (fun i =>
                      P_batch <- x2p (slice i b X) perplexity ;;
                      store_block b (similarity_block floor_eps P_batch))
                   (range_step (length X) b) ;;
    Ok (concat blocks).

(** The attributes of a [ParametricTSNE]. *)
Record estimator : Type := {
  n_components : nat;
  perplexity : T;
  n_iter : Z;
  verbose : Z;
  early_exaggeration_epochs : Z;
  early_exaggeration_value : T;
  early_stopping_epochs : count;
  early_stopping_min_improvement : T;
  alpha : T;
  logdir : String.string;
  _model : option Net;
  _batch_size : option Z
}.

(** [ParametricTSNE()], the estimator [__init__] makes from its
    defaults. *)
Definition default : estimator :=
  {| n_components := 2;
     perplexity := of_float 30%float;
     n_iter := 1000;
     verbose := 0;
     early_exaggeration_epochs := 50;
     early_exaggeration_value := of_float 4%float;
     early_stopping_epochs := Unbounded;
     early_stopping_min_improvement := of_float 1e-2%float;
     alpha := of_int 1;
     logdir := String.String (Ascii.ascii_of_nat 46) String.EmptyString;
     _model := None;
     _batch_size := None |}.

(** [self._model = m; self._batch_size = b]. *)
Definition with_internals (est : estimator) (m : option Net) (b : option Z)
    : estimator :=
  {| n_components := n_components est;
     perplexity := perplexity est;
     n_iter := n_iter est;
     verbose := verbose est;
     early_exaggeration_epochs := early_exaggeration_epochs est;
     early_exaggeration_value := early_exaggeration_value est;
     early_stopping_epochs := early_stopping_epochs est;
     early_stopping_min_improvement := early_stopping_min_improvement est;
     alpha := alpha est;
     logdir := logdir est;
     _model := m;
     _batch_size := b |}.

(** [_build_model(n_input, n_output)], for an estimator whose batch size is
    [b]. *)
Definition _build_model (est : estimator) (b : Z) (n_input n_output : nat)
    : Net :=
  compile_model n_input n_output [500; 500; 2000] (alpha est) b.

(** The variables of the loop of [fit], the arrays it holds, and what it
    trained on and logged so far. *)
Record train_state : Type := {
  epoch : Z;
  X_now : matrix T;
  es : stopper T;
  net : Net;
  rng : Rng;
  mem : heap T;
  trained : list (seen T);
  history : list T
}.

(** The batches of one epoch: the network, the sum of the losses and the
    number of batches. *)
Definition train_batches (nt : Net) (X P : matrix T) (n_sample b : nat)
    : Net * T * Z :=
  fold_left
    (fun (acc : Net * T * Z) i =>
       let '(nt, loss, n_batches) := acc in
       let '(nt', l) := train_on_batch nt (slice i b X) (slice i b P) in
       (nt', radd loss l, (n_batches + 1)%Z))
    (range_step n_sample b) (nt, rzero, 0%Z).

(** One epoch of [fit]. *)
Definition epoch_body (est : estimator) (b : Z) (n_sample : nat)
    (s : train_state) : step train_state :=
  let '(rng', new_indices) := permutation (rng s) n_sample in
  let X := take_indices [] new_indices (X_now s) in
  match calculate_P X b (perplexity est) with
  | Raise e =>
      Throw e {| epoch := epoch s; X_now := X; es := es s; net := net s;
                 rng := rng'; mem := mem s; trained := trained s;
                 history := history s |}
  | Ok P0 =>
      let '(P, h) := alloc (mem s) P0 in
      let h := exaggerate (epoch s) (early_exaggeration_epochs est)
                 (early_exaggeration_value est) h P in
      let '(net', loss, n_batches) :=
        train_batches (net s) X (read h P) n_sample (Z.to_nat b) in
      if (n_batches =? 0)%Z then
        Throw ZeroDivisionError
          {| epoch := epoch s; X_now := X; es := es s; net := net';
             rng := rng'; mem := h; trained := trained s;
             history := history s |}
      else
        let loss := sdiv loss (of_int n_batches) in
        Next {| epoch := epoch s + 1;
                X_now := X;
                es := es_update (early_stopping_epochs est)
                        (early_stopping_min_improvement est) (es s) loss;
                net := net';
                rng := rng';
                mem := h;
                trained := trained s ++
                  [{| seen_epoch := epoch s; seen_X := X;
                      seen_P := read h P |}];
                history := history s ++ [loss] |}
  end.

(** [epoch < self.n_iter and not es_stop]. *)
Definition fit_cond (est : estimator) (s : train_state) : bool :=
  (epoch s <? n_iter est)%Z && negb (es_stop (es s)).

(** A call of [fit]: the estimator and the generator after it, the network
    as [_build_model] compiled it, how the loop ended and in which state. *)
Record fit_outcome : Type := {
  fitted : estimator;
  world : Rng;
  built : Net;
  ended : exit;
  final : train_state
}.

Definition fit (est : estimator) (X : matrix T) (batch_size : option Z)
    (w : Rng) : fit_outcome :=
  let n_sample := length X in
  let n_feature := width X in
  let b := match batch_size with
           | Some b => b
           | None => Z.of_nat n_sample
           end in
  let model := _build_model est b n_feature (n_components est) in
  let s0 := {| epoch := 0; X_now := X;
               es := stopper_start (early_stopping_epochs est);
               net := model; rng := w; mem := []; trained := [];
               history := [] |} in
  let '(ex, s) := while_loop (fit_cond est) (epoch_body est b n_sample)
                    (Z.to_nat (n_iter est)) s0 in
  {| fitted := with_internals est (Some (net s)) (Some b);
     world := rng s; built := model; ended := ex; final := s |}.

(** What the caller of [fit] gets: [self], or the exception. *)
Definition returned (o : fit_outcome) : result estimator :=
  match ended o with
  | ByRaise e => Raise e
  | _ => Ok (fitted o)
  end.

Definition transform (est : estimator) (X : matrix T) : result (matrix T) :=
  match _model est with
  | None => Raise NotFittedError
  | Some model => Ok (predict model X)
  end.

Definition fit_transform (est : estimator) (X : matrix T)
    (batch_size : option Z) (w : Rng) : estimator * result (matrix T) :=
  let o := fit est X batch_size w in
  match returned o with
  | Raise e => (fitted o, Raise e)
  | Ok self => (self, transform self X)
  end.

End Code.

Arguments estimator T {K}.
Arguments train_state T {K}.
Arguments fit_outcome T {K}.

End Root.

(** ** [src/msp_tsne/parametric_tsne.py] *)

Module Msp.
Section Code.
Context {T : Type} {SC : Scalar T} {K : Keras T}.

(** One pass through the loop of [x2p_job]. *)
Definition x2p_body (Di : list T) (logU : T) (s : search T) : step (search T) :=
  let '(beta_min', beta_max', beta') :=
    if sltb rzero (Hdiff s) then
      (beta s, beta_max s,
       if sisinf (beta_max s) then rmul (beta s) rtwo
       else sdiv (radd (beta s) (beta_max s)) rtwo)
    else
      (beta_min s, beta s,
       if sisinf (beta_min s) then sdiv (beta s) rtwo
       else sdiv (radd (beta s) (beta_min s)) rtwo) in
  let '(H', thisP') := Hbeta Di beta' in
  Next {| beta := beta'; beta_min := beta_min'; beta_max := beta_max';
          H := H'; thisP := thisP'; Hdiff := rsub H' logU;
          tries := tries s + 1 |}.

(** The loop of [x2p_job], from its first test to its exit. *)
Definition x2p_run (Di : list T) (logU : T) (max_iteration : Z) (tol : T)
    : exit * search T :=
  while_loop (search_cond max_iteration tol) (x2p_body Di logU)
    (Z.to_nat max_iteration) (search_start Di logU).

Definition x2p_job (data : nat * list T * T) (max_iteration : Z) (tol : T)
    : nat * list T :=
  let '(i, Di, logU) := data in
  (i, thisP (snd (x2p_run Di logU max_iteration tol))).

(** [x2p].  An empty block has no reshape to [(0, -1)]. *)
Definition x2p (X : matrix T) (perplexity : T) : result (matrix T) :=
  match X with
  | [] => Raise ValueError
  | _ :: _ =>
      let n := length X in
      let logU := slog perplexity in
      let D := pairwise_D X in
      Ok (map (fun i =>
                 put_around i rzero
                   (snd (x2p_job (i, drop_nth i (nth i D []), logU)
                           default_max_iteration default_tol)))
              (seq 0 n))
  end.

(** The floor of [_calculate_P]. *)
Definition floor_eps : T := of_float 1e-12%float.

(** The attributes of a [ParametricTSNE]. *)
Record estimator : Type := {
  n_components : nat;
  perplexity : T;
  n_iter : Z;
  batch_size : option Z;
  verbose : Z;
  nl1 : nat;
  nl2 : nat;
  nl3 : nat;
  early_exaggeration_epochs : Z;
  early_exaggeration_value : T;
  early_stopping_epochs : count;
  early_stopping_min_improvement : T;
  alpha : T;
  logdir : option String.string;
  _model : option Net
}.

(** [ParametricTSNE()], the estimator [__init__] makes from its
    defaults. *)
Definition default : estimator :=
  {| n_components := 2;
     perplexity := of_float 30%float;
     n_iter := 1000;
     batch_size := Some 500%Z;
     verbose := 0;
     nl1 := 1000;
     nl2 := 500;
     nl3 := 250;
     early_exaggeration_epochs := 50;
     early_exaggeration_value := of_float 4%float;
     early_stopping_epochs := Unbounded;
     early_stopping_min_improvement := of_float 1e-2%float;
     alpha := of_int 1;
     logdir := None;
     _model := None |}.

(** [self.batch_size = b]. *)
Definition with_batch_size (est : estimator) (b : option Z) : estimator :=
  {| n_components := n_components est;
     perplexity := perplexity est;
     n_iter := n_iter est;
     batch_size := b;
     verbose := verbose est;
     nl1 := nl1 est;
     nl2 := nl2 est;
     nl3 := nl3 est;
     early_exaggeration_epochs := early_exaggeration_epochs est;
     early_exaggeration_value := early_exaggeration_value est;
     early_stopping_epochs := early_stopping_epochs est;
     early_stopping_min_improvement := early_stopping_min_improvement est;
     alpha := alpha est;
     logdir := logdir est;
     _model := _model est |}.

(** [self._model = m]. *)
Definition with_model (est : estimator) (m : option Net) : estimator :=
  {| n_components := n_components est;
     perplexity := perplexity est;
     n_iter := n_iter est;
     batch_size := batch_size est;
     verbose := verbose est;
     nl1 := nl1 est;
     nl2 := nl2 est;
     nl3 := nl3 est;
     early_exaggeration_epochs := early_exaggeration_epochs est;
     early_exaggeration_value := early_exaggeration_value est;
     early_stopping_epochs := early_stopping_epochs est;
     early_stopping_min_improvement := early_stopping_min_improvement est;
     alpha := alpha est;
     logdir := logdir est;
     _model := m |}.

(** [_calculate_P]: [np.zeros] refuses the width [None] and a negative
    width, [np.arange] a zero step. *)
Definition _calculate_P (est : estimator) (X : matrix T) : result (matrix T) :=
  match batch_size est with
  | None => Raise TypeError
  | Some batch_size =>
      if (batch_size <? 0)%Z then Raise ValueError
      else if (batch_size =? 0)%Z then Raise ZeroDivisionError
      else
        let b := Z.to_nat batch_size in
        blocks <- mapM (fun i =>
                          P_batch <- x2p (slice i b X) (perplexity est) ;;
                          store_block b (similarity_block floor_eps P_batch))
                       (range_step (length X) b) ;;
        Ok (concat blocks)
  end.

(** [_build_model(n_input, n_output)]; the loss reads [self.batch_size] when
    the model is compiled. *)
Definition _build_model (est : estimator) (n_input n_output : nat) : Net :=
  compile_model n_input n_output [nl1 est; nl2 est; nl3 est] (alpha est)
    (match batch_size est with Some b => b | None => 0%Z end).

(** The first statement of [fit]: the batch size of the estimator and the
    rows kept of [X]. *)
Definition adjust (est : estimator) (X : matrix T)
    : result (estimator * matrix T) :=
  let n := Z.of_nat (length X) in
  match batch_size est with
  | None => Ok (with_batch_size est (Some n), X)
  | Some b =>
      if (b >? n)%Z then Ok (with_batch_size est (Some n), X)
      else if (b =? 0)%Z then Raise ZeroDivisionError
      else
        let m := (n mod b)%Z in
        if (m >? 0)%Z then Ok (est, firstn (length X - Z.to_nat m) X)
        else Ok (est, X)
  end.

(** The variables of the loop of [fit], the arrays it holds, and what it
    trained on and logged so far. *)
Record train_state : Type := {
  epoch : Z;
  es : stopper T;
  net : Net;
  rng : Rng;
  mem : heap T;
  trained : list (seen T);
  history : list T
}.

(** The batches of one epoch: the network, the generator, the sum of the
    losses and the number of batches.  Each batch is shuffled, data and
    similarities alike. *)
Definition train_batches (nt : Net) (w : Rng) (X _P : matrix T)
    (n_sample b : nat) : Net * Rng * T * Z :=
  fold_left
    (fun (acc : Net * Rng * T * Z) i =>
       let '(nt, w, loss, n_batches) := acc in
       let X_batch := slice i b X in
       let _P_batch := slice i b _P in
       let '(w', p_idxs) := permutation w b in
       let X_batch := take_indices [] p_idxs X_batch in
       let _P_batch := take_indices [] p_idxs _P_batch in
       let _P_batch := map (take_indices rzero p_idxs) _P_batch in
       let '(nt', l) := train_on_batch nt X_batch _P_batch in
       (nt', w', radd loss l, (n_batches + 1)%Z))
    (range_step n_sample b) (nt, w, rzero, 0%Z).

(** One epoch of [fit], [P] the address of the precomputed matrix. *)
Definition epoch_body (est : estimator) (X : matrix T) (b : Z) (P : loc)
    (s : train_state) : step train_state :=
  let '(_P, h) := alloc (mem s) (read (mem s) P) in
  let h := exaggerate (epoch s) (early_exaggeration_epochs est)
             (early_exaggeration_value est) h _P in
  if (b =? 0)%Z then
    Throw ValueError
      {| epoch := epoch s; es := es s; net := net s; rng := rng s;
         mem := h; trained := trained s; history := history s |}
  else
    let '(net', rng', loss, n_batches) :=
      train_batches (net s) (rng s) X (read h _P) (length X) (Z.to_nat b) in
    if (n_batches =? 0)%Z then
      Throw ZeroDivisionError
        {| epoch := epoch s; es := es s; net := net'; rng := rng';
           mem := h; trained := trained s; history := history s |}
    else
      let loss := sdiv loss (of_int n_batches) in
      Next {| epoch := epoch s + 1;
              es := es_update (early_stopping_epochs est)
                      (early_stopping_min_improvement est) (es s) loss;
              net := net';
              rng := rng';
              mem := h;
              trained := trained s ++
                [{| seen_epoch := epoch s; seen_X := X;
                    seen_P := read h _P |}];
              history := history s ++ [loss] |}.

(** [epoch < self.n_iter and not es_stop]. *)
Definition fit_cond (est : estimator) (s : train_state) : bool :=
  (epoch s <? n_iter est)%Z && negb (es_stop (es s)).

(** A call of [fit]: the estimator and the generator after it, how it ended
    ([ByRaise] also for an exception before its loop), the rows it trained
    on, the network as [_build_model] compiled it, when it came to that,
    and the last state of its loop, when the loop was reached. *)
Record fit_outcome : Type := {
  fitted : estimator;
  world : Rng;
  ended : exit;
  kept : matrix T;
  built : option Net;
  final : option train_state
}.

Definition fit (est : estimator) (X : matrix T) (w : Rng) : fit_outcome :=
  match adjust est X with
  | Raise e =>
      {| fitted := est; world := w; ended := ByRaise e; kept := X;
         built := None; final := None |}
  | Ok (est, X) =>
      let n_feature := width X in
      let model := _build_model est n_feature (n_components est) in
      let est := with_model est (Some model) in
      match _calculate_P est X with
      | Raise e =>
          {| fitted := est; world := w; ended := ByRaise e; kept := X;
             built := Some model; final := None |}
      | Ok P0 =>
          let '(P, h) := alloc [] P0 in
          let b := match batch_size est with Some b => b | None => 0%Z end in
          let s0 := {| epoch := 0;
                       es := stopper_start (early_stopping_epochs est);
                       net := model; rng := w; mem := h; trained := [];
                       history := [] |} in
          let '(ex, s) := while_loop (fit_cond est) (epoch_body est X b P)
                            (Z.to_nat (n_iter est)) s0 in
          {| fitted := with_model est (Some (net s)); world := rng s;
             ended := ex; kept := X; built := Some model; final := Some s |}
      end
  end.

(** What the caller of [fit] gets: [self], or the exception. *)
Definition returned (o : fit_outcome) : result estimator :=
  match ended o with
  | ByRaise e => Raise e
  | _ => Ok (fitted o)
  end.

(** The property [model]. *)
Definition model (est : estimator) : option Net := _model est.

Definition transform (est : estimator) (X : matrix T) : result (matrix T) :=
  match model est with
  | None => Raise NotFittedError
  | Some m => Ok (predict m X)
  end.

Definition fit_transform (est : estimator) (X : matrix T) (w : Rng)
    : estimator * result (matrix T) :=
  let o := fit est X w in
  match returned o with
  | Raise e => (fitted o, Raise e)
  | Ok self => (self, transform self X)
  end.

End Code.

Arguments estimator T {K}.
Arguments train_state T {K}.
Arguments fit_outcome T {K}.

End Msp.

(** ** Instances to run the code on *)

(** The integers, an exact ring. *)
Definition Z_ring : RingOps Z := {|
  rzero := 0%Z;
  rone := 1%Z;
  rtwo := 2%Z;
  radd := Z.add;
  rsub := Z.sub;
  rmul := Z.mul
|}.

(** A test double for Keras, to run [fit] on a synthetic sequence of
    losses: the network answers the batches with the losses of a script,
    one per batch ([0] when the script is over), and embeds every row at
    the origin; the generator rotates [range(n)]. *)
Module Scripted.

Record network : Type := {
  out_width : nat;
  script : list float
}.

Definition keras (losses : list float) : Keras float := {|
  Net := network;
  Rng := nat;
  compile_model := fun _ n_output _ _ _ =>
    {| out_width := n_output; script := losses |};
  train_on_batch := fun nt _ _ =>
    ({| out_width := out_width nt; script := tl (script nt) |},
     hd 0%float (script nt));
  predict := fun nt X => map (fun _ => repeat 0%float (out_width nt)) X;
  permutation := fun k n =>
    (Datatypes.S k, map (fun i => Nat.modulo (i + k) n) (seq 0 n))
|}.

End Scripted.

(** A second test double, to see what the batches are: the network is
    the list of the batches it was trained on, data and similarities, and
    answers a batch with the sum of its similarities; it embeds no row;
    the generator rotates [range(n)]. *)
Module Recording.

Definition keras : Keras float := {|
  Net := list (matrix float * matrix float);
  Rng := nat;
  compile_model := fun _ _ _ _ _ => [];
  train_on_batch := fun nt X P =>
    (nt ++ [(X, P)], total (SC := binary64) P);
  predict := fun nt X => map (fun _ => []) X;
  permutation := fun k n =>
    (Datatypes.S k, map (fun i => Nat.modulo (i + k) n) (seq 0 n))
|}.

End Recording.

(** Data the examples run on, in binary64. *)
Module Sample.

(** Three points of the plane. *)
Definition block3 : matrix float :=
  [[0; 0]; [1; 0]; [0; 2]]%float.



(** [n] points on a line, at [0, 1, ..., n - 1]. *)
Definition line (n : nat) : matrix float :=
  map (fun i => [float_of_Z (Z.of_nat i)]) (seq 0 n).

(** A Keras whose batches all have the loss [0]. *)
Definition silent : Keras float := Scripted.keras [].

(** A Keras whose losses improve twice and then stall. *)
Definition plateau : Keras float :=
  Scripted.keras [5; 4; 4; 4; 3; 2; 1]%float.

(** [ParametricTSNE(n_iter=..., batch_size=..., early_stopping_epochs=...,
    early_exaggeration_epochs=2)] of the msp variant. *)
Definition msp_estimator (K : Keras float) (n_iter : Z)
    (batch_size : option Z) (early_stopping_epochs : count)
    : Msp.estimator float :=
  {| Msp.n_components := 2;
     Msp.perplexity := 30%float;
     Msp.n_iter := n_iter;
     Msp.batch_size := batch_size;
     Msp.verbose := 0;
     Msp.nl1 := 1000;
     Msp.nl2 := 500;
     Msp.nl3 := 250;
     Msp.early_exaggeration_epochs := 2;
     Msp.early_exaggeration_value := 4%float;
     Msp.early_stopping_epochs := early_stopping_epochs;
     Msp.early_stopping_min_improvement := 1e-2%float;
     Msp.alpha := 1%float;
     Msp.logdir := None;
     Msp._model := None |}.

(** [ParametricTSNE(n_iter=..., early_stopping_epochs=...,
    early_exaggeration_epochs=2)] of the root variant. *)
Definition root_estimator (K : Keras float) (n_iter : Z)
    (early_stopping_epochs : count) : Root.estimator float :=
  {| Root.n_components := 2;
     Root.perplexity := 30%float;
     Root.n_iter := n_iter;
     Root.verbose := 0;
     Root.early_exaggeration_epochs := 2;
     Root.early_exaggeration_value := 4%float;
     Root.early_stopping_epochs := early_stopping_epochs;
     Root.early_stopping_min_improvement := 1e-2%float;
     Root.alpha := 1%float;
     Root.logdir := String.String (Ascii.ascii_of_nat 46) String.EmptyString;
     Root._model := None;
     Root._batch_size := None |}.

End Sample.

(** ** Vocabulary of the properties *)

(** The state a pass through a loop body ends in. *)
Definition reached {S : Type} (st : step S) : S :=
  match st with
  | Next s => s
  | Break s => s
  | Throw _ s => s
  end.

Section Vocabulary.
Context {T : Type} {SC : Scalar T}.

(** The passes left in the budget of [x2p_job]. *)
Definition budget_left (max_iteration : Z) (s : search T) : nat :=
  Z.to_nat (max_iteration - tries s).

(** The tries of [x2p_job] are within its budget. *)
Definition tries_in_budget (max_iteration : Z) (s : search T) : Prop :=
  (0 <= tries s <= Z.max 0 max_iteration)%Z.

(** The row the pass that starts in [s] computes: [Hbeta] at the [beta] the
    pass moves to. *)
Definition pass_row (body : search T -> step (search T)) (Di : list T)
    (s : search T) : list T :=
  snd (Hbeta Di (beta (reached (body s)))).

(** A matrix of [n] rows and [n] columns. *)
Definition square (n : nat) (M : matrix T) : Prop :=
  length M = n /\ Forall (fun row => length row = n) M.


(** The running best loss and the number of epochs since it last improved,
    after the epochs of losses [ls]: the best starts at infinity; a loss
    below the best by more than [min_improvement] becomes the best and
    resets the number to [0]; another loss counts one more. *)
Definition track_step (min_improvement : T) (tr : T * nat) (loss : T)
    : T * nat :=
  if improved min_improvement (fst tr) loss then (loss, 0)
  else (fst tr, Datatypes.S (snd tr)).

Definition track (min_improvement : T) (ls : list T) : T * nat :=
  fold_left (track_step min_improvement) ls (pinf, 0).

Definition running_best (min_improvement : T) (ls : list T) : T :=
  fst (track min_improvement ls).

Definition stalled (min_improvement : T) (ls : list T) : nat :=
  snd (track min_improvement ls).

(** The early-stopping variables after the epochs of losses [ls]. *)
Definition es_after (early_stopping_epochs : count) (min_improvement : T)
    (ls : list T) : stopper T :=
  fold_left (es_update early_stopping_epochs min_improvement) ls
    (stopper_start early_stopping_epochs).

(** [es_stop] was not set at the end of any of the epochs of [ls] but, may
    be, the last. *)
Definition not_stopped_before (early_stopping_epochs : count)
    (min_improvement : T) (ls : list T) : Prop :=
  forall k, k < length ls ->
    es_stop (es_after early_stopping_epochs min_improvement (firstn k ls))
    = false.

(** The epochs left to [n_iter]. *)
Definition epochs_left (n_iter epoch : Z) : nat := Z.to_nat (n_iter - epoch).

(** The early-stopping variables of a loop of [fit] follow its history of
    losses: one loss per epoch, the variables those the losses give, and no
    stop before the last epoch. *)
Definition es_follows (early_stopping_epochs : count) (min_improvement : T)
    (epoch : Z) (es : stopper T) (history : list T) : Prop :=
  epoch = Z.of_nat (length history) /\
  es = es_after early_stopping_epochs min_improvement history /\
  not_stopped_before early_stopping_epochs min_improvement history.

(** The matrix epoch [k] trains on, from the matrix [P0] of similarities:
    [P0] times the early exaggeration, once, in the first epochs, and [P0]
    after them. *)
Definition exaggerated (early_exaggeration_epochs : Z)
    (early_exaggeration_value : T) (P0 : matrix T) (k : nat) : matrix T :=
  if (Z.of_nat k <? early_exaggeration_epochs)%Z
  then scale early_exaggeration_value P0 else P0.

(** What a loop of [fit] trained on, epoch by epoch: in epoch [k], the data
    [X_k] and the exaggerated matrix of the similarities [calc X_k]. *)
Definition trained_on (calc : matrix T -> result (matrix T))
    (early_exaggeration_epochs : Z) (early_exaggeration_value : T)
    (log : list (seen T)) : Prop :=
  forall k e, nth_error log k = Some e ->
    seen_epoch e = Z.of_nat k /\
    exists P0, calc (seen_X e) = Ok P0 /\
      seen_P e = exaggerated early_exaggeration_epochs
                   early_exaggeration_value P0 k.

(** A matrix without NaN. *)
Definition nan_free (M : matrix T) : Prop :=
  forall row, In row M -> has_nan row = false.

End Vocabulary.

(** *** Binary64 *)

(** [x] is [+inf] or a positive binary64 number [m * 2^e] whose leading bit
    is at [2^(L - 1)] or above: [x >= 2^(L - 1)]. *)
Definition pos_above (L : Z) (x : float) : Prop :=
  match Prim2SF x with
  | S754_finite false m e => (L <= Z.log2 (Zpos m) + 1 + e)%Z
  | S754_infinity false => True
  | _ => False
  end.


Section LoopVocabulary.
Context {T : Type} {SC : Scalar T} {K : Keras T}.

(** The state in which the msp variant of [fit] enters its loop: a network
    just compiled, and [P], the array of the similarities, the only
    array. *)
Definition msp_start (est : Msp.estimator T) (model : Net) (w : Rng)
    (P0 : matrix T) : Msp.train_state T :=
  {| Msp.epoch := 0;
     Msp.es := stopper_start (Msp.early_stopping_epochs est);
     Msp.net := model; Msp.rng := w; Msp.mem := [P0]; Msp.trained := [];
     Msp.history := [] |}.

(** What the loop of the msp variant keeps, [P0] the similarities computed
    before it from the rows [X1]. *)
Definition msp_kept (est : Msp.estimator T) (X1 P0 : matrix T)
    (s : Msp.train_state T) : Prop :=
  es_follows (Msp.early_stopping_epochs est)
    (Msp.early_stopping_min_improvement est)
    (Msp.epoch s) (Msp.es s) (Msp.history s) /\
  length (Msp.trained s) = length (Msp.history s) /\
  0 < length (Msp.mem s) /\
  read (Msp.mem s) 0 = P0 /\
  trained_on (fun _ => Ok P0) (Msp.early_exaggeration_epochs est)
    (Msp.early_exaggeration_value est) (Msp.trained s) /\
  Forall (fun e => seen_X e = X1) (Msp.trained s).

(** The state in which the root variant of [fit] enters its loop. *)
Definition root_start (est : Root.estimator T) (X : matrix T) (model : Net)
    (w : Rng) : Root.train_state T :=
  {| Root.epoch := 0; Root.X_now := X;
     Root.es := stopper_start (Root.early_stopping_epochs est);
     Root.net := model; Root.rng := w; Root.mem := []; Root.trained := [];
     Root.history := [] |}.

(** What the loop of the root variant keeps, [b] the batch size. *)
Definition root_kept (est : Root.estimator T) (b : Z)
    (s : Root.train_state T) : Prop :=
  es_follows (Root.early_stopping_epochs est)
    (Root.early_stopping_min_improvement est)
    (Root.epoch s) (Root.es s) (Root.history s) /\
  length (Root.trained s) = length (Root.history s) /\
  trained_on (fun X => Root.calculate_P X b (Root.perplexity est))
    (Root.early_exaggeration_epochs est)
    (Root.early_exaggeration_value est) (Root.trained s).

(** The network, the generator and the losses after [k] epochs that train,
    batch by batch as the msp variant does, on the rows [X] and, in epoch
    [j], on the similarities [exaggerated ee v P0 j]. *)
Fixpoint msp_epochs (ee : Z) (v : T) (X : matrix T) (b : Z) (P0 : matrix T)
    (model : Net) (w : Rng) (k : nat) : Net * Rng * list T :=
  match k with
  | O => (model, w, [])
  | Datatypes.S k' =>
      let '(nt, w1, losses) := msp_epochs ee v X b P0 model w k' in
      let '(nt', w', loss, n_batches) :=
        Msp.train_batches nt w1 X (exaggerated ee v P0 k') (length X)
          (Z.to_nat b) in
      (nt', w', losses ++ [sdiv loss (of_int n_batches)])
  end.

(** The data, the network, the generator and the losses after [k] epochs
    that shuffle the data, compute their similarities [P0] afresh and
    train, batch by batch as the root variant does, on the shuffled data
    and, in epoch [j], on [exaggerated ee v P0 j]; [None] when
    [calculate_P] raises. *)
Fixpoint root_epochs (ee : Z) (v perplexity : T) (b : Z) (n_sample : nat)
    (X : matrix T) (model : Net) (w : Rng) (k : nat)
    : option (matrix T * Net * Rng * list T) :=
  match k with
  | O => Some (X, model, w, [])
  | Datatypes.S k' =>
      match root_epochs ee v perplexity b n_sample X model w k' with
      | None => None
      | Some (Xk, nt, w1, losses) =>
          let '(w', new_indices) := permutation w1 n_sample in
          let X' := take_indices [] new_indices Xk in
          match Root.calculate_P X' b perplexity with
          | Raise _ => None
          | Ok P0 =>
              let '(nt', loss, n_batches) :=
                Root.train_batches nt X' (exaggerated ee v P0 k') n_sample
                  (Z.to_nat b) in
              Some (X', nt', w', losses ++ [sdiv loss (of_int n_batches)])
          end
      end
  end.

End LoopVocabulary.

(** * Properties *)

(** ** Sums and distances over a ring *)

Section RingFacts.
Context {T : Type} {R : RingOps T}.
Variable ropp : T -> T.
Hypothesis Rth : ring_theory rzero rone radd rmul rsub ropp (@eq T).
Hypothesis two_def : rtwo = radd rone rone.

Add Ring Tring : Rth.

Lemma fold_radd_acc (l : list T) (a : T) :
  fold_left radd l a = radd a (fold_left radd l rzero).
Proof.
  revert a. induction l as [|x l IH]; intros a; simpl.
  - ring.
  - rewrite IH, (IH (radd rzero x)). ring.
Qed.

Lemma rsum_cons (a : T) (l : list T) : rsum (a :: l) = radd a (rsum l).
Proof.
  unfold rsum. simpl. rewrite fold_radd_acc.
  replace (radd rzero a) with a by ring. reflexivity.
Qed.

Lemma rsum_nil : rsum (@nil T) = rzero.
Proof. reflexivity. Qed.

Lemma expand_sq_dist (x y : list T) :
  length x = length y ->
  radd (sq_norm y) (rsub (sq_norm x) (rmul rtwo (dot x y))) = sq_dist x y.
Proof.
  revert y. induction x as [|a x IH]; intros [|b y] Hlen; simpl in Hlen;
    try discriminate.
  - unfold sq_norm, dot, sq_dist. simpl. rewrite !rsum_nil, two_def. ring.
  - injection Hlen as Hlen. specialize (IH y Hlen).
    unfold sq_norm, dot, sq_dist in *. simpl.
    rewrite !rsum_cons, <- IH, two_def. ring.
Qed.

End RingFacts.

(** C8: over exact arithmetic (a commutative ring), the matrix [x2p] computes
    by [D_ij = |x_i|^2 + |x_j|^2 - 2 x_i.x_j] is the matrix of the squared
    Euclidean distances [|x_i - x_j|^2], for every block of rows of one
    length. *)
Theorem pairwise_D_is_sq_dist :
  forall (T : Type) (R : RingOps T) (ropp : T -> T),
    ring_theory rzero rone radd rmul rsub ropp (@eq T) ->
    rtwo = radd rone rone ->
    forall (X : matrix T) (d : nat),
      Forall (fun x => length x = d) X ->
      pairwise_D X = sq_dist_matrix X.
Proof.
  intros T R ropp Rth Htwo X d Hrows.
  unfold pairwise_D, sq_dist_matrix.
  apply map_ext_in. intros xi Hi. apply map_ext_in. intros xj Hj.
  rewrite Forall_forall in Hrows.
  apply (expand_sq_dist Rth Htwo).
  rewrite (Hrows xi Hi), (Hrows xj Hj). reflexivity.
Qed.

(** A block of two points of the plane, over the integers. *)
Lemma pairwise_D_is_sq_dist_witness :
  Forall (fun x : list Z => length x = 2) [[1; 2]; [4; 6]]%Z /\
  pairwise_D (R := Z_ring) [[1; 2]; [4; 6]]%Z =
  sq_dist_matrix (R := Z_ring) [[1; 2]; [4; 6]]%Z.
Proof.
  assert (Hrows : Forall (fun x : list Z => length x = 2) [[1; 2]; [4; 6]]%Z)
    by (repeat constructor).
  split; [exact Hrows|].
  exact (@pairwise_D_is_sq_dist Z Z_ring Z.opp Zth eq_refl _ 2 Hrows).
Defined.

(** ** Loops *)

Section LoopFacts.
Context {S : Type}.
Variable cond : S -> bool.
Variable body : S -> step S.

(** An invariant of the passes holds in every state the loop visits. *)
Lemma visits_invariant (I : S -> Prop) (s0 : S) :
  I s0 ->
  (forall s s', I s -> cond s = true -> body s = Next s' -> I s') ->
  forall s, visits cond body s0 s -> I s.
Proof.
  intros H0 Hstep s Hv. induction Hv; eauto.
Qed.

Lemma visits_trans (s0 s1 s2 : S) :
  visits cond body s0 s1 -> visits cond body s1 s2 -> visits cond body s0 s2.
Proof.
  intros H01 H12. induction H12; [assumption|].
  eapply visits_next; eauto.
Qed.

(** Where a run ends: in a visited state whose condition is false, or in
    the state a visited state's body broke or raised in, or, out of fuel,
    in a visited state whose condition is true. *)
Lemma while_loop_end (fuel : nat) (s0 : S) :
  let r := while_loop cond body fuel s0 in
  match fst r with
  | ByCond => visits cond body s0 (snd r) /\ cond (snd r) = false
  | ByBreak => exists s, visits cond body s0 s /\ cond s = true /\
                         body s = Break (snd r)
  | ByRaise e => exists s, visits cond body s0 s /\ cond s = true /\
                           body s = Throw e (snd r)
  | OutOfFuel => visits cond body s0 (snd r) /\ cond (snd r) = true
  end.
Proof.
  revert s0. induction fuel as [|fuel IH]; intros s0; simpl.
  - destruct (cond s0) eqn:Hc; simpl; split; auto; constructor.
  - destruct (cond s0) eqn:Hc; simpl.
    + destruct (body s0) as [s1|s1|e s1] eqn:Hb; simpl.
      * specialize (IH s1). simpl in IH.
        assert (H01 : visits cond body s0 s1)
          by (eapply visits_next; eauto; constructor).
        destruct (fst (while_loop cond body fuel s1)).
        -- destruct IH; split; auto. eapply visits_trans; eauto.
        -- destruct IH as (s & Hv & Hcs & Hbs). exists s.
           split; auto. eapply visits_trans; eauto.
        -- destruct IH as (s & Hv & Hcs & Hbs). exists s.
           split; auto. eapply visits_trans; eauto.
        -- destruct IH; split; auto. eapply visits_trans; eauto.
      * exists s0. repeat split; auto. constructor.
      * exists s0. repeat split; auto. constructor.
    + split; auto. constructor.
Qed.

(** A measure that every completed pass decreases, and that is positive
    while the condition holds, bounds the passes: with that much fuel the
    loop ends by itself, and more fuel changes nothing. *)
Variable mu : S -> nat.
Hypothesis mu_positive : forall s, cond s = true -> 0 < mu s.
Hypothesis mu_decreases :
  forall s s', cond s = true -> body s = Next s' -> mu s' < mu s.
Arguments mu_decreases : clear implicits.
Arguments mu_positive : clear implicits.

Lemma while_loop_terminates (fuel : nat) (s : S) :
  mu s <= fuel -> fst (while_loop cond body fuel s) <> OutOfFuel.
Proof.
  revert s. induction fuel as [|fuel IH]; intros s Hmu; simpl.
  - destruct (cond s) eqn:Hc; simpl; [|discriminate].
    pose proof (mu_positive _ Hc). lia.
  - destruct (cond s) eqn:Hc; simpl; [|discriminate].
    destruct (body s) as [s1|s1|e s1] eqn:Hb; simpl; try discriminate.
    apply IH. pose proof (mu_decreases _ _ Hc Hb). lia.
Qed.

Lemma while_loop_stable (fuel extra : nat) (s : S) :
  mu s <= fuel ->
  while_loop cond body (fuel + extra) s = while_loop cond body fuel s.
Proof.
  revert s. induction fuel as [|fuel IH]; intros s Hmu; simpl.
  - destruct (cond s) eqn:Hc.
    + pose proof (mu_positive _ Hc). lia.
    + destruct extra; simpl; rewrite Hc; reflexivity.
  - destruct (cond s) eqn:Hc; [|reflexivity].
    destruct (body s) as [s1|s1|e s1] eqn:Hb; try reflexivity.
    apply IH. pose proof (mu_decreases _ _ Hc Hb). lia.
Qed.

End LoopFacts.

(** A run goes through every state the loop visits: from a visited state
    it goes on as from the start. *)
Lemma while_loop_from_visited (S : Type) (cond : S -> bool)
    (body : S -> step S) (mu : S -> nat) :
  (forall s, cond s = true -> 0 < mu s) ->
  (forall s s', cond s = true -> body s = Next s' -> mu s' < mu s) ->
  forall s0 s, visits cond body s0 s ->
    while_loop cond body (mu s0) s0 = while_loop cond body (mu s) s.
Proof.
  intros Hpos Hdec s0 s Hv. induction Hv as [|s s' Hv IH Hc Hb];
    [reflexivity|].
  rewrite IH. pose proof (Hpos _ Hc) as Hmu. pose proof (Hdec _ _ Hc Hb) as Hlt.
  destruct (mu s) as [|m] eqn:Hm; [lia|].
  simpl. rewrite Hc, Hb.
  replace m with (mu s' + (m - mu s')) by lia.
  apply (@while_loop_stable S cond body mu Hpos Hdec); lia.
Qed.

(** ** The calibration loop *)

Section CalibrationFacts.
Context {T : Type} {SC : Scalar T}.
Variables (Di : list T) (logU : T) (max_iteration : Z) (tol : T).

Lemma search_cond_budget (s : search T) :
  search_cond max_iteration tol s = true -> 0 < budget_left max_iteration s.
Proof.
  unfold search_cond, budget_left. intros Hc.
  apply andb_prop in Hc as [Ht _]. apply Z.ltb_lt in Ht. lia.
Qed.

Ltac run_body H :=
  repeat match type of H with
         | context [if ?b then _ else _] => destruct b eqn:?
         | context [Hbeta ?D ?b] => destruct (Hbeta D b) eqn:?
         end;
  inversion H; subst; clear H;
  cbn [beta beta_min beta_max thisP Hdiff tries] in *.

(** A pass of the root variant that reaches its end installs a row without
    NaN and counts one try. *)
Lemma root_body_next (s s' : search T) :
  Root.x2p_body Di logU s = Next s' ->
  tries s' = (tries s + 1)%Z /\ has_nan (thisP s') = false.
Proof.
  unfold Root.x2p_body. intros Hb. run_body Hb; auto.
Qed.

(** A pass of the root variant that breaks keeps the previous row and the
    number of tries, the row at the new [beta] holding a NaN. *)
Lemma root_body_break (s s' : search T) :
  Root.x2p_body Di logU s = Break s' ->
  tries s' = tries s /\ thisP s' = thisP s /\
  has_nan (snd (Hbeta Di (beta s'))) = true.
Proof.
  unfold Root.x2p_body. intros Hb.
  run_body Hb; repeat split; try reflexivity;
    match goal with
    | E : Hbeta _ _ = _ |- _ => rewrite E; simpl; assumption
    end.
Qed.

Lemma root_body_no_throw (s s' : search T) (e : exn) :
  Root.x2p_body Di logU s <> Throw e s'.
Proof.
  unfold Root.x2p_body. intros Hb. run_body Hb.
Qed.

(** Every pass of the msp variant reaches its end and counts one try. *)
Lemma msp_body_next (s : search T) :
  exists s', Msp.x2p_body Di logU s = Next s' /\
             tries s' = (tries s + 1)%Z.
Proof.
  unfold Msp.x2p_body.
  repeat match goal with
         | |- context [if ?b then _ else _] => destruct b
         | |- context [Hbeta ?D ?b] => destruct (Hbeta D b)
         end; eexists; split; reflexivity.
Qed.

Lemma root_budget_decreases (s s' : search T) :
  search_cond max_iteration tol s = true ->
  Root.x2p_body Di logU s = Next s' -> budget_left max_iteration s' < budget_left max_iteration s.
Proof.
  intros Hc Hb. apply search_cond_budget in Hc.
  apply root_body_next in Hb as [Ht _]. unfold budget_left in *. lia.
Qed.

Lemma msp_budget_decreases (s s' : search T) :
  search_cond max_iteration tol s = true ->
  Msp.x2p_body Di logU s = Next s' -> budget_left max_iteration s' < budget_left max_iteration s.
Proof.
  intros Hc Hb. apply search_cond_budget in Hc.
  destruct (msp_body_next s) as (s1 & Hb1 & Ht). rewrite Hb in Hb1.
  injection Hb1 as <-. unfold budget_left in *. lia.
Qed.

Lemma search_start_tries : tries (search_start Di logU) = 0%Z.
Proof.
  unfold search_start. destruct (Hbeta Di rone). reflexivity.
Qed.



Lemma start_budget : budget_left max_iteration (search_start Di logU) <= Z.to_nat max_iteration.
Proof.
  unfold budget_left. rewrite search_start_tries. lia.
Qed.

Lemma root_tries_in_budget (s : search T) :
  visits (search_cond max_iteration tol) (Root.x2p_body Di logU)
    (search_start Di logU) s -> tries_in_budget max_iteration s.
Proof.
  apply visits_invariant.
  - unfold tries_in_budget. rewrite search_start_tries. lia.
  - unfold tries_in_budget. intros s1 s2 Hin Hc Hb.
    apply root_body_next in Hb as [Ht _].
    apply andb_prop in Hc as [Hlt _]. apply Z.ltb_lt in Hlt. lia.
Qed.

Lemma msp_tries_in_budget (s : search T) :
  visits (search_cond max_iteration tol) (Msp.x2p_body Di logU)
    (search_start Di logU) s -> tries_in_budget max_iteration s.
Proof.
  apply visits_invariant.
  - unfold tries_in_budget. rewrite search_start_tries. lia.
  - unfold tries_in_budget. intros s1 s2 Hin Hc Hb.
    destruct (msp_body_next s1) as (s3 & Hb3 & Ht). rewrite Hb in Hb3.
    injection Hb3 as <-.
    apply andb_prop in Hc as [Hlt _]. apply Z.ltb_lt in Hlt. lia.
Qed.

End CalibrationFacts.

Section CalibrationRuns.
Context {T : Type} {SC : Scalar T}.
Variables (Di : list T) (logU : T) (max_iteration : Z) (tol : T).

Lemma root_run_exit :
  fst (Root.x2p_run Di logU max_iteration tol) = ByCond \/
  fst (Root.x2p_run Di logU max_iteration tol) = ByBreak.
Proof.
  unfold Root.x2p_run.
  pose proof (while_loop_end (search_cond max_iteration tol)
                (Root.x2p_body Di logU) (Z.to_nat max_iteration)
                (search_start Di logU)) as Hend.
  pose proof (@while_loop_terminates _ (search_cond max_iteration tol)
                (Root.x2p_body Di logU) (budget_left max_iteration)
                (search_cond_budget max_iteration tol)
                (root_budget_decreases Di logU max_iteration tol)
                (Z.to_nat max_iteration) (search_start Di logU)
                (start_budget Di logU max_iteration)) as Hfuel.
  cbv zeta in Hend.
  destruct (fst (while_loop _ _ _ _)) eqn:Hexit; auto.
  - destruct Hend as (s & _ & _ & Hb).
    exfalso. eapply root_body_no_throw. exact Hb.
  - congruence.
Qed.

Lemma msp_run_exit :
  fst (Msp.x2p_run Di logU max_iteration tol) = ByCond.
Proof.
  unfold Msp.x2p_run.
  pose proof (while_loop_end (search_cond max_iteration tol)
                (Msp.x2p_body Di logU) (Z.to_nat max_iteration)
                (search_start Di logU)) as Hend.
  pose proof (@while_loop_terminates _ (search_cond max_iteration tol)
                (Msp.x2p_body Di logU) (budget_left max_iteration)
                (search_cond_budget max_iteration tol)
                (msp_budget_decreases Di logU max_iteration tol)
                (Z.to_nat max_iteration) (search_start Di logU)
                (start_budget Di logU max_iteration)) as Hfuel.
  cbv zeta in Hend.
  destruct (fst (while_loop _ _ _ _)) eqn:Hexit; auto.
  - destruct Hend as (s & _ & _ & Hb).
    destruct (msp_body_next Di logU s) as (s' & Hb' & _). congruence.
  - destruct Hend as (s & _ & _ & Hb).
    destruct (msp_body_next Di logU s) as (s' & Hb' & _). congruence.
  - congruence.
Qed.

Lemma root_run_tries :
  tries_in_budget max_iteration (snd (Root.x2p_run Di logU max_iteration tol)).
Proof.
  pose proof root_run_exit as Hexit. unfold Root.x2p_run in *.
  pose proof (while_loop_end (search_cond max_iteration tol)
                (Root.x2p_body Di logU) (Z.to_nat max_iteration)
                (search_start Di logU)) as Hend.
  cbv zeta in Hend.
  destruct Hexit as [Hexit | Hexit]; rewrite Hexit in Hend.
  - destruct Hend as [Hv _]. eapply root_tries_in_budget; eauto.
  - destruct Hend as (s & Hv & _ & Hb).
    apply root_body_break in Hb as (Ht & _).
    apply root_tries_in_budget in Hv. unfold tries_in_budget in *.
    rewrite Ht. exact Hv.
Qed.

Lemma msp_run_tries :
  tries_in_budget max_iteration (snd (Msp.x2p_run Di logU max_iteration tol)).
Proof.
  pose proof msp_run_exit as Hexit. unfold Msp.x2p_run in *.
  pose proof (while_loop_end (search_cond max_iteration tol)
                (Msp.x2p_body Di logU) (Z.to_nat max_iteration)
                (search_start Di logU)) as Hend.
  cbv zeta in Hend. rewrite Hexit in Hend.
  destruct Hend as [Hv _]. eapply msp_tries_in_budget; eauto.
Qed.

End CalibrationRuns.

(** C4: in both variants the loop of [x2p_job] ends by itself within
    [max_iteration] passes, whatever the row and the target: it ends by its
    condition (or, in the root variant, by its [break]), never by an
    exception and never for lack of fuel; a larger allowance of passes gives
    the same run; the tries end between [0] and the budget; and the row the
    last pass left, converged or not, is what [x2p_job] returns. *)
Theorem x2p_job_within_budget :
  forall (T : Type) (SC : Scalar T) (i : nat) (Di : list T) (logU : T)
         (max_iteration : Z) (tol : T),
    (let r := Root.x2p_run Di logU max_iteration tol in
     (fst r = ByCond \/ fst r = ByBreak) /\
     (forall extra,
        while_loop (search_cond max_iteration tol) (Root.x2p_body Di logU)
          (Z.to_nat max_iteration + extra) (search_start Di logU) = r) /\
     tries_in_budget max_iteration (snd r) /\
     Root.x2p_job (i, Di, logU) max_iteration tol = (i, thisP (snd r))) /\
    (let r := Msp.x2p_run Di logU max_iteration tol in
     fst r = ByCond /\
     (forall extra,
        while_loop (search_cond max_iteration tol) (Msp.x2p_body Di logU)
          (Z.to_nat max_iteration + extra) (search_start Di logU) = r) /\
     tries_in_budget max_iteration (snd r) /\
     Msp.x2p_job (i, Di, logU) max_iteration tol = (i, thisP (snd r))).
Proof.
  intros T SC i Di logU max_iteration tol. split; cbv zeta.
  - split; [apply root_run_exit|]. split; [|split].
    + intros extra. unfold Root.x2p_run.
      apply while_loop_stable with (mu := budget_left max_iteration).
      * apply search_cond_budget.
      * apply root_budget_decreases.
      * apply start_budget.
    + apply root_run_tries.
    + reflexivity.
  - split; [apply msp_run_exit|]. split; [|split].
    + intros extra. unfold Msp.x2p_run.
      apply while_loop_stable with (mu := budget_left max_iteration).
      * apply search_cond_budget.
      * apply msp_budget_decreases.
      * apply start_budget.
    + apply msp_run_tries.
    + reflexivity.
Qed.

(** ** The sign of [beta] *)

(** *** How binary64 rounds a positive number *)

Section Rounding64.
Local Open Scope Z_scope.











End Rounding64.

(** *** The double, the sum and the half of positive numbers *)

Section Halving64.
Local Open Scope Z_scope.












End Halving64.

(** *** The bracket of the calibration *)

Section PositiveBeta.
Variable lib : Libm.
Variables (Di : list float) (logU : float).
Local Open Scope Z_scope.

Lemma pos_above_not_neginf (L : Z) (x : float) :
  pos_above L x -> PrimFloat.eqb x neg_infinity = false.
Proof.
  unfold pos_above. rewrite FloatAxioms.eqb_spec.
  change (Prim2SF neg_infinity) with (S754_infinity true).
  destruct (Prim2SF x) as [s|s| |s m e]; try contradiction;
    destruct s; try contradiction; reflexivity.
Qed.








End PositiveBeta.

Section BetaRuns.
Variable lib : Libm.
Variables (Di : list float) (logU : float) (max_iteration : Z) (tol : float).
Hypothesis budget : (max_iteration <= 1074)%Z.
Local Open Scope Z_scope.



End BetaRuns.


Section UnderflowRun.
#[local] Existing Instance binary64.



End UnderflowRun.

(** ** NaN in the calibration *)

Section NanFacts.
Context {T : Type} {SC : Scalar T}.
Variables (Di : list T) (logU : T) (max_iteration : Z) (tol : T).

Lemma root_visits_nan_free (s : search T) :
  has_nan (thisP (search_start Di logU)) = false ->
  visits (search_cond max_iteration tol) (Root.x2p_body Di logU)
    (search_start Di logU) s ->
  has_nan (thisP s) = false.
Proof.
  intros Hstart. revert s.
  apply visits_invariant with (I := fun s => has_nan (thisP s) = false);
    [exact Hstart|].
  intros s1 s2 _ _ Hb. apply root_body_next in Hb as [_ Hnan]. exact Hnan.
Qed.

End NanFacts.

Section NanPasses.
Context {T : Type} {SC : Scalar T}.
Variables (Di : list T) (logU : T) (max_iteration : Z) (tol : T).

(** A pass of the root variant breaks, keeping the previous row, exactly
    when the row it computes holds a NaN; another pass installs its row. *)
Lemma root_body_cases (s : search T) :
  (has_nan (pass_row (Root.x2p_body Di logU) Di s) = true ->
   exists s', Root.x2p_body Di logU s = Break s' /\ thisP s' = thisP s) /\
  (has_nan (pass_row (Root.x2p_body Di logU) Di s) = false ->
   exists s', Root.x2p_body Di logU s = Next s' /\
              thisP s' = pass_row (Root.x2p_body Di logU) Di s).
Proof.
  unfold pass_row.
  destruct (Root.x2p_body Di logU s) as [s'|s'|e s'] eqn:Hb; cbn [reached].
  - pose proof Hb as Hb'. unfold Root.x2p_body in Hb'.
    assert (Hrow : thisP s' = snd (Hbeta Di (beta s')) /\
                   has_nan (snd (Hbeta Di (beta s'))) = false).
    { repeat match type of Hb' with
             | context [if ?b then _ else _] => destruct b eqn:?
             | context [Hbeta ?D ?b] => destruct (Hbeta D b) eqn:?
             end;
        inversion Hb'; subst; clear Hb';
        cbn [beta beta_min beta_max thisP Hdiff tries] in *;
        match goal with
        | E : Hbeta _ _ = _ |- _ => rewrite E; simpl; auto
        end. }
    destruct Hrow as [Hrow Hnan]. split.
    + intros H. congruence.
    + intros _. exists s'. split; [reflexivity | exact Hrow].
  - apply root_body_break in Hb as (_ & HP & Hnan). split.
    + intros _. exists s'. split; [reflexivity | exact HP].
    + intros H. congruence.
  - exfalso. eapply root_body_no_throw. exact Hb.
Qed.

(** A pass of the run whose row holds a NaN ends the run. *)
Lemma root_run_breaks (s : search T) :
  visits (search_cond max_iteration tol) (Root.x2p_body Di logU)
    (search_start Di logU) s ->
  search_cond max_iteration tol s = true ->
  has_nan (pass_row (Root.x2p_body Di logU) Di s) = true ->
  fst (Root.x2p_run Di logU max_iteration tol) = ByBreak /\
  thisP (snd (Root.x2p_run Di logU max_iteration tol)) = thisP s.
Proof.
  intros Hv Hc Hnan.
  destruct (proj1 (root_body_cases s) Hnan) as (s' & Hb & HP).
  unfold Root.x2p_run.
  assert (Hfuel : Z.to_nat max_iteration =
                  budget_left max_iteration (search_start Di logU))
    by (unfold budget_left; rewrite search_start_tries;
        f_equal; lia).
  rewrite Hfuel.
  rewrite (@while_loop_from_visited _ (search_cond max_iteration tol)
             (Root.x2p_body Di logU) (budget_left max_iteration)
             (search_cond_budget max_iteration tol)
             (root_budget_decreases Di logU max_iteration tol)
             _ _ Hv).
  pose proof (search_cond_budget _ _ _ Hc) as Hmu.
  destruct (budget_left max_iteration s) as [|m]; [lia|].
  simpl. rewrite Hc, Hb. split; [reflexivity | exact HP].
Qed.

End NanPasses.

(** C1, as amended: in the root variant a pass of the loop of [x2p_job]
    whose row holds a NaN keeps the previous row and ends the loop, and
    another pass installs its row and goes on; so a run in which a pass
    computes a NaN row ends at that pass, by [break], and [x2p_job]
    returns the row of the pass before; no other pass breaks; and the row
    [x2p_job] returns holds no NaN whenever the row computed at
    [beta = 1], before the loop, holds none. *)
Theorem root_x2p_job_reverts_on_nan :
  forall (T : Type) (SC : Scalar T) (i : nat) (Di : list T) (logU : T)
         (max_iteration : Z) (tol : T),
    let body := Root.x2p_body Di logU in
    let cond := search_cond max_iteration tol in
    let run := Root.x2p_run Di logU max_iteration tol in
    let job := Root.x2p_job (i, Di, logU) max_iteration tol in
    (forall s,
       (has_nan (pass_row body Di s) = true ->
        exists s', body s = Break s' /\ thisP s' = thisP s) /\
       (has_nan (pass_row body Di s) = false ->
        exists s', body s = Next s' /\ thisP s' = pass_row body Di s)) /\
    (forall s,
       visits cond body (search_start Di logU) s -> cond s = true ->
       has_nan (pass_row body Di s) = true ->
       fst run = ByBreak /\ job = (i, thisP s)) /\
    (fst run = ByBreak ->
     exists s,
       visits cond body (search_start Di logU) s /\ cond s = true /\
       has_nan (pass_row body Di s) = true /\ job = (i, thisP s)) /\
    (has_nan (thisP (search_start Di logU)) = false ->
     has_nan (snd job) = false).
Proof.
  intros T SC i Di logU max_iteration tol body cond run job.
  split; [apply root_body_cases|].
  assert (Hbreaks : forall s,
            visits cond body (search_start Di logU) s -> cond s = true ->
            has_nan (pass_row body Di s) = true ->
            fst run = ByBreak /\ job = (i, thisP s)).
  { intros s Hv Hc Hnan.
    destruct (root_run_breaks Hv Hc Hnan)
      as [Hexit HP].
    split; [exact Hexit|]. unfold job, Root.x2p_job. rewrite HP.
    reflexivity. }
  split; [exact Hbreaks|].
  pose proof (while_loop_end (search_cond max_iteration tol)
                (Root.x2p_body Di logU) (Z.to_nat max_iteration)
                (search_start Di logU)) as Hend.
  cbv zeta in Hend.
  change (while_loop (search_cond max_iteration tol) (Root.x2p_body Di logU)
            (Z.to_nat max_iteration) (search_start Di logU))
    with run in Hend.
  split.
  - intros Hexit. rewrite Hexit in Hend.
    destruct Hend as (s & Hv & Hc & Hb). exists s.
    assert (Hnan : has_nan (pass_row body Di s) = true).
    { unfold pass_row, body. rewrite Hb. cbn [reached].
      apply root_body_break in Hb as (_ & _ & Hnan). exact Hnan. }
    split; [exact Hv|]. split; [exact Hc|]. split; [exact Hnan|].
    apply (Hbreaks s Hv Hc Hnan).
  - intros Hstart. unfold job, Root.x2p_job. cbn [snd]. fold run.
    destruct (root_run_exit Di logU max_iteration tol) as [Hexit | Hexit];
      fold run in Hexit; rewrite Hexit in Hend.
    + destruct Hend as [Hv _].
      eapply root_visits_nan_free; eauto.
    + destruct Hend as (s & Hv & Hc & Hb).
      apply root_body_break in Hb as (_ & HP & _).
      rewrite HP. eapply root_visits_nan_free; eauto.
Qed.

Section NanRuns.
#[local] Existing Instance binary64.

(** Two distances near 400 calibrated to perplexity 1.5: the row at
    [beta = 1] is finite, the first pass doubles [beta] and its row is
    [0 / 0]; the loop breaks and the row at [beta = 1] is returned. *)
Lemma root_x2p_job_reverts_on_nan_witness :
  let Di := [400%float; 400.1%float] in
  let logU := slog 1.5%float in
  let s := search_start Di logU in
  visits (search_cond default_max_iteration default_tol)
    (Root.x2p_body Di logU) s s /\
  search_cond default_max_iteration default_tol s = true /\
  has_nan (pass_row (Root.x2p_body Di logU) Di s) = true /\
  fst (Root.x2p_run Di logU default_max_iteration default_tol) = ByBreak /\
  Root.x2p_job (0, Di, logU) default_max_iteration default_tol =
    (0, thisP s).
Proof.
  intros Di logU s.
  assert (Hv : visits (search_cond default_max_iteration default_tol)
                 (Root.x2p_body Di logU) s s) by apply visits_start.
  assert (Hc : search_cond default_max_iteration default_tol s = true)
    by (vm_compute; reflexivity).
  assert (Hnan : has_nan (pass_row (Root.x2p_body Di logU) Di s) = true)
    by (vm_compute; reflexivity).
  split; [exact Hv|]. split; [exact Hc|]. split; [exact Hnan|].
  exact (proj1 (proj2 (@root_x2p_job_reverts_on_nan float binary64 0 Di logU
                         default_max_iteration default_tol))
           s Hv Hc Hnan).
Defined.

(** No division is guarded, and the row computed before the loop is not
    checked: for a single distance of 1000, [exp(-1000)] is [0], the row at
    [beta = 1] is [0 / 0], and both variants return it.  The msp variant
    checks no row at all: from the two distances near 400 it returns the
    row of NaN computed at [beta = 2]. *)
Lemma x2p_job_returns_nan :
  Root.x2p_job (0, [1000%float], slog 30%float)
    default_max_iteration default_tol = (0, [nan]) /\
  Msp.x2p_job (0, [1000%float], slog 30%float)
    default_max_iteration default_tol = (0, [nan]) /\
  Msp.x2p_job (0, [400%float; 400.1%float], slog 1.5%float)
    default_max_iteration default_tol = (0, [nan; nan]).
Proof.
  repeat split; vm_compute; reflexivity.
Qed.

End NanRuns.

(** ** Matrices *)

Lemma length_map2 {A B C : Type} (f : A -> B -> C) (l : list A)
    (l' : list B) :
  length (map2 f l l') = Nat.min (length l) (length l').
Proof.
  revert l'. induction l as [|a l IH]; intros [|b l']; simpl; auto.
Qed.

Lemma nth_map2 {A B C : Type} (f : A -> B -> C) (l : list A) (l' : list B)
    (i : nat) (da : A) (db : B) (dc : C) :
  i < length l -> i < length l' ->
  nth i (map2 f l l') dc = f (nth i l da) (nth i l' db).
Proof.
  revert l' i. induction l as [|a l IH]; intros [|b l'] [|i]; simpl;
    intros Hl Hl'; try lia; auto.
  apply IH; lia.
Qed.

Lemma nth_map_in {A B : Type} (f : A -> B) (l : list A) (i : nat) (da : A)
    (db : B) :
  i < length l -> nth i (map f l) db = f (nth i l da).
Proof.
  intros Hi. rewrite (nth_indep _ db (f da)) by (rewrite length_map; lia).
  apply map_nth.
Qed.

Section MatrixFacts.
Context {A : Type}.

Lemma length_put_around (i : nat) (z : A) (p : list A) :
  length (put_around i z p) = Datatypes.S (length p).
Proof.
  unfold put_around. rewrite length_app. simpl.
  rewrite <- Nat.add_succ_comm. simpl.
  rewrite <- length_app, firstn_skipn. reflexivity.
Qed.

Lemma nth_put_around (i : nat) (z : A) (p : list A) :
  i <= length p -> nth i (put_around i z p) z = z.
Proof.
  intros Hi. unfold put_around.
  rewrite app_nth2 by (rewrite length_firstn; lia).
  rewrite length_firstn, Nat.min_l by lia. rewrite Nat.sub_diag. reflexivity.
Qed.

Lemma length_drop_nth (i : nat) (l : list A) :
  i < length l -> length (drop_nth i l) = length l - 1.
Proof.
  intros Hi. unfold drop_nth.
  rewrite length_app, length_firstn, length_skipn. lia.
Qed.


Lemma length_transpose_row (z : A) (n : nat) (M : matrix A) (i : nat) :
  i < n -> length (nth i (transpose z n M) []) = length M.
Proof.
  intros Hi. unfold transpose, column.
  rewrite (nth_map_in _ _ 0) by (rewrite length_seq; lia).
  apply length_map.
Qed.


End MatrixFacts.

(** ** The shape of the conditional rows *)

Section RowFacts.
Context {T : Type} {SC : Scalar T}.
Variables (Di : list T) (logU : T) (max_iteration : Z) (tol : T).

Lemma Hbeta_length (D : list T) (b : T) :
  length (snd (Hbeta D b)) = length D.
Proof.
  unfold Hbeta. cbn [snd]. rewrite !length_map. reflexivity.
Qed.

Lemma search_start_row :
  thisP (search_start Di logU) = snd (Hbeta Di rone).
Proof.
  unfold search_start. destruct (Hbeta Di rone). reflexivity.
Qed.

Lemma root_body_row (s : search T) :
  length (thisP s) = length Di ->
  length (thisP (reached (Root.x2p_body Di logU s))) = length Di.
Proof.
  intros Hs. unfold Root.x2p_body.
  repeat match goal with
         | |- context [if ?b then _ else _] => destruct b eqn:?
         | |- context [Hbeta ?D ?b] =>
             pose proof (Hbeta_length D b); destruct (Hbeta D b)
         end;
  cbn [reached thisP snd] in *; congruence.
Qed.

Lemma msp_body_row (s : search T) :
  length (thisP (reached (Msp.x2p_body Di logU s))) = length Di.
Proof.
  unfold Msp.x2p_body.
  repeat match goal with
         | |- context [if ?b then _ else _] => destruct b eqn:?
         | |- context [Hbeta ?D ?b] =>
             pose proof (Hbeta_length D b); destruct (Hbeta D b)
         end;
  cbn [reached thisP snd] in *; congruence.
Qed.

Lemma root_run_row :
  length (thisP (snd (Root.x2p_run Di logU max_iteration tol))) = length Di.
Proof.
  assert (Hinv : forall s,
            visits (search_cond max_iteration tol) (Root.x2p_body Di logU)
              (search_start Di logU) s -> length (thisP s) = length Di).
  { apply visits_invariant with (I := fun s => length (thisP s) = length Di).
    - rewrite search_start_row. apply Hbeta_length.
    - intros s1 s2 H1 _ Hb. pose proof (root_body_row s1 H1) as H2.
      rewrite Hb in H2. exact H2. }
  pose proof (root_run_exit Di logU max_iteration tol) as Hexit.
  pose proof (while_loop_end (search_cond max_iteration tol)
                (Root.x2p_body Di logU) (Z.to_nat max_iteration)
                (search_start Di logU)) as Hend.
  cbv zeta in Hend. unfold Root.x2p_run in *.
  destruct Hexit as [Hexit | Hexit]; rewrite Hexit in Hend.
  - apply Hinv, Hend.
  - destruct Hend as (s & Hv & _ & Hb).
    pose proof (root_body_row s (Hinv s Hv)) as H2.
    rewrite Hb in H2. exact H2.
Qed.

Lemma msp_run_row :
  length (thisP (snd (Msp.x2p_run Di logU max_iteration tol))) = length Di.
Proof.
  assert (Hinv : forall s,
            visits (search_cond max_iteration tol) (Msp.x2p_body Di logU)
              (search_start Di logU) s -> length (thisP s) = length Di).
  { apply visits_invariant with (I := fun s => length (thisP s) = length Di).
    - rewrite search_start_row. apply Hbeta_length.
    - intros s1 s2 H1 _ Hb. pose proof (msp_body_row s1) as H2.
      rewrite Hb in H2. exact H2. }
  pose proof (msp_run_exit Di logU max_iteration tol) as Hexit.
  pose proof (while_loop_end (search_cond max_iteration tol)
                (Msp.x2p_body Di logU) (Z.to_nat max_iteration)
                (search_start Di logU)) as Hend.
  cbv zeta in Hend. unfold Msp.x2p_run in *. rewrite Hexit in Hend.
  apply Hinv, Hend.
Qed.

End RowFacts.

Section BlockShape.
Context {T : Type} {SC : Scalar T}.

Lemma square_row (n : nat) (M : matrix T) (i : nat) :
  square n M -> i < n -> length (nth i M []) = n.
Proof.
  intros [Hlen Hrows] Hi. rewrite Forall_forall in Hrows.
  apply Hrows, nth_In. lia.
Qed.

Lemma pairwise_D_row (X : matrix T) (i : nat) :
  i < length X -> length (nth i (pairwise_D X) []) = length X.
Proof.
  intros Hi. unfold pairwise_D.
  rewrite (nth_map_in _ _ []) by exact Hi. apply length_map.
Qed.

(** The rows [x2p] assembles: [n] rows of [n] entries, with [0] on the
    diagonal. *)
Lemma assembled_rows (n : nat) (row : nat -> list T) :
  (forall i, i < n -> length (row i) = n - 1) ->
  let P := map (fun i => put_around i rzero (row i)) (seq 0 n) in
  square n P /\ forall i, i < n -> entry rzero P i i = rzero.
Proof.
  intros Hrow P. split; [split|].
  - unfold P. rewrite length_map, length_seq. reflexivity.
  - apply Forall_forall. intros r Hr. unfold P in Hr.
    apply in_map_iff in Hr as (i & <- & Hi). apply in_seq in Hi.
    rewrite length_put_around, Hrow by lia. lia.
  - intros i Hi. unfold entry, P.
    rewrite (nth_map_in _ _ 0) by (rewrite length_seq; lia).
    rewrite seq_nth by lia. simpl.
    apply nth_put_around. rewrite Hrow by lia. lia.
Qed.

Lemma root_x2p_shape (X : matrix T) (perplexity : T) (P : matrix T) :
  Root.x2p X perplexity = Ok P ->
  square (length X) P /\
  forall i, i < length X -> entry rzero P i i = rzero.
Proof.
  unfold Root.x2p. destruct X as [|x X'] eqn:HX; [discriminate|].
  rewrite <- HX. intros HP. injection HP as <-. rewrite map_map.
  apply (@assembled_rows (length X)
           (fun i => snd (Root.x2p_job
                            (i, drop_nth i (nth i (pairwise_D X) []),
                             slog perplexity)
                            default_max_iteration default_tol))).
  intros i Hi. unfold Root.x2p_job. cbn [snd].
  rewrite root_run_row, length_drop_nth; rewrite pairwise_D_row; lia.
Qed.

Lemma msp_x2p_shape (X : matrix T) (perplexity : T) (P : matrix T) :
  Msp.x2p X perplexity = Ok P ->
  square (length X) P /\
  forall i, i < length X -> entry rzero P i i = rzero.
Proof.
  unfold Msp.x2p. destruct X as [|x X'] eqn:HX; [discriminate|].
  rewrite <- HX. intros HP. injection HP as <-.
  apply (@assembled_rows (length X)
           (fun i => snd (Msp.x2p_job
                            (i, drop_nth i (nth i (pairwise_D X) []),
                             slog perplexity)
                            default_max_iteration default_tol))).
  intros i Hi. unfold Msp.x2p_job. cbn [snd].
  rewrite msp_run_row, length_drop_nth; rewrite pairwise_D_row; lia.
Qed.

End BlockShape.

(** ** From the conditional rows to the similarity block *)

Section BlockFacts.
Context {T : Type} {SC : Scalar T}.

Lemma square_map_map (f : T -> T) (n : nat) (M : matrix T) :
  square n M -> square n (map (map f) M).
Proof.
  intros [Hlen Hrows]. split.
  - rewrite length_map. exact Hlen.
  - apply Forall_forall. intros r Hr.
    apply in_map_iff in Hr as (r0 & <- & Hr0). rewrite length_map.
    rewrite Forall_forall in Hrows. auto.
Qed.

Lemma square_add_transpose (n : nat) (M : matrix T) :
  square n M -> square n (add_transpose M).
Proof.
  intros HM. pose proof HM as [Hlen Hrows]. unfold add_transpose.
  assert (HT : length (transpose rzero (length M) M) = n)
    by (unfold transpose; rewrite length_map, length_seq; exact Hlen).
  split.
  - rewrite length_map2, HT, Hlen. apply Nat.min_id.
  - apply Forall_forall. intros r Hr.
    apply (In_nth _ _ []) in Hr as (i & Hi & <-).
    rewrite length_map2, HT, Hlen, Nat.min_id in Hi.
    rewrite (nth_map2 _ _ _ [] []) by lia.
    rewrite length_map2, (square_row HM) by lia.
    rewrite length_transpose_row by lia. rewrite Hlen. apply Nat.min_id.
Qed.




End BlockFacts.

(** ** Binary64 *)




Section Binary64Blocks.
Variable lib : Libm.


End Binary64Blocks.


Section BlockRuns.
#[local] Existing Instance binary64.



End BlockRuns.

(** ** The estimator of the msp variant *)

Section MspEstimator.
Context {T : Type} {SC : Scalar T} {K : Keras T}.

Lemma msp_with_model_id (est : Msp.estimator T) :
  Msp.with_model est (Msp._model est) = est.
Proof. destruct est. reflexivity. Qed.

(** What [fit] leaves when its first statement raised, and when it did
    not. *)
Lemma msp_fit_raised (est : Msp.estimator T) (X : matrix T) (w : Rng)
    (e : exn) :
  Msp.adjust est X = Raise e ->
  Msp.fit est X w =
  {| Msp.fitted := est; Msp.world := w; Msp.ended := ByRaise e;
     Msp.kept := X; Msp.built := None; Msp.final := None |}.
Proof.
  intros Hadj. unfold Msp.fit. rewrite Hadj. reflexivity.
Qed.

Lemma msp_fit_adjusted (est est1 : Msp.estimator T) (X X1 : matrix T)
    (w : Rng) :
  Msp.adjust est X = Ok (est1, X1) ->
  let o := Msp.fit est X w in
  Msp.fitted o = Msp.with_model est1 (Msp._model (Msp.fitted o)) /\
  Msp._model (Msp.fitted o) <> None /\
  Msp.built o =
    Some (Msp._build_model est1 (width X1) (Msp.n_components est1)) /\
  Msp.kept o = X1.
Proof.
  intros Hadj. unfold Msp.fit. rewrite Hadj.
  destruct (Msp._calculate_P _ X1) as [P0|e]; cbv zeta.
  - destruct (alloc [] P0) as [P h].
    destruct (while_loop _ _ _ _) as [ex s]. cbn.
    repeat split; discriminate.
  - cbn. repeat split; discriminate.
Qed.

Lemma msp_adjust_cases (est : Msp.estimator T) (X : matrix T) :
  let n := Z.of_nat (length X) in
  match Msp.batch_size est with
  | None => Msp.adjust est X = Ok (Msp.with_batch_size est (Some n), X)
  | Some b =>
      if (b >? n)%Z
      then Msp.adjust est X = Ok (Msp.with_batch_size est (Some n), X)
      else if (b =? 0)%Z then Msp.adjust est X = Raise ZeroDivisionError
      else Msp.adjust est X =
           Ok (est, if (n mod b >? 0)%Z
                    then firstn (length X - Z.to_nat (n mod b)) X else X)
  end.
Proof.
  unfold Msp.adjust. cbv zeta. destruct (Msp.batch_size est) as [b|];
    [|reflexivity].
  destruct (b >? Z.of_nat (length X))%Z; [reflexivity|].
  destruct (b =? 0)%Z; [reflexivity|].
  destruct (Z.of_nat (length X) mod b >? 0)%Z; reflexivity.
Qed.

End MspEstimator.

(** X1: in the msp variant, a call of [fit] on [n] samples with a batch size
    that is [None] or larger than [n] leaves an estimator that differs from
    the one before in its batch size, now [n], and its network only; the
    network was compiled, and so its loss built, with the batch size [n];
    and a later [fit] on at least [n] samples ([n > 0]) runs with the batch
    size [n], keeping of its samples a multiple of [n], and leaves it in
    place.  A call with a batch size of at most [n] changes nothing but the
    network. *)
Theorem fit_overwrites_batch_size :
  forall (T : Type) (SC : Scalar T) (K : Keras T) (est : Msp.estimator T)
         (X : matrix T) (w : Rng),
    let n := Z.of_nat (length X) in
    let o := Msp.fit est X w in
    ((Msp.batch_size est = None \/
      exists b, Msp.batch_size est = Some b /\ (b > n)%Z) ->
     Msp.fitted o =
       Msp.with_model (Msp.with_batch_size est (Some n))
         (Msp._model (Msp.fitted o)) /\
     Msp.built o =
       Some (compile_model (width X) (Msp.n_components est)
               [Msp.nl1 est; Msp.nl2 est; Msp.nl3 est] (Msp.alpha est) n) /\
     forall (X2 : matrix T) (w2 : Rng),
       (0 < n <= Z.of_nat (length X2))%Z ->
       let o2 := Msp.fit (Msp.fitted o) X2 w2 in
       Msp.batch_size (Msp.fitted o2) = Some n /\
       Msp.kept o2 =
         firstn (length X2 - Z.to_nat (Z.of_nat (length X2) mod n)) X2) /\
    ((exists b, Msp.batch_size est = Some b /\ (b <= n)%Z) ->
     Msp.fitted o = Msp.with_model est (Msp._model (Msp.fitted o))).
Proof.
  intros T SC K est X w n o. split.
  - intros Hbig.
    assert (Hadj : Msp.adjust est X =
                   Ok (Msp.with_batch_size est (Some n), X)).
    { pose proof (msp_adjust_cases est X) as Hc. cbv zeta in Hc.
      destruct Hbig as [Hb | (b & Hb & Hgt)]; rewrite Hb in Hc;
        [exact Hc|].
      fold n in Hc. replace (b >? n)%Z with true in Hc by (symmetry; lia).
      exact Hc. }
    destruct (msp_fit_adjusted est X w Hadj) as (Hfit & _ & Hbuilt & _).
    fold o in Hfit, Hbuilt.
    split; [exact Hfit|]. split; [exact Hbuilt|].
    intros X2 w2 Hn2 o2.
    assert (Hadj2 : Msp.adjust (Msp.fitted o) X2 =
              Ok (Msp.fitted o,
                  firstn (length X2 -
                          Z.to_nat (Z.of_nat (length X2) mod n)) X2)).
    { pose proof (msp_adjust_cases (Msp.fitted o) X2) as Hc.
      assert (Hbs : Msp.batch_size (Msp.fitted o) = Some n)
        by (rewrite Hfit; reflexivity).
      cbv zeta in Hc. rewrite Hbs in Hc.
      replace (n >? Z.of_nat (length X2))%Z with false in Hc
        by (symmetry; lia).
      replace (n =? 0)%Z with false in Hc by (symmetry; lia).
      rewrite Hc. f_equal. f_equal.
      destruct (Z.of_nat (length X2) mod n >? 0)%Z eqn:Hm; [reflexivity|].
      assert (Hz : (Z.of_nat (length X2) mod n = 0)%Z).
      { pose proof (Z.mod_pos_bound (Z.of_nat (length X2)) n). lia. }
      rewrite Hz. simpl. rewrite Nat.sub_0_r, firstn_all. reflexivity. }
    destruct (msp_fit_adjusted (Msp.fitted o) X2 w2 Hadj2)
      as (Hfit2 & _ & _ & Hkept2).
    fold o2 in Hfit2, Hkept2. split; [|exact Hkept2].
    rewrite Hfit2, Hfit. reflexivity.
  - intros (b & Hb & Hle).
    pose proof (msp_adjust_cases est X) as Hc. cbv zeta in Hc.
    rewrite Hb in Hc. fold n in Hc.
    replace (b >? n)%Z with false in Hc by (symmetry; lia).
    destruct (b =? 0)%Z.
    + unfold o. rewrite (msp_fit_raised est X w Hc). cbn.
      symmetry. apply msp_with_model_id.
    + destruct (msp_fit_adjusted est X w Hc) as (Hfit & _). exact Hfit.
Qed.

Section BatchSizeRuns.
#[local] Existing Instance binary64.
#[local] Existing Instance Sample.silent.

(** The default estimator, of batch size 500, fitted on four points. *)
Lemma fit_overwrites_batch_size_witness :
  (Msp.batch_size Msp.default = None \/
   exists b, Msp.batch_size Msp.default = Some b /\
             (b > Z.of_nat (length (Sample.line 4)))%Z) /\
  Msp.fitted (Msp.fit Msp.default (Sample.line 4) 0) =
    Msp.with_model
      (Msp.with_batch_size Msp.default
         (Some (Z.of_nat (length (Sample.line 4)))))
      (Msp._model (Msp.fitted (Msp.fit Msp.default (Sample.line 4) 0))) /\
  Msp.built (Msp.fit Msp.default (Sample.line 4) 0) =
    Some (compile_model (width (Sample.line 4))
            (Msp.n_components Msp.default)
            [Msp.nl1 Msp.default; Msp.nl2 Msp.default; Msp.nl3 Msp.default]
            (Msp.alpha Msp.default) (Z.of_nat (length (Sample.line 4)))) /\
  forall (X2 : matrix float) (w2 : Rng),
    (0 < Z.of_nat (length (Sample.line 4)) <= Z.of_nat (length X2))%Z ->
    Msp.batch_size
      (Msp.fitted
         (Msp.fit (Msp.fitted (Msp.fit Msp.default (Sample.line 4) 0))
            X2 w2)) = Some (Z.of_nat (length (Sample.line 4))) /\
    Msp.kept
      (Msp.fit (Msp.fitted (Msp.fit Msp.default (Sample.line 4) 0)) X2 w2) =
    firstn (length X2 -
            Z.to_nat (Z.of_nat (length X2) mod
                      Z.of_nat (length (Sample.line 4)))) X2.
Proof.
  assert (Hbig : Msp.batch_size Msp.default = None \/
                 exists b, Msp.batch_size Msp.default = Some b /\
                           (b > Z.of_nat (length (Sample.line 4)))%Z).
  { right. exists 500%Z. split; [reflexivity|]. simpl. lia. }
  split; [exact Hbig|].
  exact (proj1 (@fit_overwrites_batch_size float binary64 Sample.silent
                  Msp.default (Sample.line 4) 0) Hbig).
Defined.

End BatchSizeRuns.

(** ** Arrays in place *)

Section HeapFacts.
Context {T : Type}.

Lemma alloc_eq (h : heap T) (M : matrix T) :
  alloc h M = (length h, h ++ [M]).
Proof. reflexivity. Qed.

Lemma read_alloc_new (h : heap T) (M : matrix T) :
  read (h ++ [M]) (length h) = M.
Proof.
  unfold read. rewrite app_nth2, Nat.sub_diag by lia. reflexivity.
Qed.

Lemma read_alloc_old (h : heap T) (M : matrix T) (l : loc) :
  l < length h -> read (h ++ [M]) l = read h l.
Proof.
  intros Hl. unfold read. apply app_nth1. exact Hl.
Qed.

Lemma length_alloc (h : heap T) (M : matrix T) :
  length (h ++ [M]) = Datatypes.S (length h).
Proof.
  rewrite length_app. simpl. lia.
Qed.

Lemma length_write (h : heap T) (l : loc) (M : matrix T) :
  length (write h l M) = length h.
Proof.
  unfold write. destruct (Nat.ltb l (length h)) eqn:Hl; [|reflexivity].
  apply Nat.ltb_lt in Hl.
  rewrite length_app, length_firstn, length_cons, length_skipn. lia.
Qed.

Lemma read_write_same (h : heap T) (l : loc) (M : matrix T) :
  l < length h -> read (write h l M) l = M.
Proof.
  intros Hl. unfold read, write.
  apply Nat.ltb_lt in Hl as Hb. rewrite Hb.
  rewrite app_nth2 by (rewrite length_firstn; lia).
  rewrite length_firstn, Nat.min_l by lia. rewrite Nat.sub_diag. reflexivity.
Qed.

Lemma read_write_other (h : heap T) (l l' : loc) (M : matrix T) :
  l' <> l -> read (write h l M) l' = read h l'.
Proof.
  intros Hne. unfold read, write.
  destruct (Nat.ltb l (length h)) eqn:Hb; [|reflexivity].
  apply Nat.ltb_lt in Hb.
  destruct (Nat.lt_ge_cases l' l) as [Hlt | Hge].
  - rewrite app_nth1 by (rewrite length_firstn; lia).
    rewrite nth_firstn. apply Nat.ltb_lt in Hlt. rewrite Hlt. reflexivity.
  - rewrite app_nth2 by (rewrite length_firstn; lia).
    rewrite length_firstn, Nat.min_l by lia.
    destruct (l' - l) as [|k] eqn:Hk; [lia|].
    change (nth (Datatypes.S k) (M :: skipn (Datatypes.S l) h) [])
      with (nth k (skipn (Datatypes.S l) h) []).
    rewrite nth_skipn. f_equal. lia.
Qed.

End HeapFacts.

Section ExaggerationFacts.
Context {T : Type} {SC : Scalar T}.

(** What the early exaggeration leaves in the array it is applied to, and in
    every other array. *)
Lemma read_exaggerate_same (epoch ee : Z) (v : T) (h : heap T) (l : loc) :
  l < length h ->
  read (exaggerate epoch ee v h l) l =
  if (epoch <? ee)%Z then scale v (read h l) else read h l.
Proof.
  intros Hl. unfold exaggerate. destruct (epoch <? ee)%Z; [|reflexivity].
  apply read_write_same. exact Hl.
Qed.

Lemma read_exaggerate_other (epoch ee : Z) (v : T) (h : heap T)
    (l l' : loc) :
  l' <> l -> read (exaggerate epoch ee v h l) l' = read h l'.
Proof.
  intros Hne. unfold exaggerate. destruct (epoch <? ee)%Z; [|reflexivity].
  apply read_write_other. exact Hne.
Qed.

Lemma length_exaggerate (epoch ee : Z) (v : T) (h : heap T) (l : loc) :
  length (exaggerate epoch ee v h l) = length h.
Proof.
  unfold exaggerate. destruct (epoch <? ee)%Z; [|reflexivity].
  apply length_write.
Qed.

End ExaggerationFacts.

(** ** Early stopping *)

Section StopperFacts.
Context {T : Type} {SC : Scalar T}.
Variables (es_epochs : count) (min_improvement : T).

Lemma es_after_snoc (ls : list T) (loss : T) :
  es_after es_epochs min_improvement (ls ++ [loss]) =
  es_update es_epochs min_improvement
    (es_after es_epochs min_improvement ls) loss.
Proof.
  unfold es_after. rewrite fold_left_app. reflexivity.
Qed.

Lemma track_snoc (ls : list T) (loss : T) :
  track min_improvement (ls ++ [loss]) =
  track_step min_improvement (track min_improvement ls) loss.
Proof.
  unfold track. rewrite fold_left_app. reflexivity.
Qed.

(** One end of epoch. *)
Lemma es_update_step (es : stopper T) (loss : T) :
  let es' := es_update es_epochs min_improvement es loss in
  (improved min_improvement (es_loss es) loss = true ->
   es_loss es' = loss /\ es_patience es' = es_epochs) /\
  (improved min_improvement (es_loss es) loss = false ->
   es_loss es' = es_loss es /\
   es_patience es' = count_pred (es_patience es)) /\
  (es_stop es = false -> es_stop es' = count_is_zero (es_patience es')).
Proof.
  unfold es_update.
  destruct (improved min_improvement (es_loss es) loss); cbn;
    repeat split; try discriminate; auto;
    intros ->; match goal with |- context [count_is_zero ?c] =>
                 destruct (count_is_zero c) end; reflexivity.
Qed.

Lemma not_stopped_before_snoc (ls : list T) (loss : T) :
  not_stopped_before es_epochs min_improvement ls ->
  es_stop (es_after es_epochs min_improvement ls) = false ->
  not_stopped_before es_epochs min_improvement (ls ++ [loss]).
Proof.
  intros Hbefore Hnow k Hk. rewrite length_app in Hk. simpl in Hk.
  destruct (Nat.eq_dec k (length ls)) as [-> | Hne].
  - rewrite firstn_app, firstn_all, Nat.sub_diag. simpl.
    rewrite app_nil_r. exact Hnow.
  - rewrite firstn_app. replace (k - length ls) with 0 by lia. simpl.
    rewrite app_nil_r. apply Hbefore. lia.
Qed.

Lemma not_stopped_before_prefix (ls : list T) (k : nat) :
  not_stopped_before es_epochs min_improvement ls ->
  not_stopped_before es_epochs min_improvement (firstn k ls).
Proof.
  intros Hbefore j Hj. rewrite firstn_firstn.
  rewrite length_firstn in Hj.
  replace (Nat.min j k) with j by lia. apply Hbefore. lia.
Qed.

(** With a patience [p > 0], as long as the stop was not set before, the
    variables follow the running best and the number of stalled epochs, and
    the stop is set exactly when that number reaches [p]. *)
Lemma es_after_tracks (p : Z) (ls : list T) :
  es_epochs = Finite p -> (0 < p)%Z ->
  not_stopped_before es_epochs min_improvement ls ->
  es_loss (es_after es_epochs min_improvement ls) =
    running_best min_improvement ls /\
  es_patience (es_after es_epochs min_improvement ls) =
    Finite (p - Z.of_nat (stalled min_improvement ls)) /\
  (Z.of_nat (stalled min_improvement ls) <= p)%Z /\
  (es_stop (es_after es_epochs min_improvement ls) = true <->
   Z.of_nat (stalled min_improvement ls) = p).
Proof.
  intros Hp Hpos. induction ls as [|loss ls IH] using rev_ind; intros Hbefore.
  - unfold es_after, running_best, stalled, track, stopper_start. cbn.
    rewrite Hp. repeat split; try (f_equal; lia); try lia; try discriminate.
  - assert (Hnow : es_stop (es_after es_epochs min_improvement ls) = false).
    { specialize (Hbefore (length ls)). rewrite firstn_app, firstn_all,
        Nat.sub_diag in Hbefore. simpl in Hbefore.
      rewrite app_nil_r in Hbefore. apply Hbefore.
      rewrite length_app. simpl. lia. }
    assert (Hprefix : not_stopped_before es_epochs min_improvement ls).
    { intros k Hk. specialize (Hbefore k).
      rewrite firstn_app in Hbefore.
      replace (k - length ls) with 0 in Hbefore by lia. simpl in Hbefore.
      rewrite app_nil_r in Hbefore. apply Hbefore.
      rewrite length_app. simpl. lia. }
    destruct (IH Hprefix) as (Hbest & Hpat & Hle & Hstop).
    assert (Hlt : (Z.of_nat (stalled min_improvement ls) < p)%Z).
    { destruct (Z.eq_dec (Z.of_nat (stalled min_improvement ls)) p)
        as [Heq | Hne]; [|lia].
      apply Hstop in Heq. congruence. }
    rewrite es_after_snoc. unfold running_best, stalled in *.
    rewrite track_snoc. unfold track_step, es_update.
    rewrite Hbest, Hnow, Hpat.
    destruct (improved min_improvement
                (fst (track min_improvement ls)) loss); cbn.
    + rewrite Hp. cbn.
      destruct (p =? 0)%Z eqn:Hz; [apply Z.eqb_eq in Hz; lia|].
      repeat split; try (f_equal; lia); try lia; try discriminate.
    + destruct (p - Z.of_nat (snd (track min_improvement ls)) - 1 =? 0)%Z
        eqn:Hz.
      * apply Z.eqb_eq in Hz.
        repeat split; try (f_equal; lia); try lia.
      * apply Z.eqb_neq in Hz.
        repeat split; try (f_equal; lia); try lia; try discriminate.
Qed.

(** Without early stopping ([np.inf]) the stop is never set. *)
Lemma es_after_unbounded (ls : list T) :
  es_epochs = Unbounded ->
  es_patience (es_after es_epochs min_improvement ls) = Unbounded /\
  es_stop (es_after es_epochs min_improvement ls) = false.
Proof.
  intros Hp. induction ls as [|loss ls IH] using rev_ind.
  - unfold es_after, stopper_start. cbn. rewrite Hp. auto.
  - destruct IH as [Hpat Hstop]. rewrite es_after_snoc. unfold es_update.
    rewrite Hpat, Hstop, Hp.
    destruct (improved _ _ _); cbn; auto.
Qed.

End StopperFacts.

(** ** The training loop of the msp variant *)

Section MspLoop.
Context {T : Type} {SC : Scalar T} {K : Keras T}.
Variables (est : Msp.estimator T) (X : matrix T) (b : Z) (P : loc).

Lemma msp_batches_fold (nt : Net) (w : Rng) (_P : matrix T) (bn : nat)
    (l : list nat) (loss : T) (c : Z) :
  snd (fold_left
         (fun (acc : Net * Rng * T * Z) i =>
            let '(nt, w, loss, n_batches) := acc in
            let X_batch := slice i bn X in
            let _P_batch := slice i bn _P in
            let '(w', p_idxs) := permutation w bn in
            let X_batch := take_indices [] p_idxs X_batch in
            let _P_batch := take_indices [] p_idxs _P_batch in
            let _P_batch := map (take_indices rzero p_idxs) _P_batch in
            let '(nt', l) := train_on_batch nt X_batch _P_batch in
            (nt', w', radd loss l, (n_batches + 1)%Z))
         l (nt, w, loss, c)) = (c + Z.of_nat (length l))%Z.
Proof.
  revert nt w loss c. induction l as [|i l IH]; intros nt w loss c.
  - simpl. lia.
  - cbn [fold_left]. destruct (permutation w bn) as [w' p_idxs].
    destruct (train_on_batch nt _ _) as [nt' l0].
    rewrite IH. cbn [length]. lia.
Qed.

(** The batches of an epoch are those of [range]. *)
Lemma msp_batches_count (nt : Net) (w : Rng) (_P : matrix T) (n bn : nat) :
  snd (Msp.train_batches nt w X _P n bn) = Z.of_nat (length (range_step n bn)).
Proof.
  unfold Msp.train_batches. rewrite msp_batches_fold. lia.
Qed.

(** An epoch that reaches its end. *)
Lemma msp_epoch_next (s s' : Msp.train_state T) :
  Msp.epoch_body est X b P s = Next s' ->
  exists loss,
    Msp.epoch s' = (Msp.epoch s + 1)%Z /\
    Msp.es s' = es_update (Msp.early_stopping_epochs est)
                  (Msp.early_stopping_min_improvement est) (Msp.es s) loss /\
    Msp.history s' = Msp.history s ++ [loss] /\
    Msp.trained s' = Msp.trained s ++
      [{| seen_epoch := Msp.epoch s; seen_X := X;
          seen_P := if (Msp.epoch s <? Msp.early_exaggeration_epochs est)%Z
                    then scale (Msp.early_exaggeration_value est)
                           (read (Msp.mem s) P)
                    else read (Msp.mem s) P |}] /\
    (P < length (Msp.mem s) ->
     read (Msp.mem s') P = read (Msp.mem s) P /\
     P < length (Msp.mem s')).
Proof.
  unfold Msp.epoch_body. rewrite alloc_eq. intros Hb.
  destruct (b =? 0)%Z; [discriminate|].
  destruct (Msp.train_batches _ _ _ _ _ _) as [[[net' rng'] loss] nb].
  destruct (nb =? 0)%Z; [discriminate|].
  injection Hb as <-.
  cbn [Msp.epoch Msp.es Msp.history Msp.trained Msp.mem].
  exists (sdiv loss (of_int nb)).
  assert (Hnew : length (Msp.mem s) < length (Msp.mem s ++ [read (Msp.mem s) P]))
    by (rewrite length_alloc; lia).
  split; [reflexivity|]. split; [reflexivity|]. split; [reflexivity|].
  split.
  - rewrite read_exaggerate_same by exact Hnew.
    rewrite read_alloc_new. reflexivity.
  - intros HP. split.
    + rewrite read_exaggerate_other by lia. apply read_alloc_old. exact HP.
    + rewrite length_exaggerate. lia.
Qed.

Lemma msp_epoch_no_break (s s' : Msp.train_state T) :
  Msp.epoch_body est X b P s <> Break s'.
Proof.
  unfold Msp.epoch_body. rewrite alloc_eq.
  destruct (b =? 0)%Z; [discriminate|].
  destruct (Msp.train_batches _ _ _ _ _ _) as [[[net' rng'] loss] nb].
  destruct (nb =? 0)%Z; discriminate.
Qed.

(** With a batch size that is not [0] and at least one batch, no epoch
    raises. *)
Lemma msp_epoch_no_throw (s s' : Msp.train_state T) (e : exn) :
  b <> 0%Z -> range_step (length X) (Z.to_nat b) <> [] ->
  Msp.epoch_body est X b P s <> Throw e s'.
Proof.
  intros Hb Hbatches. unfold Msp.epoch_body. rewrite alloc_eq.
  apply Z.eqb_neq in Hb. rewrite Hb.
  pose proof (msp_batches_count (Msp.net s) (Msp.rng s)
                (read (exaggerate (Msp.epoch s)
                         (Msp.early_exaggeration_epochs est)
                         (Msp.early_exaggeration_value est)
                         (Msp.mem s ++ [read (Msp.mem s) P])
                         (length (Msp.mem s))) (length (Msp.mem s)))
                (length X) (Z.to_nat b)) as Hcount.
  destruct (Msp.train_batches _ _ _ _ _ _) as [[[net' rng'] loss] nb].
  cbn [snd] in Hcount.
  destruct (nb =? 0)%Z eqn:Hz; [|discriminate].
  apply Z.eqb_eq in Hz. exfalso.
  destruct (range_step (length X) (Z.to_nat b)); [congruence|].
  simpl in Hcount. lia.
Qed.

Lemma msp_fit_cond_left (s : Msp.train_state T) :
  Msp.fit_cond est s = true ->
  0 < epochs_left (Msp.n_iter est) (Msp.epoch s) /\
  es_stop (Msp.es s) = false.
Proof.
  unfold Msp.fit_cond, epochs_left. intros Hc.
  apply andb_prop in Hc as [Hlt Hstop]. apply Z.ltb_lt in Hlt.
  apply negb_true_iff in Hstop. split; [lia | exact Hstop].
Qed.

End MspLoop.

(** ** What the loops of [fit] keep *)

Section FitInvariants.
Context {T : Type} {SC : Scalar T}.
Variables (es_epochs : count) (min_improvement : T).

Lemma es_follows_start :
  es_follows es_epochs min_improvement 0 (stopper_start es_epochs) [].
Proof.
  repeat split. intros k Hk. simpl in Hk. lia.
Qed.

Lemma es_follows_step (epoch : Z) (es : stopper T) (history : list T)
    (loss : T) :
  es_follows es_epochs min_improvement epoch es history ->
  es_stop es = false ->
  es_follows es_epochs min_improvement (epoch + 1)
    (es_update es_epochs min_improvement es loss) (history ++ [loss]).
Proof.
  intros (He & Hes & Hbefore) Hstop. split; [|split].
  - rewrite length_app. simpl. lia.
  - rewrite es_after_snoc, <- Hes. reflexivity.
  - apply not_stopped_before_snoc; [exact Hbefore|].
    rewrite <- Hes. exact Hstop.
Qed.

Lemma trained_on_nil (calc : matrix T -> result (matrix T)) (ee : Z)
    (v : T) : trained_on calc ee v [].
Proof.
  intros k e Hk. destruct k; discriminate.
Qed.

Lemma trained_on_snoc (calc : matrix T -> result (matrix T)) (ee : Z)
    (v : T) (log : list (seen T)) (Xk P0 : matrix T) :
  trained_on calc ee v log ->
  calc Xk = Ok P0 ->
  trained_on calc ee v
    (log ++ [{| seen_epoch := Z.of_nat (length log); seen_X := Xk;
                seen_P := exaggerated ee v P0 (length log) |}]).
Proof.
  intros Hlog Hcalc k e Hk.
  destruct (Nat.lt_ge_cases k (length log)) as [Hlt | Hge].
  - rewrite nth_error_app1 in Hk by exact Hlt. apply Hlog. exact Hk.
  - rewrite nth_error_app2 in Hk by exact Hge.
    destruct (k - length log) as [|j] eqn:Hj.
    + injection Hk as <-. assert (k = length log) by lia. subst k.
      cbn. split; [reflexivity|]. exists P0. auto.
    + destruct j; discriminate.
Qed.

End FitInvariants.

Section MspRuns.
Context {T : Type} {SC : Scalar T} {K : Keras T}.
Variables (est : Msp.estimator T) (X1 : matrix T) (b : Z) (P0 : matrix T).

Lemma msp_start_kept (model : Net) (w : Rng) :
  msp_kept est X1 P0 (msp_start est model w P0).
Proof.
  unfold msp_kept, msp_start. cbn.
  split; [apply es_follows_start|]. split; [reflexivity|].
  split; [lia|]. split; [reflexivity|].
  split; [apply trained_on_nil | constructor].
Qed.

Lemma msp_body_kept (s s' : Msp.train_state T) :
  msp_kept est X1 P0 s ->
  Msp.fit_cond est s = true ->
  Msp.epoch_body est X1 b 0 s = Next s' ->
  msp_kept est X1 P0 s'.
Proof.
  intros (Hes & Hlen & Hmem & Hread & Hlog & HX) Hc Hb.
  apply msp_fit_cond_left in Hc as [_ Hstop].
  apply msp_epoch_next in Hb
    as (loss & Hepoch & Hes' & Hhist & Htr & Hheap).
  destruct (Hheap Hmem) as [Hread' Hmem'].
  unfold msp_kept. rewrite Hepoch, Hes', Hhist, Htr, Hread', Hread.
  split; [apply es_follows_step; assumption|].
  split; [rewrite !length_app, Hlen; reflexivity|].
  split; [exact Hmem'|]. split; [reflexivity|].
  destruct Hes as (He & _).
  assert (Hk : Msp.epoch s = Z.of_nat (length (Msp.trained s)))
    by (rewrite Hlen; exact He).
  rewrite Hk. split.
  - apply (trained_on_snoc (calc := fun _ => Ok P0)); [exact Hlog|].
    reflexivity.
  - apply Forall_app. split; [exact HX|]. constructor; [reflexivity|].
    constructor.
Qed.

Lemma msp_visits_kept (model : Net) (w : Rng) (s : Msp.train_state T) :
  visits (Msp.fit_cond est) (Msp.epoch_body est X1 b 0)
    (msp_start est model w P0) s ->
  msp_kept est X1 P0 s.
Proof.
  revert s. apply visits_invariant with (I := msp_kept est X1 P0).
  - apply msp_start_kept.
  - intros s s' Hs Hc Hb. eapply msp_body_kept; eauto.
Qed.

Lemma msp_epochs_decrease (s s' : Msp.train_state T) :
  Msp.fit_cond est s = true ->
  Msp.epoch_body est X1 b 0 s = Next s' ->
  epochs_left (Msp.n_iter est) (Msp.epoch s') <
  epochs_left (Msp.n_iter est) (Msp.epoch s).
Proof.
  intros Hc Hb. apply msp_fit_cond_left in Hc as [Hleft _].
  apply msp_epoch_next in Hb as (loss & Hepoch & _).
  unfold epochs_left in *. rewrite Hepoch. lia.
Qed.

(** The loop of the msp variant ends within [n_iter] epochs. *)
Lemma msp_loop_ends (model : Net) (w : Rng) :
  fst (while_loop (Msp.fit_cond est) (Msp.epoch_body est X1 b 0)
         (Z.to_nat (Msp.n_iter est)) (msp_start est model w P0))
  <> OutOfFuel.
Proof.
  apply while_loop_terminates
    with (mu := fun s => epochs_left (Msp.n_iter est) (Msp.epoch s)).
  - intros s Hc. apply msp_fit_cond_left in Hc as [Hleft _]. exact Hleft.
  - apply msp_epochs_decrease.
  - unfold epochs_left, msp_start. cbn. lia.
Qed.

End MspRuns.

Section StopVerdict.
Context {T : Type} {SC : Scalar T}.
Variables (es_epochs : count) (min_improvement : T).

(** What the variables say when the loop of [fit] has ended by its
    condition, for a patience [p > 0]. *)
Lemma stop_verdict (p n_iter epoch : Z) (es : stopper T) (h : list T) :
  es_epochs = Finite p -> (0 < p)%Z ->
  es_follows es_epochs min_improvement epoch es h ->
  (0 <= epoch <= Z.max 0 n_iter)%Z ->
  (epoch <? n_iter)%Z && negb (es_stop es) = false ->
  epoch = Z.of_nat (length h) /\
  es_loss es = running_best min_improvement h /\
  (es_stop es = true <-> Z.of_nat (stalled min_improvement h) = p) /\
  (forall k, k < length h ->
     (Z.of_nat (stalled min_improvement (firstn k h)) < p)%Z) /\
  (es_stop es = false -> epoch = Z.max 0 n_iter).
Proof.
  intros Hp Hpos (He & Hes & Hbefore) Hrange Hc.
  destruct (es_after_tracks Hp Hpos Hbefore)
    as (Hbest & _ & _ & Hstop).
  rewrite <- Hes in Hbest, Hstop.
  split; [exact He|]. split; [exact Hbest|]. split; [exact Hstop|]. split.
  - intros k Hk.
    pose proof (not_stopped_before_prefix k Hbefore) as Hpre.
    destruct (es_after_tracks Hp Hpos Hpre)
      as (_ & _ & Hle & Hstopk).
    specialize (Hbefore k Hk).
    destruct (Z.eq_dec
                (Z.of_nat (stalled min_improvement (firstn k h))) p)
      as [Heq | Hne]; [|lia].
    apply Hstopk in Heq. congruence.
  - intros Hfalse. rewrite Hfalse in Hc. cbn in Hc.
    rewrite andb_true_r in Hc. apply Z.ltb_ge in Hc. lia.
Qed.

(** The same without early stopping. *)
Lemma stop_never (n_iter epoch : Z) (es : stopper T) (h : list T) :
  es_epochs = Unbounded ->
  es_follows es_epochs min_improvement epoch es h ->
  (0 <= epoch <= Z.max 0 n_iter)%Z ->
  es_stop es = false /\
  ((epoch <? n_iter)%Z && negb (es_stop es) = false ->
   epoch = Z.max 0 n_iter).
Proof.
  intros Hp (He & Hes & _) Hrange.
  destruct (es_after_unbounded min_improvement h Hp) as [_ Hstop].
  rewrite <- Hes in Hstop. split; [exact Hstop|].
  rewrite Hstop. cbn. rewrite andb_true_r. intros Hc.
  apply Z.ltb_ge in Hc. lia.
Qed.

End StopVerdict.

Section MspFit.
Context {T : Type} {SC : Scalar T} {K : Keras T}.

Lemma msp_adjust_config (est est1 : Msp.estimator T) (X X1 : matrix T) :
  Msp.adjust est X = Ok (est1, X1) ->
  exists bs, est1 = Msp.with_batch_size est bs.
Proof.
  pose proof (msp_adjust_cases est X) as Hc. cbv zeta in Hc.
  intros Hadj. destruct (Msp.batch_size est) as [b0|] eqn:Hb.
  - destruct (b0 >? Z.of_nat (length X))%Z.
    + rewrite Hc in Hadj. injection Hadj as <- _. eauto.
    + destruct (b0 =? 0)%Z; rewrite Hc in Hadj; [discriminate|].
      injection Hadj as <- _. exists (Some b0). rewrite <- Hb.
      destruct est. reflexivity.
  - rewrite Hc in Hadj. injection Hadj as <- _. eauto.
Qed.

(** A call of [fit] that reaches its loop. *)
Lemma msp_fit_loop (est est1 : Msp.estimator T) (X X1 P0 : matrix T)
    (w : Rng) :
  Msp.adjust est X = Ok (est1, X1) ->
  let model := Msp._build_model est1 (width X1) (Msp.n_components est1) in
  let est2 := Msp.with_model est1 (Some model) in
  Msp._calculate_P est2 X1 = Ok P0 ->
  let b := match Msp.batch_size est2 with Some b => b | None => 0%Z end in
  let r := while_loop (Msp.fit_cond est2) (Msp.epoch_body est2 X1 b 0)
             (Z.to_nat (Msp.n_iter est2)) (msp_start est2 model w P0) in
  Msp.fit est X w =
  {| Msp.fitted := Msp.with_model est2 (Some (Msp.net (snd r)));
     Msp.world := Msp.rng (snd r); Msp.ended := fst r; Msp.kept := X1;
     Msp.built := Some model; Msp.final := Some (snd r) |}.
Proof.
  intros Hadj model est2 Hcalc b r. unfold Msp.fit. rewrite Hadj.
  fold model. fold est2. rewrite Hcalc. rewrite alloc_eq.
  change (while_loop (Msp.fit_cond est2)
            (Msp.epoch_body est2 X1
               match Msp.batch_size est2 with
               | Some b0 => b0
               | None => 0%Z
               end (length (@nil (matrix T))))
            (Z.to_nat (Msp.n_iter est2))
            {| Msp.epoch := 0;
               Msp.es := stopper_start (Msp.early_stopping_epochs est2);
               Msp.net := model; Msp.rng := w; Msp.mem := [] ++ [P0];
               Msp.trained := []; Msp.history := [] |}) with r.
  destruct r as [ex s]. reflexivity.
Qed.

(** The loop of [fit] was reached: the call is one of [msp_fit_loop]. *)
Lemma msp_fit_reached (est : Msp.estimator T) (X : matrix T) (w : Rng)
    (s : Msp.train_state T) :
  Msp.final (Msp.fit est X w) = Some s ->
  exists bs X1 P0 model,
    let est2 := Msp.with_model (Msp.with_batch_size est bs) (Some model) in
    let b := match bs with Some b => b | None => 0%Z end in
    Msp.adjust est X = Ok (Msp.with_batch_size est bs, X1) /\
    Msp._calculate_P est2 X1 = Ok P0 /\
    Msp.kept (Msp.fit est X w) = X1 /\
    Msp.fitted (Msp.fit est X w) =
      Msp.with_model est2 (Some (Msp.net s)) /\
    Msp.ended (Msp.fit est X w) =
      fst (while_loop (Msp.fit_cond est2) (Msp.epoch_body est2 X1 b 0)
             (Z.to_nat (Msp.n_iter est)) (msp_start est2 model w P0)) /\
    s = snd (while_loop (Msp.fit_cond est2) (Msp.epoch_body est2 X1 b 0)
               (Z.to_nat (Msp.n_iter est)) (msp_start est2 model w P0)).
Proof.
  intros Hfinal.
  destruct (Msp.adjust est X) as [[est1 X1]|e] eqn:Hadj.
  - destruct (msp_adjust_config est X Hadj) as [bs ->].
    destruct (Msp._calculate_P
                (Msp.with_model (Msp.with_batch_size est bs)
                   (Some (Msp._build_model (Msp.with_batch_size est bs)
                            (width X1)
                            (Msp.n_components (Msp.with_batch_size est bs)))))
                X1) as [P0|e] eqn:Hcalc.
    + pose proof (msp_fit_loop est X w Hadj Hcalc) as Hfit.
      cbv zeta in Hfit. rewrite Hfit in Hfinal |- *.
      cbn [Msp.final Msp.kept Msp.ended Msp.fitted] in *.
      injection Hfinal as <-.
      exists bs, X1, P0,
        (Msp._build_model (Msp.with_batch_size est bs) (width X1)
           (Msp.n_components (Msp.with_batch_size est bs))).
      cbv zeta. repeat split; auto.
    + unfold Msp.fit in Hfinal. rewrite Hadj in Hfinal.
      cbv zeta in Hfinal. rewrite Hcalc in Hfinal. discriminate.
  - rewrite (msp_fit_raised est X w Hadj) in Hfinal. discriminate.
Qed.

End MspFit.

Lemma range_step_nonempty (n b : nat) :
  0 < n -> 0 < b -> range_step n b <> [].
Proof.
  intros Hn Hb. unfold range_step.
  assert (Hq : 0 < (n + b - 1) / b) by (apply Nat.div_str_pos; lia).
  destruct ((n + b - 1) / b) as [|q]; [lia|]. discriminate.
Qed.

Lemma range_step_multiple (k b : nat) :
  0 < b -> range_step (k * b) b = map (fun j => j * b) (seq 0 k).
Proof.
  intros Hb. unfold range_step. f_equal. f_equal.
  replace (k * b + b - 1) with (b - 1 + k * b) by lia.
  rewrite Nat.div_add by lia. rewrite Nat.div_small by lia. reflexivity.
Qed.

Section MspNormalEnd.
Context {T : Type} {SC : Scalar T} {K : Keras T}.

Lemma msp_visits_epoch (est : Msp.estimator T) (X1 P0 : matrix T) (b : Z)
    (model : Net) (w : Rng) (s : Msp.train_state T) :
  visits (Msp.fit_cond est) (Msp.epoch_body est X1 b 0)
    (msp_start est model w P0) s ->
  (0 <= Msp.epoch s <= Z.max 0 (Msp.n_iter est))%Z.
Proof.
  revert s.
  apply visits_invariant
    with (I := fun s => (0 <= Msp.epoch s <= Z.max 0 (Msp.n_iter est))%Z).
  - cbn. lia.
  - intros s s' Hs Hc Hb.
    apply msp_fit_cond_left in Hc as [Hleft _]. unfold epochs_left in Hleft.
    apply msp_epoch_next in Hb as (loss & Hepoch & _). rewrite Hepoch. lia.
Qed.

(** [_calculate_P] returns only for a positive batch size. *)
Lemma msp_calculate_P_batch (est : Msp.estimator T) (X P0 : matrix T) :
  Msp._calculate_P est X = Ok P0 ->
  exists b, Msp.batch_size est = Some b /\ (0 < b)%Z.
Proof.
  unfold Msp._calculate_P. destruct (Msp.batch_size est) as [b|];
    [|discriminate].
  destruct (b <? 0)%Z eqn:Hneg; [discriminate|].
  destruct (b =? 0)%Z eqn:Hz; [discriminate|].
  intros _. exists b. split; [reflexivity|].
  apply Z.ltb_ge in Hneg. apply Z.eqb_neq in Hz. lia.
Qed.

(** The rows [fit] keeps are not empty when its batch size, adjusted, is
    positive. *)
Lemma msp_adjust_rows (est : Msp.estimator T) (X X1 : matrix T) (bs : option Z)
    (b : Z) :
  Msp.adjust est X = Ok (Msp.with_batch_size est bs, X1) ->
  bs = Some b -> (0 < b)%Z ->
  0 < length X1 /\ (b <= Z.of_nat (length X))%Z /\
  (Z.of_nat (length X1) mod b = 0)%Z.
Proof.
  pose proof (msp_adjust_cases est X) as Hc. cbv zeta in Hc.
  intros Hadj -> Hb.
  assert (Hsame : forall e1 e2 : Msp.estimator T, forall Y1 Y2 : matrix T,
            Ok (e1, Y1) = Ok (e2, Y2) ->
            Msp.batch_size e1 = Msp.batch_size e2 /\ Y1 = Y2)
    by (intros e1 e2 Y1 Y2 H; injection H as -> ->; auto).
  destruct (Msp.batch_size est) as [b0|] eqn:Hb0.
  - destruct (b0 >? Z.of_nat (length X))%Z eqn:Hgt.
    + rewrite Hc in Hadj. apply Hsame in Hadj as [Hbs <-].
      cbn in Hbs. injection Hbs as Hbs. rewrite <- Hbs.
      split; [lia|]. split; [lia|]. apply Z.mod_same. lia.
    + destruct (b0 =? 0)%Z eqn:Hz; rewrite Hc in Hadj; [discriminate|].
      apply Hsame in Hadj as [Hbs <-]. cbn in Hbs. rewrite Hb0 in Hbs.
      injection Hbs as ->.
      assert (Hle : (b <= Z.of_nat (length X))%Z) by lia.
      pose proof (Z.mod_pos_bound (Z.of_nat (length X)) b Hb) as Hm.
      destruct (Z.of_nat (length X) mod b >? 0)%Z eqn:Hpos.
      * rewrite length_firstn, Nat.min_l by lia.
        split; [lia|]. split; [lia|].
        rewrite Nat2Z.inj_sub, Z2Nat.id by lia.
        rewrite Zminus_mod, Z.mod_mod, Z.sub_diag by lia. apply Z.mod_0_l.
        lia.
      * split; [lia|]. split; [lia|]. lia.
  - rewrite Hc in Hadj. apply Hsame in Hadj as [Hbs <-].
    cbn in Hbs. injection Hbs as Hbs. rewrite <- Hbs.
    split; [lia|]. split; [lia|]. apply Z.mod_same. lia.
Qed.

End MspNormalEnd.

Section MspVerdicts.
Context {T : Type} {SC : Scalar T} {K : Keras T}.

(** Once the msp variant of [fit] reaches its loop, the loop ends by its
    condition: no epoch raises and [n_iter] passes suffice; and its last
    state is one the loop visits. *)
Lemma msp_fit_normal_end (est : Msp.estimator T) (X : matrix T) (w : Rng)
    (s : Msp.train_state T) :
  Msp.final (Msp.fit est X w) = Some s ->
  Msp.ended (Msp.fit est X w) = ByCond /\
  exists bs P0 model,
    let est2 := Msp.with_model (Msp.with_batch_size est bs) (Some model) in
    Msp._calculate_P est2 (Msp.kept (Msp.fit est X w)) = Ok P0 /\
    Msp.fitted (Msp.fit est X w) =
      Msp.with_model est2 (Some (Msp.net s)) /\
    msp_kept est2 (Msp.kept (Msp.fit est X w)) P0 s /\
    (0 <= Msp.epoch s <= Z.max 0 (Msp.n_iter est))%Z /\
    Msp.fit_cond est2 s = false.
Proof.
  intros Hfinal.
  destruct (msp_fit_reached est X w Hfinal)
    as (bs & X1 & P0 & model & Hadj & Hcalc & Hkept & Hfitted & Hended
        & Hs).
  cbv zeta in *. rewrite Hkept, Hended, Hfitted.
  set (est2 := Msp.with_model (Msp.with_batch_size est bs) (Some model)) in *.
  destruct (msp_calculate_P_batch est2 X1 Hcalc) as (b & Hbs & Hb).
  cbn in Hbs. subst bs.
  destruct (msp_adjust_rows X Hadj eq_refl Hb) as (Hrows & _).
  pose proof (while_loop_end (Msp.fit_cond est2)
                (Msp.epoch_body est2 X1 b 0) (Z.to_nat (Msp.n_iter est))
                (msp_start est2 model w P0)) as Hend.
  pose proof (msp_loop_ends est2 X1 b P0 model w) as Hfuel.
  change (Msp.n_iter est2) with (Msp.n_iter est) in Hfuel.
  cbv zeta in Hend. rewrite <- Hs in Hend.
  destruct (fst (while_loop _ _ _ _)) eqn:Hexit.
  - destruct Hend as [Hv Hc]. split; [reflexivity|].
    exists (Some b), P0, model. cbv zeta. fold est2.
    split; [exact Hcalc|]. split; [reflexivity|].
    split; [eapply msp_visits_kept; exact Hv|].
    split; [|exact Hc].
    exact (msp_visits_epoch Hv).
  - destruct Hend as (s0 & _ & _ & Hb0). exfalso.
    eapply msp_epoch_no_break. exact Hb0.
  - destruct Hend as (s0 & _ & _ & Hb0). exfalso.
    eapply msp_epoch_no_throw; [| |exact Hb0]; [lia|].
    apply range_step_nonempty; lia.
  - congruence.
Qed.

End MspVerdicts.

(** ** What the epochs of the msp variant train on *)

Section MspTrains.
Context {T : Type} {SC : Scalar T} {K : Keras T}.
Variables (est : Msp.estimator T) (X : matrix T) (b : Z) (P : loc).

(** What an epoch of the msp variant hands to its batches: the copy of the
    array at [P], exaggerated in the first epochs. *)
Lemma msp_epoch_trains (s s' : Msp.train_state T) :
  Msp.epoch_body est X b P s = Next s' ->
  exists loss n_batches,
    Msp.train_batches (Msp.net s) (Msp.rng s) X
      (if (Msp.epoch s <? Msp.early_exaggeration_epochs est)%Z
       then scale (Msp.early_exaggeration_value est) (read (Msp.mem s) P)
       else read (Msp.mem s) P)
      (length X) (Z.to_nat b) = (Msp.net s', Msp.rng s', loss, n_batches) /\
    Msp.history s' = Msp.history s ++ [sdiv loss (of_int n_batches)].
Proof.
  unfold Msp.epoch_body. rewrite alloc_eq.
  assert (Hnew : length (Msp.mem s) < length (Msp.mem s ++ [read (Msp.mem s) P]))
    by (rewrite length_alloc; lia).
  rewrite read_exaggerate_same by exact Hnew.
  rewrite read_alloc_new.
  destruct (b =? 0)%Z; [discriminate|].
  destruct (Msp.train_batches _ _ _ _ _ _) as [[[net' rng'] loss] nb]
    eqn:Htr.
  destruct (nb =? 0)%Z; [discriminate|].
  intros Hb. injection Hb as <-.
  cbn [Msp.net Msp.rng Msp.history]. exists loss, nb.
  split; reflexivity.
Qed.

End MspTrains.

Section MspReplay.
Context {T : Type} {SC : Scalar T} {K : Keras T}.
Variables (est : Msp.estimator T) (X1 : matrix T) (b : Z) (P0 : matrix T).

(** The loop of the msp variant is, epoch by epoch, the training on the
    exaggerated copies of [P0]. *)
Lemma msp_visits_replay (model : Net) (w : Rng) (s : Msp.train_state T) :
  visits (Msp.fit_cond est) (Msp.epoch_body est X1 b 0)
    (msp_start est model w P0) s ->
  (Msp.net s, Msp.rng s, Msp.history s) =
  msp_epochs (Msp.early_exaggeration_epochs est)
    (Msp.early_exaggeration_value est) X1 b P0 model w
    (Z.to_nat (Msp.epoch s)).
Proof.
  intros Hv.
  assert (H : msp_kept est X1 P0 s /\
              (Msp.net s, Msp.rng s, Msp.history s) =
              msp_epochs (Msp.early_exaggeration_epochs est)
                (Msp.early_exaggeration_value est) X1 b P0 model w
                (Z.to_nat (Msp.epoch s))); [|apply H].
  revert s Hv.
  apply visits_invariant
    with (I := fun s =>
                 msp_kept est X1 P0 s /\
                 (Msp.net s, Msp.rng s, Msp.history s) =
                 msp_epochs (Msp.early_exaggeration_epochs est)
                   (Msp.early_exaggeration_value est) X1 b P0 model w
                   (Z.to_nat (Msp.epoch s))).
  - split; [apply msp_start_kept|]. reflexivity.
  - intros s s' [Hkept Hrep] Hc Hb.
    split; [eapply msp_body_kept; eauto|].
    pose proof Hkept as ((He & _) & _ & _ & Hread & _).
    destruct (msp_epoch_trains _ _ _ _ _ Hb) as (loss & nb & Htr & Hhist).
    apply msp_epoch_next in Hb as (_ & Hepoch & _).
    rewrite Hepoch.
    replace (Z.to_nat (Msp.epoch s + 1))
      with (Datatypes.S (Z.to_nat (Msp.epoch s))) by lia.
    cbn [msp_epochs]. rewrite <- Hrep.
    unfold exaggerated. rewrite Z2Nat.id by lia.
    rewrite Hread in Htr. rewrite Htr, Hhist. reflexivity.
Qed.

End MspReplay.

Section MspFitVisits.
Context {T : Type} {SC : Scalar T} {K : Keras T}.

(** The last state of a [fit] that reached its loop is one the loop
    visits, from the network [_build_model] compiled. *)
Lemma msp_fit_visits (est : Msp.estimator T) (X : matrix T) (w : Rng)
    (s : Msp.train_state T) :
  Msp.final (Msp.fit est X w) = Some s ->
  exists bs P0 model,
    let est2 := Msp.with_model (Msp.with_batch_size est bs) (Some model) in
    let b := match bs with Some b => b | None => 0%Z end in
    Msp._calculate_P est2 (Msp.kept (Msp.fit est X w)) = Ok P0 /\
    Msp.built (Msp.fit est X w) = Some model /\
    Msp.fitted (Msp.fit est X w) =
      Msp.with_model est2 (Some (Msp.net s)) /\
    visits (Msp.fit_cond est2)
      (Msp.epoch_body est2 (Msp.kept (Msp.fit est X w)) b 0)
      (msp_start est2 model w P0) s.
Proof.
  intros Hfinal.
  destruct (msp_fit_normal_end est X w Hfinal) as (Hended & _).
  destruct (Msp.adjust est X) as [[est1 X1]|e] eqn:Hadj.
  - destruct (msp_adjust_config est X Hadj) as [bs ->].
    destruct (Msp._calculate_P
                (Msp.with_model (Msp.with_batch_size est bs)
                   (Some (Msp._build_model (Msp.with_batch_size est bs)
                            (width X1)
                            (Msp.n_components (Msp.with_batch_size est bs)))))
                X1) as [P0|e] eqn:Hcalc.
    + pose proof (msp_fit_loop est X w Hadj Hcalc) as Hfit.
      cbv zeta in Hfit. rewrite Hfit in Hfinal, Hended |- *.
      cbn [Msp.final Msp.kept Msp.ended Msp.fitted Msp.built] in *.
      injection Hfinal as <-.
      exists bs, P0,
        (Msp._build_model (Msp.with_batch_size est bs) (width X1)
           (Msp.n_components (Msp.with_batch_size est bs))).
      cbv zeta. split; [exact Hcalc|]. split; [reflexivity|].
      split; [reflexivity|].
      pose proof (while_loop_end
                    (Msp.fit_cond
                       (Msp.with_model (Msp.with_batch_size est bs)
                          (Some (Msp._build_model
                                   (Msp.with_batch_size est bs) (width X1)
                                   (Msp.n_components
                                      (Msp.with_batch_size est bs))))))
                    (Msp.epoch_body
                       (Msp.with_model (Msp.with_batch_size est bs)
                          (Some (Msp._build_model
                                   (Msp.with_batch_size est bs) (width X1)
                                   (Msp.n_components
                                      (Msp.with_batch_size est bs)))))
                       X1 match bs with Some b0 => b0 | None => 0%Z end 0)
                    (Z.to_nat (Msp.n_iter est))
                    (msp_start
                       (Msp.with_model (Msp.with_batch_size est bs)
                          (Some (Msp._build_model
                                   (Msp.with_batch_size est bs) (width X1)
                                   (Msp.n_components
                                      (Msp.with_batch_size est bs)))))
                       (Msp._build_model (Msp.with_batch_size est bs)
                          (width X1)
                          (Msp.n_components (Msp.with_batch_size est bs)))
                       w P0)) as Hend.
      cbv zeta in Hend.
      change (Msp.n_iter
                (Msp.with_model (Msp.with_batch_size est bs)
                   (Some (Msp._build_model (Msp.with_batch_size est bs)
                            (width X1)
                            (Msp.n_components
                               (Msp.with_batch_size est bs))))))
        with (Msp.n_iter est) in Hended.
      change (Msp.batch_size
                (Msp.with_model (Msp.with_batch_size est bs)
                   (Some (Msp._build_model (Msp.with_batch_size est bs)
                            (width X1)
                            (Msp.n_components
                               (Msp.with_batch_size est bs))))))
        with bs in Hended.
      rewrite Hended in Hend. apply Hend.
    + unfold Msp.fit in Hfinal. rewrite Hadj in Hfinal.
      cbv zeta in Hfinal. rewrite Hcalc in Hfinal. discriminate.
  - rewrite (msp_fit_raised est X w Hadj) in Hfinal. discriminate.
Qed.

End MspFitVisits.

(** ** [calculate_P], block by block *)

Lemma mapM_all_ok (A B : Type) (f : A -> result B) (Q : B -> Prop)
    (l : list A) :
  (forall a, In a l -> exists b, f a = Ok b /\ Q b) ->
  exists bs, mapM f l = Ok bs /\ length bs = length l /\ Forall Q bs.
Proof.
  induction l as [|a l IH]; intros Hall.
  - exists []. repeat split; constructor.
  - destruct (Hall a (or_introl eq_refl)) as (b & Hb & HQ).
    destruct IH as (bs & Hbs & Hlen & HQs).
    { intros a' Ha'. apply Hall. right. exact Ha'. }
    exists (b :: bs). cbn. rewrite Hb. cbn. rewrite Hbs. cbn.
    repeat split; [congruence | constructor; assumption].
Qed.

Lemma mapM_app (A B : Type) (f : A -> result B) (l l' : list A) :
  mapM f (l ++ l') =
  (bs <- mapM f l ;; bs' <- mapM f l' ;; Ok (bs ++ bs')).
Proof.
  induction l as [|a l IH]; cbn.
  - destruct (mapM f l'); reflexivity.
  - destruct (f a) as [b|e]; cbn; [|reflexivity].
    rewrite IH. destruct (mapM f l) as [bs|e]; cbn; [|reflexivity].
    destruct (mapM f l'); reflexivity.
Qed.

Lemma mapM_constant (A B : Type) (f : A -> result B) (b : B) (l : list A) :
  (forall a, In a l -> f a = Ok b) ->
  mapM f l = Ok (map (fun _ => b) l).
Proof.
  induction l as [|a l IH]; intros Hall; [reflexivity|].
  cbn. rewrite (Hall a (or_introl eq_refl)). cbn.
  rewrite IH by (intros a' Ha'; apply Hall; right; exact Ha').
  reflexivity.
Qed.

Lemma length_concat_uniform (A : Type) (n : nat) (Ms : list (list A)) :
  Forall (fun M => length M = n) Ms -> length (concat Ms) = length Ms * n.
Proof.
  induction 1 as [|M Ms HM _ IH]; [reflexivity|].
  cbn. rewrite length_app, HM, IH. reflexivity.
Qed.

Lemma length_slice (A : Type) (i b : nat) (X : list A) :
  i + b <= length X -> length (slice i b X) = b.
Proof.
  intros Hi. unfold slice. rewrite length_firstn, length_skipn. lia.
Qed.

Lemma length_slice_rest (A : Type) (i b : nat) (X : list A) :
  i <= length X <= i + b -> length (slice i b X) = length X - i.
Proof.
  intros Hi. unfold slice. rewrite length_firstn, length_skipn. lia.
Qed.

Lemma range_step_remainder (q b r : nat) :
  0 < r <= b -> 
  range_step (q * b + r) b = map (fun j => j * b) (seq 0 q) ++ [q * b].
Proof.
  intros Hr. unfold range_step.
  replace ((q * b + r + b - 1) / b) with (Datatypes.S q).
  - rewrite seq_S, map_app. reflexivity.
  - replace (q * b + r + b - 1) with (r - 1 + (q + 1) * b) by lia.
    rewrite Nat.div_add by lia. rewrite Nat.div_small by lia. lia.
Qed.

Section WholeBlocks.
Context {T : Type} {SC : Scalar T}.

Lemma square_similarity_block (eps : T) (n : nat) (P : matrix T) :
  square n P -> square n (similarity_block eps P).
Proof.
  intros HP. unfold similarity_block, floor_at, normalize, nan_to_zero.
  apply square_map_map. apply square_map_map. apply square_add_transpose.
  apply square_map_map. exact HP.
Qed.

Lemma store_block_whole (b : nat) (M : matrix T) :
  length M = b -> store_block b M = Ok M.
Proof.
  intros <-. unfold store_block. rewrite Nat.eqb_refl. reflexivity.
Qed.

Lemma store_block_ragged (b : nat) (M : matrix T) :
  length M <> b -> length M <> 1 -> store_block b M = Raise ValueError.
Proof.
  intros Hb H1. unfold store_block.
  apply Nat.eqb_neq in Hb, H1. rewrite Hb, H1. reflexivity.
Qed.

(** One block and all blocks of [calculate_P], for the [x2p] of either
    variant. *)
Variable x2p : matrix T -> T -> result (matrix T).
Hypothesis x2p_ok : forall X p, X <> [] -> exists P, x2p X p = Ok P.
Hypothesis x2p_square :
  forall X p P, x2p X p = Ok P -> square (length X) P.
Variables (eps perplexity : T).

Lemma block_square (b n : nat) (X : matrix T) (i : nat) :
  0 < n -> length (slice i b X) = n ->
  exists P, x2p (slice i b X) perplexity = Ok P /\
            square n (similarity_block eps P).
Proof.
  intros Hn Hlen.
  destruct (x2p_ok (X := slice i b X) perplexity) as [P HP].
  { intros Hnil. rewrite Hnil in Hlen. cbn in Hlen. lia. }
  exists P. split; [exact HP|]. apply square_similarity_block.
  rewrite <- Hlen. eapply x2p_square. exact HP.
Qed.

Lemma block_whole (b : nat) (X : matrix T) (i : nat) :
  0 < b -> i + b <= length X ->
  exists M,
    (P_batch <- x2p (slice i b X) perplexity ;;
     store_block b (similarity_block eps P_batch)) = Ok M /\
    square b M.
Proof.
  intros Hb Hi.
  destruct (@block_square b b X i Hb (length_slice _ _ _ Hi))
    as (P & HP & Hsq).
  exists (similarity_block eps P). rewrite HP. cbn.
  split; [|exact Hsq]. apply store_block_whole. apply Hsq.
Qed.

Lemma block_ragged (b r : nat) (X : matrix T) (i : nat) :
  2 <= r -> r <> b -> length (slice i b X) = r ->
  (P_batch <- x2p (slice i b X) perplexity ;;
   store_block b (similarity_block eps P_batch)) = Raise ValueError.
Proof.
  intros Hr Hb Hlen.
  destruct (@block_square b r X i ltac:(lia) Hlen) as (P & HP & Hsq).
  rewrite HP. cbn. destruct Hsq as [HlenM _].
  apply store_block_ragged; lia.
Qed.

Lemma blocks_whole (b k : nat) (X : matrix T) :
  0 < b -> length X = k * b ->
  exists Ms,
    mapM (fun i => P_batch <- x2p (slice i b X) perplexity ;;
                   store_block b (similarity_block eps P_batch))
         (map (fun j => j * b) (seq 0 k)) = Ok Ms /\
    length Ms = k /\ Forall (square b) Ms.
Proof.
  intros Hb Hlen.
  destruct (@mapM_all_ok _ _
              (fun i => P_batch <- x2p (slice i b X) perplexity ;;
                        store_block b (similarity_block eps P_batch))
              (square b) (map (fun j => j * b) (seq 0 k)))
    as (Ms & HMs & HlenMs & Hsq).
  - intros i Hi. apply in_map_iff in Hi as (j & <- & Hj).
    apply in_seq in Hj. apply block_whole; [exact Hb|]. nia.
  - exists Ms. rewrite length_map, length_seq in HlenMs. auto.
Qed.

Lemma concat_squares (b : nat) (Ms : list (matrix T)) :
  Forall (square b) Ms ->
  length (concat Ms) = length Ms * b /\
  Forall (fun row => length row = b) (concat Ms).
Proof.
  intros Hsq. split.
  - apply length_concat_uniform. eapply Forall_impl; [|exact Hsq].
    intros M [HM _]. exact HM.
  - induction Hsq as [|M Ms [_ HM] _ IH]; [constructor|].
    cbn. apply Forall_app. split; assumption.
Qed.

End WholeBlocks.

Section CalculateP.
Context {T : Type} {SC : Scalar T}.

Lemma root_x2p_ok (X : matrix T) (p : T) :
  X <> [] -> exists P, Root.x2p X p = Ok P.
Proof.
  intros HX. destruct X as [|x X']; [congruence|].
  unfold Root.x2p. eexists. reflexivity.
Qed.

Lemma msp_x2p_ok (X : matrix T) (p : T) :
  X <> [] -> exists P, Msp.x2p X p = Ok P.
Proof.
  intros HX. destruct X as [|x X']; [congruence|].
  unfold Msp.x2p. eexists. reflexivity.
Qed.

Lemma root_x2p_square (X : matrix T) (p : T) (P : matrix T) :
  Root.x2p X p = Ok P -> square (length X) P.
Proof. intros HP. apply (root_x2p_shape _ _ HP). Qed.

Lemma msp_x2p_square (X : matrix T) (p : T) (P : matrix T) :
  Msp.x2p X p = Ok P -> square (length X) P.
Proof. intros HP. apply (msp_x2p_shape _ _ HP). Qed.

(** On whole batches, [calculate_P] returns one row per sample, of
    [batch_size] entries. *)
Lemma root_calculate_P_whole (X : matrix T) (b : Z) (p : T) (k : nat) :
  (0 < b)%Z -> length X = k * Z.to_nat b ->
  exists P, Root.calculate_P X b p = Ok P /\
            length P = length X /\
            Forall (fun row => length row = Z.to_nat b) P.
Proof.
  intros Hb Hlen. unfold Root.calculate_P.
  replace (b <=? 0)%Z with false by (symmetry; lia).
  cbv beta iota zeta.
  replace (range_step (length X) (Z.to_nat b))
    with (map (fun j => j * Z.to_nat b) (seq 0 k))
    by (rewrite Hlen; symmetry; apply range_step_multiple; lia).
  destruct (@blocks_whole T SC Root.x2p root_x2p_ok root_x2p_square
              Root.floor_eps p (Z.to_nat b) k X ltac:(lia) Hlen)
    as (Ms & HMs & HlenMs & Hsq).
  rewrite HMs. cbn. eexists. split; [reflexivity|].
  destruct (concat_squares Hsq) as [Hc Hrows].
  split; [lia | exact Hrows].
Qed.

(** A last batch of [r] samples, [2 <= r < batch_size], cannot be stored:
    the block is [r] wide, its slot [batch_size]. *)
Lemma root_calculate_P_ragged (X : matrix T) (b : Z) (p : T) (q r : nat) :
  2 <= r < Z.to_nat b -> length X = q * Z.to_nat b + r ->
  Root.calculate_P X b p = Raise ValueError.
Proof.
  intros Hr Hlen. unfold Root.calculate_P.
  replace (b <=? 0)%Z with false by (symmetry; lia).
  cbv beta iota zeta.
  replace (range_step (length X) (Z.to_nat b))
    with (map (fun j => j * Z.to_nat b) (seq 0 q) ++ [q * Z.to_nat b])
    by (rewrite Hlen; symmetry; apply range_step_remainder; lia).
  rewrite mapM_app.
  destruct (@mapM_all_ok _ _
              (fun i => P_batch <- Root.x2p (slice i (Z.to_nat b) X) p ;;
                        store_block (Z.to_nat b)
                          (similarity_block Root.floor_eps P_batch))
              (fun _ => True) (map (fun j => j * Z.to_nat b) (seq 0 q)))
    as (Ms & HMs & _).
  { intros i Hi. apply in_map_iff in Hi as (j & <- & Hj).
    apply in_seq in Hj.
    destruct (@block_whole T SC Root.x2p root_x2p_ok root_x2p_square
                Root.floor_eps p (Z.to_nat b) X (j * Z.to_nat b))
      as (M & HM & _); [lia | nia |].
    exists M. split; [exact HM | exact I]. }
  rewrite HMs. cbn.
  rewrite (@block_ragged T SC Root.x2p root_x2p_ok root_x2p_square
             Root.floor_eps p (Z.to_nat b) r X (q * Z.to_nat b));
    [reflexivity | lia | lia |].
  rewrite length_slice_rest by lia. lia.
Qed.

End CalculateP.

Section MspCalculateP.
Context {T : Type} {SC : Scalar T} {K : Keras T}.

Lemma msp_calculate_P_whole (est : Msp.estimator T) (X : matrix T) (b : Z)
    (k : nat) :
  Msp.batch_size est = Some b ->
  (0 < b)%Z -> length X = k * Z.to_nat b ->
  exists P, Msp._calculate_P est X = Ok P /\
            length P = length X /\
            Forall (fun row => length row = Z.to_nat b) P.
Proof.
  intros Hbs Hb Hlen. unfold Msp._calculate_P. rewrite Hbs.
  replace (b <? 0)%Z with false by (symmetry; lia).
  replace (b =? 0)%Z with false by (symmetry; lia).
  cbv beta iota zeta.
  replace (range_step (length X) (Z.to_nat b))
    with (map (fun j => j * Z.to_nat b) (seq 0 k))
    by (rewrite Hlen; symmetry; apply range_step_multiple; lia).
  destruct (@blocks_whole T SC Msp.x2p msp_x2p_ok msp_x2p_square
              Msp.floor_eps (Msp.perplexity est) (Z.to_nat b) k X
              ltac:(lia) Hlen)
    as (Ms & HMs & HlenMs & Hsq).
  rewrite HMs. cbn. eexists. split; [reflexivity|].
  destruct (concat_squares Hsq) as [Hc Hrows].
  split; [lia | exact Hrows].
Qed.

End MspCalculateP.

(** ** The msp variant of [fit], from outside *)

(** X2: in the msp variant, a [fit] that reaches its loop with a patience
    [early_stopping_epochs = p > 0] ends with one loss per epoch; [es_loss]
    is the running best of these losses; [es_stop] is set exactly when the
    last [p] epochs brought no improvement, which happened at the end of no
    epoch before the last; and when it is not set, all of the [n_iter]
    epochs have run. *)
Theorem msp_fit_early_stopping :
  forall (T : Type) (SC : Scalar T) (K : Keras T) (est : Msp.estimator T)
         (X : matrix T) (w : Rng) (s : Msp.train_state T) (p : Z),
    Msp.final (Msp.fit est X w) = Some s ->
    Msp.early_stopping_epochs est = Finite p -> (0 < p)%Z ->
    let h := Msp.history s in
    let mi := Msp.early_stopping_min_improvement est in
    Msp.epoch s = Z.of_nat (length h) /\
    es_loss (Msp.es s) = running_best mi h /\
    (es_stop (Msp.es s) = true <-> Z.of_nat (stalled mi h) = p) /\
    (forall k, k < length h ->
       (Z.of_nat (stalled mi (firstn k h)) < p)%Z) /\
    (es_stop (Msp.es s) = false -> Msp.epoch s = Z.max 0 (Msp.n_iter est)).
Proof.
  intros T SC K est X w s p Hfinal Hp Hpos h mi.
  destruct (msp_fit_normal_end est X w Hfinal)
    as (_ & bs & P0 & model & _ & _ & Hkept & Hrange & Hc).
  destruct Hkept as (Hes & _).
  eapply stop_verdict; eauto.
Qed.

(** X3: in the msp variant, a [fit] without early stopping
    ([early_stopping_epochs = np.inf], the default) that reaches its loop
    never sets [es_stop] and runs all of its epochs: [n_iter] of them, none
    when [n_iter] is negative, with one loss logged per epoch. *)
Theorem msp_fit_runs_every_epoch :
  forall (T : Type) (SC : Scalar T) (K : Keras T) (est : Msp.estimator T)
         (X : matrix T) (w : Rng) (s : Msp.train_state T),
    Msp.final (Msp.fit est X w) = Some s ->
    Msp.early_stopping_epochs est = Unbounded ->
    es_stop (Msp.es s) = false /\
    Msp.epoch s = Z.max 0 (Msp.n_iter est) /\
    length (Msp.history s) = Z.to_nat (Msp.n_iter est) /\
    length (Msp.trained s) = Z.to_nat (Msp.n_iter est).
Proof.
  intros T SC K est X w s Hfinal Hp.
  destruct (msp_fit_normal_end est X w Hfinal)
    as (_ & bs & P0 & model & _ & _ & Hkept & Hrange & Hc).
  destruct Hkept as (Hes & Hlen & _).
  destruct (@stop_never T SC (Msp.early_stopping_epochs est)
              (Msp.early_stopping_min_improvement est) (Msp.n_iter est)
              (Msp.epoch s) (Msp.es s) (Msp.history s) Hp Hes Hrange)
    as [Hstop Hall].
  specialize (Hall Hc). destruct Hes as (He & _).
  split; [exact Hstop|]. split; [exact Hall|].
  assert (Hh : length (Msp.history s) = Z.to_nat (Msp.n_iter est)) by lia.
  split; [exact Hh|]. rewrite Hlen. exact Hh.
Qed.

(** X4: in the msp variant, a [fit] that reaches its loop computes the
    similarities [P] once, from the rows it keeps, and exaggerates a copy
    in each epoch: the array [P] is at the end of the loop what
    [_calculate_P] returned, and the network, the generator and the
    history of the losses after [k] epochs are those of the training,
    batch by batch and epoch by epoch from the network [_build_model]
    compiled, on the kept rows and, in epoch [j], on [P] times
    [early_exaggeration_value] when [j < early_exaggeration_epochs] and on
    [P] itself afterwards; that network is the one the estimator holds
    after [fit]. *)
Theorem msp_fit_exaggerates_a_copy :
  forall (T : Type) (SC : Scalar T) (K : Keras T) (est : Msp.estimator T)
         (X : matrix T) (w : Rng) (s : Msp.train_state T),
    Msp.final (Msp.fit est X w) = Some s ->
    exists P0 model b,
      Msp._calculate_P (Msp.fitted (Msp.fit est X w))
        (Msp.kept (Msp.fit est X w)) = Ok P0 /\
      Msp.built (Msp.fit est X w) = Some model /\
      Msp.batch_size (Msp.fitted (Msp.fit est X w)) = Some b /\
      read (Msp.mem s) 0 = P0 /\
      length (Msp.trained s) = Z.to_nat (Msp.epoch s) /\
      (forall k e, nth_error (Msp.trained s) k = Some e ->
         seen_epoch e = Z.of_nat k /\
         seen_X e = Msp.kept (Msp.fit est X w) /\
         seen_P e = exaggerated (Msp.early_exaggeration_epochs est)
                      (Msp.early_exaggeration_value est) P0 k) /\
      (Msp.net s, Msp.rng s, Msp.history s) =
        msp_epochs (Msp.early_exaggeration_epochs est)
          (Msp.early_exaggeration_value est) (Msp.kept (Msp.fit est X w))
          b P0 model w (Z.to_nat (Msp.epoch s)) /\
      Msp.model (Msp.fitted (Msp.fit est X w)) = Some (Msp.net s) /\
      Msp.world (Msp.fit est X w) = Msp.rng s.
Proof.
  intros T SC K est X w s Hfinal.
  destruct (msp_fit_visits est X w Hfinal)
    as (bs & P0 & model & Hcalc & Hbuilt & Hfitted & Hv).
  cbv zeta in *.
  destruct (msp_calculate_P_batch _ _ Hcalc) as (b & Hbs & Hb).
  cbn in Hbs. subst bs.
  pose proof (msp_visits_kept Hv) as Hkept.
  pose proof (msp_visits_replay Hv) as Hrep.
  destruct Hkept as ((He & _) & Hlen & _ & Hread & Hon & HX).
  exists P0, model, b. split; [rewrite Hfitted; exact Hcalc|].
  split; [exact Hbuilt|]. split; [rewrite Hfitted; reflexivity|].
  split; [exact Hread|]. split; [lia|].
  split.
  { intros k e Hk. destruct (Hon k e Hk) as (Hepoch & P1 & HP1 & Hseen).
    injection HP1 as <-. split; [exact Hepoch|]. split; [|exact Hseen].
    rewrite Forall_forall in HX. apply HX. eapply nth_error_In. exact Hk. }
  split; [exact Hrep|].
  split; [rewrite Hfitted; reflexivity|].
  unfold Msp.fit in *. 
  destruct (Msp.adjust est X) as [[est1 X1]|e]; [|discriminate].
  cbv zeta in *.
  destruct (Msp._calculate_P _ X1) as [P1|e]; [|discriminate].
  rewrite alloc_eq in *.
  destruct (while_loop _ _ _ _) as [ex s1].
  cbn in Hfinal |- *. congruence.
Qed.

(** X5: in the msp variant, [fit] keeps of its samples the longest prefix that
    is a whole number of batches: when it reaches its loop, the batch size
    [b] it leaves on the estimator is positive and at most the number of
    samples, and the rows it trained on are the first
    [n - n mod b] of the [n] rows of [X], at least one batch. *)
Theorem msp_fit_keeps_whole_batches :
  forall (T : Type) (SC : Scalar T) (K : Keras T) (est : Msp.estimator T)
         (X : matrix T) (w : Rng) (s : Msp.train_state T),
    Msp.final (Msp.fit est X w) = Some s ->
    exists b,
      Msp.batch_size (Msp.fitted (Msp.fit est X w)) = Some b /\
      (0 < b <= Z.of_nat (length X))%Z /\
      Msp.kept (Msp.fit est X w) =
        firstn (length X - Z.to_nat (Z.of_nat (length X) mod b)) X /\
      (Z.of_nat (length (Msp.kept (Msp.fit est X w))) mod b = 0)%Z /\
      0 < length (Msp.kept (Msp.fit est X w)).
Proof.
  intros T SC K est X w s Hfinal.
  destruct (msp_fit_reached est X w Hfinal)
    as (bs & X1 & P0 & model & Hadj & Hcalc & Hkept & Hfitted & _).
  cbv zeta in *. rewrite Hkept, Hfitted.
  destruct (msp_calculate_P_batch _ X1 Hcalc) as (b & Hbs & Hb).
  cbn in Hbs. subst bs.
  destruct (msp_adjust_rows X Hadj eq_refl Hb) as (Hrows & Hle & Hmod).
  exists b. split; [reflexivity|]. split; [lia|].
  split; [|split; assumption].
  pose proof (msp_adjust_cases est X) as Hc. cbv zeta in Hc.
  assert (Hsame : forall e1 e2 : Msp.estimator T, forall Y1 Y2 : matrix T,
            Ok (e1, Y1) = Ok (e2, Y2) ->
            Msp.batch_size e1 = Msp.batch_size e2 /\ Y1 = Y2)
    by (intros e1 e2 Y1 Y2 H; injection H as -> ->; auto).
  assert (Hall : forall n : Z, (0 < n)%Z -> n = Z.of_nat (length X) ->
            X = firstn (length X - Z.to_nat (Z.of_nat (length X) mod n)) X).
  { intros n Hn ->. rewrite Z.mod_same by lia. cbn.
    rewrite Nat.sub_0_r, firstn_all. reflexivity. }
  destruct (Msp.batch_size est) as [b0|] eqn:Hb0.
  - destruct (b0 >? Z.of_nat (length X))%Z eqn:Hgt.
    + rewrite Hc in Hadj. apply Hsame in Hadj as [Hbs <-].
      cbn in Hbs. injection Hbs as Hbs. apply Hall; lia.
    + destruct (b0 =? 0)%Z eqn:Hz; rewrite Hc in Hadj; [discriminate|].
      apply Hsame in Hadj as [Hbs <-]. cbn in Hbs. rewrite Hb0 in Hbs.
      injection Hbs as ->.
      destruct (Z.of_nat (length X) mod b >? 0)%Z eqn:Hm; [reflexivity|].
      pose proof (Z.mod_pos_bound (Z.of_nat (length X)) b Hb).
      replace (Z.of_nat (length X) mod b)%Z with 0%Z by lia. cbn.
      rewrite Nat.sub_0_r, firstn_all. reflexivity.
  - rewrite Hc in Hadj. apply Hsame in Hadj as [Hbs <-].
    cbn in Hbs. injection Hbs as Hbs. apply Hall; lia.
Qed.

(** X6: in the msp variant, [fit] on at least one sample, with a batch size
    that is [None] or positive, raises nothing: it reaches its loop, the
    loop ends by its condition after at most [n_iter] epochs, and the
    estimator holds the trained network. *)
Theorem msp_fit_succeeds :
  forall (T : Type) (SC : Scalar T) (K : Keras T) (est : Msp.estimator T)
         (X : matrix T) (w : Rng),
    0 < length X ->
    (Msp.batch_size est = None \/
     exists b, Msp.batch_size est = Some b /\ (0 < b)%Z) ->
    exists s,
      Msp.final (Msp.fit est X w) = Some s /\
      Msp.ended (Msp.fit est X w) = ByCond /\
      Msp.returned (Msp.fit est X w) = Ok (Msp.fitted (Msp.fit est X w)) /\
      Msp._model (Msp.fitted (Msp.fit est X w)) = Some (Msp.net s) /\
      (0 <= Msp.epoch s <= Z.max 0 (Msp.n_iter est))%Z.
Proof.
  intros T SC K est X w Hn Hbatch.
  assert (Hadj : exists b X1 k,
            Msp.adjust est X = Ok (Msp.with_batch_size est (Some b), X1) /\
            (0 < b)%Z /\ length X1 = k * Z.to_nat b).
  { pose proof (msp_adjust_cases est X) as Hc. cbv zeta in Hc.
    assert (Hself : Msp.adjust est X =
                    Ok (Msp.with_batch_size est
                          (Some (Z.of_nat (length X))), X) ->
                    exists b X1 k,
                      Msp.adjust est X =
                        Ok (Msp.with_batch_size est (Some b), X1) /\
                      (0 < b)%Z /\ length X1 = k * Z.to_nat b).
    { intros H. exists (Z.of_nat (length X)), X, 1.
      split; [exact H|]. split; lia. }
    destruct Hbatch as [Hb | (b & Hb & Hpos)]; rewrite Hb in Hc;
      [exact (Hself Hc)|].
    destruct (b >? Z.of_nat (length X))%Z eqn:Hgt; [exact (Hself Hc)|].
    replace (b =? 0)%Z with false in Hc by (symmetry; lia).
    assert (Hest : est = Msp.with_batch_size est (Some b))
      by (rewrite <- Hb; destruct est; reflexivity).
    rewrite Hest in Hc at 2.
    destruct (msp_adjust_rows X Hc eq_refl Hpos) as (_ & _ & Hmod).
    apply Z.mod_divide in Hmod; [|lia]. destruct Hmod as [c Hc'].
    eexists b, _, (Z.to_nat c). split; [exact Hc|]. split; [exact Hpos|].
    nia. }
  destruct Hadj as (b & X1 & k & Hadj & Hb & Hlen).
  destruct (@msp_calculate_P_whole T SC K
              (Msp.with_model (Msp.with_batch_size est (Some b))
                 (Some (Msp._build_model (Msp.with_batch_size est (Some b))
                          (width X1)
                          (Msp.n_components
                             (Msp.with_batch_size est (Some b))))))
              X1 b k eq_refl Hb Hlen) as (P0 & Hcalc & _).
  pose proof (msp_fit_loop est X w Hadj Hcalc) as Hfit. cbv zeta in Hfit.
  assert (Hfinal : exists s, Msp.final (Msp.fit est X w) = Some s)
    by (rewrite Hfit; cbn; eauto).
  destruct Hfinal as [s Hfinal]. exists s. split; [exact Hfinal|].
  destruct (msp_fit_normal_end est X w Hfinal)
    as (Hended & bs & P1 & model & _ & Hfitted & _ & Hrange & _).
  cbv zeta in Hfitted.
  split; [exact Hended|]. unfold Msp.returned. rewrite Hended.
  split; [reflexivity|]. rewrite Hfitted. split; [reflexivity|exact Hrange].
Qed.

(** X7: in the msp variant, [fit] with the batch size [0] raises
    [ZeroDivisionError] in its first statement ([X.shape[0] % 0]): the
    estimator is as it was, no network is built, and [fit_transform] raises
    the same. *)
Theorem msp_fit_zero_batch_size :
  forall (T : Type) (SC : Scalar T) (K : Keras T) (est : Msp.estimator T)
         (X : matrix T) (w : Rng),
    Msp.batch_size est = Some 0%Z ->
    Msp.fit est X w =
      {| Msp.fitted := est; Msp.world := w;
         Msp.ended := ByRaise ZeroDivisionError; Msp.kept := X;
         Msp.built := None; Msp.final := None |} /\
    Msp.fit_transform est X w = (est, Raise ZeroDivisionError).
Proof.
  intros T SC K est X w Hb.
  assert (Hfit : Msp.fit est X w =
            {| Msp.fitted := est; Msp.world := w;
               Msp.ended := ByRaise ZeroDivisionError; Msp.kept := X;
               Msp.built := None; Msp.final := None |}).
  { apply msp_fit_raised.
    pose proof (msp_adjust_cases est X) as Hc. cbv zeta in Hc.
    rewrite Hb in Hc.
    assert (Hgt : (0 >? Z.of_nat (length X))%Z = false)
      by (rewrite Z.gtb_ltb; apply Z.ltb_ge; lia).
    rewrite Hgt in Hc. exact Hc. }
  split; [exact Hfit|]. unfold Msp.fit_transform. rewrite Hfit. reflexivity.
Qed.

(** X8: in the msp variant, [fit] with a negative batch size keeps all the
    rows and raises [ValueError] before any training, at the latest when
    [_calculate_P] allocates [P] ([np.zeros] refuses the negative width):
    by then [_build_model] has set the network, so the estimator holds it
    and [transform] answers with it. *)
Theorem msp_fit_negative_batch_size :
  forall (T : Type) (SC : Scalar T) (K : Keras T) (est : Msp.estimator T)
         (X X' : matrix T) (w : Rng) (b : Z),
    Msp.batch_size est = Some b -> (b < 0)%Z ->
    let o := Msp.fit est X w in
    let model := Msp._build_model est (width X) (Msp.n_components est) in
    Msp.ended o = ByRaise ValueError /\
    Msp.final o = None /\
    Msp.fitted o = Msp.with_model est (Some model) /\
    Msp.transform (Msp.fitted o) X' = Ok (predict model X').
Proof.
  intros T SC K est X X' w b Hb Hneg o model.
  assert (Hadj : Msp.adjust est X = Ok (est, X)).
  { pose proof (msp_adjust_cases est X) as Hc. cbv zeta in Hc.
    rewrite Hb in Hc.
    assert (Hgt : (b >? Z.of_nat (length X))%Z = false)
      by (rewrite Z.gtb_ltb; apply Z.ltb_ge; lia).
    rewrite Hgt in Hc.
    replace (b =? 0)%Z with false in Hc by (symmetry; lia).
    pose proof (Z.mod_neg_bound (Z.of_nat (length X)) b Hneg).
    assert (Hm : (Z.of_nat (length X) mod b >? 0)%Z = false)
      by (rewrite Z.gtb_ltb; apply Z.ltb_ge; lia).
    rewrite Hm in Hc. exact Hc. }
  assert (Hcalc : Msp._calculate_P (Msp.with_model est (Some model)) X =
                  Raise ValueError).
  { unfold Msp._calculate_P. cbn [Msp.batch_size Msp.with_model].
    rewrite Hb. replace (b <? 0)%Z with true by (symmetry; lia).
    reflexivity. }
  assert (Hfit : o =
            {| Msp.fitted := Msp.with_model est (Some model);
               Msp.world := w; Msp.ended := ByRaise ValueError;
               Msp.kept := X; Msp.built := Some model;
               Msp.final := None |}).
  { unfold o, Msp.fit. rewrite Hadj. fold model. cbv zeta.
    rewrite Hcalc. reflexivity. }
  rewrite Hfit. cbn. repeat split; reflexivity.
Qed.

(** X9: in the msp variant, [fit_transform] embeds every row of [X], also
    those [fit] dropped to come to whole batches: when [fit] reaches its
    loop, the result is the prediction of the trained network on [X]
    itself; for a network that returns one row per row it is given, these
    are as many rows as [X] has, while [fit] trained on
    [n - n mod batch_size] of them. *)
Theorem msp_fit_transform_embeds_every_row :
  forall (T : Type) (SC : Scalar T) (K : Keras T) (est : Msp.estimator T)
         (X : matrix T) (w : Rng) (s : Msp.train_state T),
    (forall (m : Net) (Y : matrix T), length (predict m Y) = length Y) ->
    Msp.final (Msp.fit est X w) = Some s ->
    exists Y b,
      Msp.fit_transform est X w = (Msp.fitted (Msp.fit est X w), Ok Y) /\
      Y = predict (Msp.net s) X /\
      length Y = length X /\
      Msp.batch_size (Msp.fitted (Msp.fit est X w)) = Some b /\
      length (Msp.kept (Msp.fit est X w)) =
        length X - Z.to_nat (Z.of_nat (length X) mod b).
Proof.
  intros T SC K est X w s Hrows Hfinal.
  destruct (msp_fit_normal_end est X w Hfinal)
    as (Hended & bs & P0 & model & _ & Hfitted & _).
  cbv zeta in Hfitted.
  destruct (msp_fit_reached est X w Hfinal)
    as (bs' & X1 & P1 & model' & Hadj & Hcalc & Hkept & Hfitted' & _).
  cbv zeta in *.
  destruct (msp_calculate_P_batch _ X1 Hcalc) as (b & Hbs & Hb).
  cbn in Hbs. subst bs'.
  destruct (msp_adjust_rows X Hadj eq_refl Hb) as (_ & Hle & _).
  exists (predict (Msp.net s) X), b.
  split.
  { assert (Hm : Msp._model (Msp.fitted (Msp.fit est X w)) =
                 Some (Msp.net s)) by (rewrite Hfitted; reflexivity).
    unfold Msp.fit_transform, Msp.returned. rewrite Hended.
    unfold Msp.transform, Msp.model. rewrite Hm. reflexivity. }
  split; [reflexivity|]. split; [apply Hrows|].
  split; [rewrite Hfitted'; reflexivity|].
  rewrite Hkept.
  pose proof (msp_adjust_cases est X) as Hc. cbv zeta in Hc.
  assert (Hsame : forall e1 e2 : Msp.estimator T, forall Y1 Y2 : matrix T,
            Ok (e1, Y1) = Ok (e2, Y2) ->
            Msp.batch_size e1 = Msp.batch_size e2 /\ Y1 = Y2)
    by (intros e1 e2 Y1 Y2 H; injection H as -> ->; auto).
  assert (Hall : length X = length X -
                 Z.to_nat (Z.of_nat (length X) mod Z.of_nat (length X)))
    by (rewrite Z.mod_same by lia; cbn; lia).
  destruct (Msp.batch_size est) as [b0|] eqn:Hb0.
  - destruct (b0 >? Z.of_nat (length X))%Z eqn:Hgt.
    + rewrite Hc in Hadj. apply Hsame in Hadj as [Hbs <-].
      cbn in Hbs. injection Hbs as <-. exact Hall.
    + destruct (b0 =? 0)%Z eqn:Hz; rewrite Hc in Hadj; [discriminate|].
      apply Hsame in Hadj as [Hbs <-]. cbn in Hbs. rewrite Hb0 in Hbs.
      injection Hbs as ->.
      pose proof (Z.mod_pos_bound (Z.of_nat (length X)) b Hb).
      destruct (Z.of_nat (length X) mod b >? 0)%Z eqn:Hm.
      * rewrite length_firstn. lia.
      * rewrite Z.gtb_ltb in Hm. apply Z.ltb_ge in Hm.
        replace (Z.of_nat (length X) mod b)%Z with 0%Z by lia. cbn. lia.
  - rewrite Hc in Hadj. apply Hsame in Hadj as [Hbs <-].
    cbn in Hbs. injection Hbs as <-. exact Hall.
Qed.

(** X10: in the msp variant, [transform] on the estimator a call of [fit]
    leaves raises [NotFittedError] only when that call raised in its first
    statement, before [_build_model], on an estimator without a network;
    once [_build_model] has run, [transform] predicts, whether or not [fit]
    went on to train. *)
Theorem msp_transform_after_fit :
  forall (T : Type) (SC : Scalar T) (K : Keras T) (est : Msp.estimator T)
         (X X' : matrix T) (w : Rng),
    let o := Msp.fit est X w in
    (Msp.transform (Msp.fitted o) X' = Raise NotFittedError <->
     Msp.built o = None /\ Msp._model est = None) /\
    (Msp.built o = None ->
     Msp.fitted o = est /\
     Msp.ended o = ByRaise ZeroDivisionError /\
     Msp.batch_size est = Some 0%Z) /\
    (Msp.built o <> None ->
     exists m, Msp._model (Msp.fitted o) = Some m /\
               Msp.transform (Msp.fitted o) X' = Ok (predict m X')).
Proof.
  intros T SC K est X X' w o.
  destruct (Msp.adjust est X) as [[est1 X1]|e] eqn:Hadj.
  - destruct (msp_fit_adjusted est X w Hadj) as (_ & Hmodel & Hbuilt & _).
    fold o in Hmodel, Hbuilt.
    destruct (Msp._model (Msp.fitted o)) as [m|] eqn:Hm; [|congruence].
    assert (Ht : Msp.transform (Msp.fitted o) X' = Ok (predict m X'))
      by (unfold Msp.transform, Msp.model; rewrite Hm; reflexivity).
    split; [|split].
    + rewrite Ht, Hbuilt. split; [discriminate|]. intros [H _].
      discriminate.
    + rewrite Hbuilt. discriminate.
    + intros _. exists m. split; [reflexivity | exact Ht].
  - pose proof (msp_fit_raised est X w Hadj) as Hfit. fold o in Hfit.
    assert (He : e = ZeroDivisionError /\ Msp.batch_size est = Some 0%Z).
    { pose proof (msp_adjust_cases est X) as Hc. cbv zeta in Hc.
      destruct (Msp.batch_size est) as [b|]; [|congruence].
      destruct (b >? Z.of_nat (length X))%Z; [congruence|].
      destruct (b =? 0)%Z eqn:Hz; [|congruence].
      apply Z.eqb_eq in Hz. subst b. split; congruence. }
    destruct He as [-> Hb]. rewrite Hfit. cbn.
    split; [|split].
    + unfold Msp.transform, Msp.model.
      destruct (Msp._model est) as [m|]; split; try discriminate; auto.
      intros [_ H]. discriminate.
    + auto.
    + congruence.
Qed.

Section MspFitRuns.
#[local] Existing Instance binary64.

(** Four epochs on the losses 5, 4, 4, 4 with a patience of two. *)
Lemma msp_fit_early_stopping_witness :
  let est := Sample.msp_estimator Sample.plateau 10 (Some 3%Z) (Finite 2) in
  exists s,
    Msp.final (Msp.fit est Sample.block3 0) = Some s /\
    Msp.history s = [5; 4; 4; 4]%float /\
    Msp.epoch s = Z.of_nat (length (Msp.history s)) /\
    es_loss (Msp.es s) =
      running_best 1e-2%float (Msp.history s) /\
    (es_stop (Msp.es s) = true <->
     Z.of_nat (stalled 1e-2%float (Msp.history s)) = 2%Z) /\
    (forall k, k < length (Msp.history s) ->
       (Z.of_nat (stalled 1e-2%float
                    (firstn k (Msp.history s))) < 2)%Z) /\
    (es_stop (Msp.es s) = false -> Msp.epoch s = Z.max 0 10).
Proof.
  intros est. eexists. split; [vm_compute; reflexivity|].
  split; [reflexivity|].
  apply (@msp_fit_early_stopping float binary64 Sample.plateau est
           Sample.block3 0 _ 2%Z);
    [vm_compute; reflexivity | reflexivity | reflexivity].
Defined.

(** Three epochs of the default stopping rule on four points. *)
Lemma msp_fit_runs_every_epoch_witness :
  let est := Sample.msp_estimator Sample.plateau 3 None Unbounded in
  exists s,
    Msp.final (Msp.fit est (Sample.line 4) 0) = Some s /\
    es_stop (Msp.es s) = false /\
    Msp.epoch s = Z.max 0 3 /\
    length (Msp.history s) = Z.to_nat 3 /\
    length (Msp.trained s) = Z.to_nat 3.
Proof.
  intros est. eexists. split; [vm_compute; reflexivity|].
  apply (@msp_fit_runs_every_epoch float binary64 Sample.plateau est
           (Sample.line 4) 0);
    [vm_compute; reflexivity | reflexivity].
Defined.

(** Four epochs, the first two exaggerated by 4, of a network that
    records its batches. *)
Lemma msp_fit_exaggerates_a_copy_witness :
  let est := Sample.msp_estimator Recording.keras 4 (Some 3%Z) Unbounded in
  let o := Msp.fit est Sample.block3 0 in
  exists s,
    Msp.final o = Some s /\
    exists P0 model b,
      Msp._calculate_P (Msp.fitted o) (Msp.kept o) = Ok P0 /\
      Msp.built o = Some model /\
      Msp.batch_size (Msp.fitted o) = Some b /\
      read (Msp.mem s) 0 = P0 /\
      length (Msp.trained s) = Z.to_nat (Msp.epoch s) /\
      (forall k e, nth_error (Msp.trained s) k = Some e ->
         seen_epoch e = Z.of_nat k /\
         seen_X e = Msp.kept o /\
         seen_P e = exaggerated 2 4%float P0 k) /\
      (Msp.net s, Msp.rng s, Msp.history s) =
        msp_epochs 2 4%float (Msp.kept o) b P0 model 0
          (Z.to_nat (Msp.epoch s)) /\
      Msp.model (Msp.fitted o) = Some (Msp.net s) /\
      Msp.world o = Msp.rng s.
Proof.
  intros est o. eexists. split; [vm_compute; reflexivity|].
  apply (@msp_fit_exaggerates_a_copy float binary64 Recording.keras est
           Sample.block3 0).
  vm_compute. reflexivity.
Defined.

(** Five points in batches of three: the first three are kept. *)
Lemma msp_fit_keeps_whole_batches_witness :
  let est := Sample.msp_estimator Sample.plateau 3 (Some 3%Z) Unbounded in
  let o := Msp.fit est (Sample.line 5) 0 in
  exists s,
    Msp.final o = Some s /\
    Msp.kept o = Sample.line 3 /\
    exists b,
      Msp.batch_size (Msp.fitted o) = Some b /\
      (0 < b <= Z.of_nat (length (Sample.line 5)))%Z /\
      Msp.kept o =
        firstn (length (Sample.line 5) -
                Z.to_nat (Z.of_nat (length (Sample.line 5)) mod b))
          (Sample.line 5) /\
      (Z.of_nat (length (Msp.kept o)) mod b = 0)%Z /\
      0 < length (Msp.kept o).
Proof.
  intros est o. eexists. split; [vm_compute; reflexivity|].
  split; [vm_compute; reflexivity|].
  eapply (@msp_fit_keeps_whole_batches float binary64 Sample.plateau est
            (Sample.line 5) 0).
  vm_compute. reflexivity.
Defined.

(** The same five points, fitted without an exception. *)
Lemma msp_fit_succeeds_witness :
  let est := Sample.msp_estimator Sample.plateau 3 (Some 3%Z) Unbounded in
  let o := Msp.fit est (Sample.line 5) 0 in
  0 < length (Sample.line 5) /\
  (Msp.batch_size est = None \/
   exists b, Msp.batch_size est = Some b /\ (0 < b)%Z) /\
  exists s,
    Msp.final o = Some s /\
    Msp.ended o = ByCond /\
    Msp.returned o = Ok (Msp.fitted o) /\
    Msp._model (Msp.fitted o) = Some (Msp.net s) /\
    (0 <= Msp.epoch s <= Z.max 0 (Msp.n_iter est))%Z.
Proof.
  intros est o.
  assert (Hn : 0 < length (Sample.line 5)) by (vm_compute; lia).
  assert (Hb : Msp.batch_size est = None \/
               exists b, Msp.batch_size est = Some b /\ (0 < b)%Z)
    by (right; exists 3%Z; split; [reflexivity | lia]).
  split; [exact Hn|]. split; [exact Hb|].
  exact (@msp_fit_succeeds float binary64 Sample.plateau est
           (Sample.line 5) 0 Hn Hb).
Defined.

(** A batch size of zero. *)
Lemma msp_fit_zero_batch_size_witness :
  let est := Sample.msp_estimator Sample.plateau 3 (Some 0%Z) Unbounded in
  Msp.fit est (Sample.line 5) 0 =
    {| Msp.fitted := est; Msp.world := 0;
       Msp.ended := ByRaise ZeroDivisionError; Msp.kept := Sample.line 5;
       Msp.built := None; Msp.final := None |} /\
  Msp.fit_transform est (Sample.line 5) 0 = (est, Raise ZeroDivisionError).
Proof.
  intros est.
  exact (@msp_fit_zero_batch_size float binary64 Sample.plateau est
           (Sample.line 5) 0 eq_refl).
Defined.

(** A batch size of [-2]. *)
Lemma msp_fit_negative_batch_size_witness :
  let est := Sample.msp_estimator Sample.plateau 3 (Some (-2)%Z) Unbounded in
  let o := Msp.fit est (Sample.line 5) 0 in
  let model := Msp._build_model est (width (Sample.line 5))
                 (Msp.n_components est) in
  Msp.ended o = ByRaise ValueError /\
  Msp.final o = None /\
  Msp.fitted o = Msp.with_model est (Some model) /\
  Msp.transform (Msp.fitted o) (Sample.line 2) =
    Ok (predict model (Sample.line 2)).
Proof.
  intros est o model.
  exact (@msp_fit_negative_batch_size float binary64 Sample.plateau est
           (Sample.line 5) (Sample.line 2) 0 (-2)%Z eq_refl eq_refl).
Defined.

(** Five points in batches of three: three are trained on, five
    embedded. *)
Lemma msp_fit_transform_embeds_every_row_witness :
  let est := Sample.msp_estimator Sample.plateau 3 (Some 3%Z) Unbounded in
  let o := Msp.fit est (Sample.line 5) 0 in
  (forall (m : Net (Keras := Sample.plateau)) (Y : matrix float),
     length (predict m Y) = length Y) /\
  exists s,
    Msp.final o = Some s /\
    length (Msp.kept o) = 3 /\
    exists Y b,
      Msp.fit_transform est (Sample.line 5) 0 = (Msp.fitted o, Ok Y) /\
      Y = predict (Msp.net s) (Sample.line 5) /\
      length Y = length (Sample.line 5) /\
      Msp.batch_size (Msp.fitted o) = Some b /\
      length (Msp.kept o) =
        length (Sample.line 5) -
        Z.to_nat (Z.of_nat (length (Sample.line 5)) mod b).
Proof.
  intros est o.
  assert (Hrows : forall (m : Net (Keras := Sample.plateau))
                         (Y : matrix float),
            length (predict m Y) = length Y)
    by (intros m Y; apply length_map).
  split; [exact Hrows|].
  eexists. split; [vm_compute; reflexivity|].
  split; [vm_compute; reflexivity|].
  apply (@msp_fit_transform_embeds_every_row float binary64 Sample.plateau
           est (Sample.line 5) 0 _ Hrows).
  vm_compute. reflexivity.
Defined.

End MspFitRuns.

(** ** The loop of the root variant of [fit] *)

Section RootLoop.
Context {T : Type} {SC : Scalar T} {K : Keras T}.
Variables (est : Root.estimator T) (b : Z) (n_sample : nat).

Lemma root_batches_fold (X P : matrix T) (bn : nat) (l : list nat)
    (nt : Net) (loss : T) (c : Z) :
  snd (fold_left
         (fun (acc : Net * T * Z) i =>
            let '(nt, loss, n_batches) := acc in
            let '(nt', l) := train_on_batch nt (slice i bn X) (slice i bn P) in
            (nt', radd loss l, (n_batches + 1)%Z))
         l (nt, loss, c)) = (c + Z.of_nat (length l))%Z.
Proof.
  revert nt loss c. induction l as [|i l IH]; intros nt loss c.
  - simpl. lia.
  - cbn [fold_left]. destruct (train_on_batch nt _ _) as [nt' l0].
    rewrite IH. cbn [length]. lia.
Qed.

Lemma root_batches_count (nt : Net) (X P : matrix T) (n bn : nat) :
  snd (Root.train_batches nt X P n bn) = Z.of_nat (length (range_step n bn)).
Proof.
  unfold Root.train_batches. rewrite root_batches_fold. lia.
Qed.

(** The data of the epoch that starts in [s]: [X[new_indices]]. *)
Lemma root_epoch_next (s s' : Root.train_state T) :
  Root.epoch_body est b n_sample s = Next s' ->
  exists loss P0,
    Root.calculate_P (Root.X_now s') b (Root.perplexity est) = Ok P0 /\
    Root.X_now s' =
      take_indices [] (snd (permutation (Root.rng s) n_sample))
        (Root.X_now s) /\
    Root.epoch s' = (Root.epoch s + 1)%Z /\
    Root.es s' = es_update (Root.early_stopping_epochs est)
                   (Root.early_stopping_min_improvement est)
                   (Root.es s) loss /\
    Root.history s' = Root.history s ++ [loss] /\
    Root.trained s' = Root.trained s ++
      [{| seen_epoch := Root.epoch s; seen_X := Root.X_now s';
          seen_P := if (Root.epoch s <? Root.early_exaggeration_epochs est)%Z
                    then scale (Root.early_exaggeration_value est) P0
                    else P0 |}].
Proof.
  unfold Root.epoch_body.
  destruct (permutation (Root.rng s) n_sample) as [rng' new_indices].
  cbn [snd].
  destruct (Root.calculate_P _ b _) as [P0|e] eqn:Hcalc; [|discriminate].
  rewrite alloc_eq.
  destruct (Root.train_batches _ _ _ _ _) as [[net' loss] nb].
  destruct (nb =? 0)%Z; [discriminate|].
  intros Hb. injection Hb as <-.
  cbn [Root.epoch Root.es Root.history Root.trained Root.X_now].
  exists (sdiv loss (of_int nb)), P0.
  split; [exact Hcalc|]. split; [reflexivity|]. split; [reflexivity|].
  split; [reflexivity|]. split; [reflexivity|].
  assert (Hnew : length (Root.mem s) < length (Root.mem s ++ [P0]))
    by (rewrite length_alloc; lia).
  rewrite read_exaggerate_same by exact Hnew.
  rewrite read_alloc_new. reflexivity.
Qed.

Lemma root_epoch_no_break (s s' : Root.train_state T) :
  Root.epoch_body est b n_sample s <> Break s'.
Proof.
  unfold Root.epoch_body.
  destruct (permutation (Root.rng s) n_sample) as [rng' new_indices].
  destruct (Root.calculate_P _ b _) as [P0|e]; [|discriminate].
  rewrite alloc_eq.
  destruct (Root.train_batches _ _ _ _ _) as [[net' loss] nb].
  destruct (nb =? 0)%Z; discriminate.
Qed.

(** An epoch that raises: in [calculate_P], or for want of a batch; it
    leaves the epoch, the early-stopping variables and the logs as they
    were. *)
Lemma root_epoch_throw (s s' : Root.train_state T) (e : exn) :
  Root.epoch_body est b n_sample s = Throw e s' ->
  (Root.calculate_P
     (take_indices [] (snd (permutation (Root.rng s) n_sample))
        (Root.X_now s)) b (Root.perplexity est) = Raise e \/
   e = ZeroDivisionError /\ range_step n_sample (Z.to_nat b) = []) /\
  Root.epoch s' = Root.epoch s /\
  Root.es s' = Root.es s /\
  Root.history s' = Root.history s /\
  Root.trained s' = Root.trained s.
Proof.
  unfold Root.epoch_body.
  destruct (permutation (Root.rng s) n_sample) as [rng' new_indices].
  cbn [snd].
  destruct (Root.calculate_P _ b _) as [P0|e0] eqn:Hcalc.
  - rewrite alloc_eq.
    pose proof (root_batches_count (Root.net s)
                  (take_indices [] new_indices (Root.X_now s))
                  (read (exaggerate (Root.epoch s)
                           (Root.early_exaggeration_epochs est)
                           (Root.early_exaggeration_value est)
                           (Root.mem s ++ [P0]) (length (Root.mem s)))
                     (length (Root.mem s)))
                  n_sample (Z.to_nat b)) as Hcount.
    destruct (Root.train_batches _ _ _ _ _) as [[net' loss] nb].
    cbn [snd] in Hcount.
    destruct (nb =? 0)%Z eqn:Hz; [|discriminate].
    intros Hb. injection Hb as <- <-. cbn.
    split; [|repeat split]. right. split; [reflexivity|].
    apply Z.eqb_eq in Hz.
    destruct (range_step n_sample (Z.to_nat b)); [reflexivity|].
    simpl in Hcount. lia.
  - intros Hb. injection Hb as <- <-. cbn.
    split; [left; reflexivity | repeat split].
Qed.

Lemma root_fit_cond_left (s : Root.train_state T) :
  Root.fit_cond est s = true ->
  0 < epochs_left (Root.n_iter est) (Root.epoch s) /\
  es_stop (Root.es s) = false.
Proof.
  unfold Root.fit_cond, epochs_left. intros Hc.
  apply andb_prop in Hc as [Hlt Hstop]. apply Z.ltb_lt in Hlt.
  apply negb_true_iff in Hstop. split; [lia | exact Hstop].
Qed.

Lemma root_start_kept (X : matrix T) (model : Net) (w : Rng) :
  root_kept est b (root_start est X model w).
Proof.
  unfold root_kept, root_start. cbn.
  split; [apply es_follows_start|]. split; [reflexivity|].
  apply trained_on_nil.
Qed.

Lemma root_body_kept (s s' : Root.train_state T) :
  root_kept est b s ->
  Root.fit_cond est s = true ->
  Root.epoch_body est b n_sample s = Next s' ->
  root_kept est b s'.
Proof.
  intros (Hes & Hlen & Hlog) Hc Hb.
  apply root_fit_cond_left in Hc as [_ Hstop].
  apply root_epoch_next in Hb
    as (loss & P0 & Hcalc & _ & Hepoch & Hes' & Hhist & Htr).
  unfold root_kept. rewrite Hepoch, Hes', Hhist, Htr.
  split; [apply es_follows_step; assumption|].
  split; [rewrite !length_app, Hlen; reflexivity|].
  destruct Hes as (He & _).
  assert (Hk : Root.epoch s = Z.of_nat (length (Root.trained s)))
    by (rewrite Hlen; exact He).
  rewrite Hk.
  apply (trained_on_snoc
           (calc := fun X => Root.calculate_P X b (Root.perplexity est)));
    [exact Hlog | exact Hcalc].
Qed.

Lemma root_visits_kept (X : matrix T) (model : Net) (w : Rng)
    (s : Root.train_state T) :
  visits (Root.fit_cond est) (Root.epoch_body est b n_sample)
    (root_start est X model w) s ->
  root_kept est b s /\
  (0 <= Root.epoch s <= Z.max 0 (Root.n_iter est))%Z.
Proof.
  revert s.
  apply visits_invariant
    with (I := fun s => root_kept est b s /\
                        (0 <= Root.epoch s <= Z.max 0 (Root.n_iter est))%Z).
  - split; [apply root_start_kept|]. cbn. lia.
  - intros s s' [Hs Hrange] Hc Hb.
    split; [eapply root_body_kept; eauto|].
    apply root_fit_cond_left in Hc as [Hleft _]. unfold epochs_left in Hleft.
    apply root_epoch_next in Hb as (loss & P0 & _ & _ & Hepoch & _).
    rewrite Hepoch. lia.
Qed.

Lemma root_epochs_decrease (s s' : Root.train_state T) :
  Root.fit_cond est s = true ->
  Root.epoch_body est b n_sample s = Next s' ->
  epochs_left (Root.n_iter est) (Root.epoch s') <
  epochs_left (Root.n_iter est) (Root.epoch s).
Proof.
  intros Hc Hb. apply root_fit_cond_left in Hc as [Hleft _].
  apply root_epoch_next in Hb as (loss & P0 & _ & _ & Hepoch & _).
  unfold epochs_left in *. rewrite Hepoch. lia.
Qed.

(** The loop of the root variant ends within [n_iter] epochs. *)
Lemma root_loop_ends (X : matrix T) (model : Net) (w : Rng) :
  fst (while_loop (Root.fit_cond est) (Root.epoch_body est b n_sample)
         (Z.to_nat (Root.n_iter est)) (root_start est X model w))
  <> OutOfFuel.
Proof.
  apply while_loop_terminates
    with (mu := fun s => epochs_left (Root.n_iter est) (Root.epoch s)).
  - intros s Hc. apply root_fit_cond_left in Hc as [Hleft _]. exact Hleft.
  - apply root_epochs_decrease.
  - unfold epochs_left, root_start. cbn. lia.
Qed.

End RootLoop.

Section RootFit.
Context {T : Type} {SC : Scalar T} {K : Keras T}.

(** A call of [fit], by its loop. *)
Lemma root_fit_run (est : Root.estimator T) (X : matrix T)
    (batch_size : option Z) (w : Rng) :
  let b := match batch_size with
           | Some b => b
           | None => Z.of_nat (length X)
           end in
  let model := Root._build_model est b (width X) (Root.n_components est) in
  let r := while_loop (Root.fit_cond est)
             (Root.epoch_body est b (length X))
             (Z.to_nat (Root.n_iter est)) (root_start est X model w) in
  Root.fit est X batch_size w =
  {| Root.fitted := Root.with_internals est (Some (Root.net (snd r)))
                      (Some b);
     Root.world := Root.rng (snd r); Root.built := model;
     Root.ended := fst r; Root.final := snd r |}.
Proof.
  intros b model r. unfold Root.fit. fold b. fold model.
  change (while_loop (Root.fit_cond est) (Root.epoch_body est b (length X))
            (Z.to_nat (Root.n_iter est))
            {| Root.epoch := 0; Root.X_now := X;
               Root.es := stopper_start (Root.early_stopping_epochs est);
               Root.net := model; Root.rng := w; Root.mem := [];
               Root.trained := []; Root.history := [] |}) with r.
  destruct r as [ex s]. reflexivity.
Qed.

(** How a call of [fit] ends: by the condition of its loop, in a state the
    loop visits, or by an exception of the epoch a visited state
    starts. *)
Lemma root_fit_end (est : Root.estimator T) (X : matrix T)
    (batch_size : option Z) (w : Rng) :
  let b := match batch_size with
           | Some b => b
           | None => Z.of_nat (length X)
           end in
  let model := Root._build_model est b (width X) (Root.n_components est) in
  let o := Root.fit est X batch_size w in
  Root.fitted o =
    Root.with_internals est (Some (Root.net (Root.final o))) (Some b) /\
  Root.built o = model /\
  ((Root.ended o = ByCond /\
    visits (Root.fit_cond est) (Root.epoch_body est b (length X))
      (root_start est X model w) (Root.final o) /\
    Root.fit_cond est (Root.final o) = false) \/
   (exists e s,
      Root.ended o = ByRaise e /\
      visits (Root.fit_cond est) (Root.epoch_body est b (length X))
        (root_start est X model w) s /\
      Root.fit_cond est s = true /\
      Root.epoch_body est b (length X) s = Throw e (Root.final o))).
Proof.
  intros b model o. unfold o.
  pose proof (root_fit_run est X batch_size w) as Hfit. cbv zeta in Hfit.
  fold b in Hfit. fold model in Hfit. rewrite Hfit.
  cbn [Root.fitted Root.built Root.ended Root.final].
  split; [reflexivity|]. split; [reflexivity|].
  pose proof (while_loop_end (Root.fit_cond est)
                (Root.epoch_body est b (length X))
                (Z.to_nat (Root.n_iter est)) (root_start est X model w))
    as Hend.
  pose proof (root_loop_ends est b (length X) X model w) as Hfuel.
  cbv zeta in Hend.
  destruct (fst (while_loop _ _ _ _)) eqn:Hexit.
  - left. destruct Hend as [Hv Hc]. auto.
  - destruct Hend as (s0 & _ & _ & Hb0). exfalso.
    eapply root_epoch_no_break. exact Hb0.
  - right. destruct Hend as (s0 & Hv & Hc & Hb0). exists e, s0. auto.
  - congruence.
Qed.

(** What the last state of any call of [fit] keeps. *)
Lemma root_fit_kept (est : Root.estimator T) (X : matrix T)
    (batch_size : option Z) (w : Rng) :
  let b := match batch_size with
           | Some b => b
           | None => Z.of_nat (length X)
           end in
  let o := Root.fit est X batch_size w in
  root_kept est b (Root.final o) /\
  (0 <= Root.epoch (Root.final o) <= Z.max 0 (Root.n_iter est))%Z.
Proof.
  intros b o.
  destruct (root_fit_end est X batch_size w)
    as (_ & _ & [(_ & Hv & _) | (e & s & _ & Hv & _ & Hb)]).
  - eapply root_visits_kept. exact Hv.
  - apply root_visits_kept in Hv as [(Hes & Hlen & Hlog) Hrange].
    apply root_epoch_throw in Hb as (_ & Hepoch & Hes' & Hhist & Htr).
    fold o in Hepoch, Hes', Hhist, Htr.
    unfold root_kept. fold b. rewrite Hepoch, Hes', Hhist, Htr. auto.
Qed.

End RootFit.

(** ** What the epochs of the root variant train on *)

Section RootTrains.
Context {T : Type} {SC : Scalar T} {K : Keras T}.
Variables (est : Root.estimator T) (b : Z) (n_sample : nat).

(** What an epoch of the root variant hands to its batches: the shuffled
    data and their similarities, exaggerated in the first epochs. *)
Lemma root_epoch_trains (s s' : Root.train_state T) :
  Root.epoch_body est b n_sample s = Next s' ->
  exists P0 loss n_batches,
    Root.X_now s' =
      take_indices [] (snd (permutation (Root.rng s) n_sample))
        (Root.X_now s) /\
    Root.rng s' = fst (permutation (Root.rng s) n_sample) /\
    Root.calculate_P (Root.X_now s') b (Root.perplexity est) = Ok P0 /\
    Root.train_batches (Root.net s) (Root.X_now s')
      (if (Root.epoch s <? Root.early_exaggeration_epochs est)%Z
       then scale (Root.early_exaggeration_value est) P0 else P0)
      n_sample (Z.to_nat b) = (Root.net s', loss, n_batches) /\
    Root.history s' = Root.history s ++ [sdiv loss (of_int n_batches)].
Proof.
  unfold Root.epoch_body.
  destruct (permutation (Root.rng s) n_sample) as [rng' new_indices].
  cbn [fst snd].
  destruct (Root.calculate_P _ b _) as [P0|e] eqn:Hcalc; [|discriminate].
  rewrite alloc_eq.
  assert (Hnew : length (Root.mem s) < length (Root.mem s ++ [P0]))
    by (rewrite length_alloc; lia).
  rewrite read_exaggerate_same by exact Hnew.
  rewrite read_alloc_new.
  destruct (Root.train_batches _ _ _ _ _) as [[net' loss] nb] eqn:Htr.
  destruct (nb =? 0)%Z; [discriminate|].
  intros Hb. injection Hb as <-.
  cbn [Root.net Root.rng Root.history Root.X_now].
  exists P0, loss, nb. split; [reflexivity|]. split; [reflexivity|].
  split; [exact Hcalc|]. split; [exact Htr | reflexivity].
Qed.

(** The loop of the root variant is, epoch by epoch, the training on the
    exaggerated similarities of the shuffled data. *)
Lemma root_visits_replay (X : matrix T) (model : Net) (w : Rng)
    (s : Root.train_state T) :
  visits (Root.fit_cond est) (Root.epoch_body est b n_sample)
    (root_start est X model w) s ->
  root_epochs (Root.early_exaggeration_epochs est)
    (Root.early_exaggeration_value est) (Root.perplexity est) b n_sample
    X model w (Z.to_nat (Root.epoch s)) =
  Some (Root.X_now s, Root.net s, Root.rng s, Root.history s).
Proof.
  intros Hv.
  assert (H : (0 <= Root.epoch s)%Z /\
              root_epochs (Root.early_exaggeration_epochs est)
                (Root.early_exaggeration_value est) (Root.perplexity est)
                b n_sample X model w (Z.to_nat (Root.epoch s)) =
              Some (Root.X_now s, Root.net s, Root.rng s, Root.history s));
    [|apply H].
  revert s Hv.
  apply visits_invariant
    with (I := fun s =>
                 (0 <= Root.epoch s)%Z /\
                 root_epochs (Root.early_exaggeration_epochs est)
                   (Root.early_exaggeration_value est) (Root.perplexity est)
                   b n_sample X model w (Z.to_nat (Root.epoch s)) =
                 Some (Root.X_now s, Root.net s, Root.rng s,
                       Root.history s)).
  - split; [cbn; lia | reflexivity].
  - intros s s' [Hpos Hrep] Hc Hb.
    destruct (@root_epoch_trains s s' Hb)
      as (P0 & loss & nb & HX & Hrng & Hcalc & Htr & Hhist).
    apply root_epoch_next in Hb as (_ & _ & _ & _ & Hepoch & _).
    rewrite Hepoch. split; [lia|].
    replace (Z.to_nat (Root.epoch s + 1))
      with (Datatypes.S (Z.to_nat (Root.epoch s))) by lia.
    cbn [root_epochs]. rewrite Hrep.
    destruct (permutation (Root.rng s) n_sample) as [rng' new_indices]
      eqn:Hperm.
    cbn [fst snd] in HX, Hrng. rewrite <- HX, Hcalc.
    unfold exaggerated. rewrite Z2Nat.id by lia.
    rewrite Htr, Hhist, Hrng. reflexivity.
Qed.

End RootTrains.

(** ** The root variant of [fit], from outside *)

(** A first pass that raises. *)
Lemma while_loop_first_throw (S : Type) (cond : S -> bool)
    (body : S -> step S) (fuel : nat) (s s' : S) (e : exn) :
  0 < fuel -> cond s = true -> body s = Throw e s' ->
  while_loop cond body fuel s = (ByRaise e, s').
Proof.
  intros Hfuel Hc Hb. destruct fuel as [|fuel]; [lia|].
  simpl. rewrite Hc, Hb. reflexivity.
Qed.

(** X11: in the root variant, a [fit] that returns, with a patience
    [early_stopping_epochs = p > 0], has logged one loss per epoch;
    [es_loss] is the running best of these losses; [es_stop] is set exactly
    when the last [p] epochs brought no improvement, which happened at the
    end of no epoch before the last; and when it is not set, all of the
    [n_iter] epochs have run. *)
Theorem root_fit_early_stopping :
  forall (T : Type) (SC : Scalar T) (K : Keras T) (est : Root.estimator T)
         (X : matrix T) (batch_size : option Z) (w : Rng) (p : Z),
    Root.ended (Root.fit est X batch_size w) = ByCond ->
    Root.early_stopping_epochs est = Finite p -> (0 < p)%Z ->
    let s := Root.final (Root.fit est X batch_size w) in
    let h := Root.history s in
    let mi := Root.early_stopping_min_improvement est in
    Root.epoch s = Z.of_nat (length h) /\
    es_loss (Root.es s) = running_best mi h /\
    (es_stop (Root.es s) = true <-> Z.of_nat (stalled mi h) = p) /\
    (forall k, k < length h ->
       (Z.of_nat (stalled mi (firstn k h)) < p)%Z) /\
    (es_stop (Root.es s) = false ->
     Root.epoch s = Z.max 0 (Root.n_iter est)).
Proof.
  intros T SC K est X batch_size w p Hended Hp Hpos s h mi.
  destruct (root_fit_kept est X batch_size w) as ((Hes & _) & Hrange).
  destruct (root_fit_end est X batch_size w)
    as (_ & _ & [(_ & _ & Hc) | (e & s0 & He & _)]); [|congruence].
  eapply stop_verdict; eauto.
Qed.

(** X12: in the root variant, a [fit] without early stopping
    ([early_stopping_epochs = np.inf], the default) that returns has never
    set [es_stop] and has run all of its epochs: [n_iter] of them, none
    when [n_iter] is negative, with one loss logged per epoch. *)
Theorem root_fit_runs_every_epoch :
  forall (T : Type) (SC : Scalar T) (K : Keras T) (est : Root.estimator T)
         (X : matrix T) (batch_size : option Z) (w : Rng),
    Root.ended (Root.fit est X batch_size w) = ByCond ->
    Root.early_stopping_epochs est = Unbounded ->
    let s := Root.final (Root.fit est X batch_size w) in
    es_stop (Root.es s) = false /\
    Root.epoch s = Z.max 0 (Root.n_iter est) /\
    length (Root.history s) = Z.to_nat (Root.n_iter est) /\
    length (Root.trained s) = Z.to_nat (Root.n_iter est).
Proof.
  intros T SC K est X batch_size w Hended Hp s.
  destruct (root_fit_kept est X batch_size w) as ((Hes & Hlen & _) & Hrange).
  destruct (root_fit_end est X batch_size w)
    as (_ & _ & [(_ & _ & Hc) | (e & s0 & He & _)]); [|congruence].
  destruct (@stop_never T SC (Root.early_stopping_epochs est)
              (Root.early_stopping_min_improvement est) (Root.n_iter est)
              (Root.epoch s) (Root.es s) (Root.history s) Hp Hes Hrange)
    as [Hstop Hall].
  specialize (Hall Hc). destruct Hes as (He & _).
  split; [exact Hstop|]. split; [exact Hall|].
  assert (Hh : length (Root.history s) = Z.to_nat (Root.n_iter est))
    by (fold s in He; lia).
  split; [exact Hh|]. fold s in Hlen. rewrite Hlen. exact Hh.
Qed.

(** X13: in the root variant, every call of [fit] ends by the condition of its
    loop or by an exception, within [n_iter] epochs, and each epoch it
    completed trained on similarities computed afresh from the data as
    shuffled for that epoch: the data, the network, the generator and the
    history of the losses after the [k] epochs it completed are those of
    [k] epochs that each shuffle the data they get, call [calculate_P] on
    the shuffled data and train, batch by batch from the network
    [_build_model] compiled, on these data and on that matrix times
    [early_exaggeration_value] when the epoch is below
    [early_exaggeration_epochs], and on that matrix afterwards; when
    [fit] raises, it is the epoch that starts there that raises; the
    estimator holds the network of the last state. *)
Theorem root_fit_recomputes_P :
  forall (T : Type) (SC : Scalar T) (K : Keras T) (est : Root.estimator T)
         (X : matrix T) (batch_size : option Z) (w : Rng),
    let b := match batch_size with
             | Some b => b
             | None => Z.of_nat (length X)
             end in
    let o := Root.fit est X batch_size w in
    let s := Root.final o in
    (Root.ended o = ByCond \/ exists e, Root.ended o = ByRaise e) /\
    (0 <= Root.epoch s <= Z.max 0 (Root.n_iter est))%Z /\
    Root.epoch s = Z.of_nat (length (Root.trained s)) /\
    (forall k e, nth_error (Root.trained s) k = Some e ->
       seen_epoch e = Z.of_nat k /\
       exists P0,
         Root.calculate_P (seen_X e) b (Root.perplexity est) = Ok P0 /\
         seen_P e = exaggerated (Root.early_exaggeration_epochs est)
                      (Root.early_exaggeration_value est) P0 k) /\
    exists s0,
      root_epochs (Root.early_exaggeration_epochs est)
        (Root.early_exaggeration_value est) (Root.perplexity est) b
        (length X) X (Root.built o) w (Z.to_nat (Root.epoch s)) =
        Some (Root.X_now s0, Root.net s0, Root.rng s0, Root.history s0) /\
      Root.epoch s0 = Root.epoch s /\
      Root.history s0 = Root.history s /\
      (Root.ended o = ByCond -> s0 = s) /\
      (forall e, Root.ended o = ByRaise e ->
         Root.epoch_body est b (length X) s0 = Throw e s) /\
      Root._model (Root.fitted o) = Some (Root.net s) /\
      Root.world o = Root.rng s.
Proof.
  intros T SC K est X batch_size w b o s.
  destruct (root_fit_kept est X batch_size w)
    as (((He & _) & Hlen & Hlog) & Hrange).
  fold o in He, Hlen, Hlog, Hrange. fold s in He, Hlen, Hlog, Hrange.
  split.
  { destruct (root_fit_end est X batch_size w)
      as (_ & _ & [(Hc & _) | (e & s0 & Hr & _)]); eauto. }
  split; [exact Hrange|]. split; [rewrite Hlen; exact He|].
  split; [exact Hlog|].
  assert (Hworld : Root.world o = Root.rng s).
  { unfold s, o. rewrite root_fit_run. reflexivity. }
  destruct (root_fit_end est X batch_size w)
    as (Hfitted & Hbuilt & [(Hc & Hv & _) | (e & s0 & Hr & Hv & _ & Hb)]);
    fold b in Hfitted, Hbuilt, Hv; fold o in Hfitted, Hbuilt, Hv;
    fold s in Hfitted, Hv.
  - fold o in Hc. exists s. rewrite Hbuilt.
    split; [exact (root_visits_replay Hv)|].
    split; [reflexivity|]. split; [reflexivity|].
    split; [reflexivity|].
    split; [intros e He'; congruence|].
    split; [rewrite Hfitted; reflexivity | exact Hworld].
  - fold o in Hr. fold b in Hb. fold o in Hb. fold s in Hb.
    exists s0. rewrite Hbuilt.
    pose proof Hb as Hb'.
    apply root_epoch_throw in Hb' as (_ & Hepoch & _ & Hhist & _).
    rewrite Hepoch.
    split; [exact (root_visits_replay Hv)|].
    split; [reflexivity|]. split; [symmetry; exact Hhist|].
    split; [intros Hc; congruence|].
    split; [intros e' He'; congruence|].
    split; [rewrite Hfitted; reflexivity | exact Hworld].
Qed.

(** X14: in the root variant, [fit] with [batch_size=0] and at least one epoch
    to run raises [ValueError] in its first epoch ([range] refuses the
    step [0]), after [_build_model]: nothing is trained, yet the estimator
    holds the network and the batch size, and [transform] answers with the
    untrained network. *)
Theorem root_fit_zero_batch_size :
  forall (T : Type) (SC : Scalar T) (K : Keras T) (est : Root.estimator T)
         (X X' : matrix T) (w : Rng),
    (0 < Root.n_iter est)%Z ->
    let o := Root.fit est X (Some 0%Z) w in
    let model := Root._build_model est 0 (width X) (Root.n_components est) in
    Root.ended o = ByRaise ValueError /\
    Root.epoch (Root.final o) = 0%Z /\
    Root.trained (Root.final o) = [] /\
    Root.fitted o = Root.with_internals est (Some model) (Some 0%Z) /\
    Root.transform (Root.fitted o) X' = Ok (predict model X').
Proof.
  intros T SC K est X X' w Hn o model. unfold o.
  pose proof (root_fit_run est X (Some 0%Z) w) as Hfit.
  cbv beta iota zeta in Hfit. fold model in Hfit. rewrite Hfit. clear Hfit.
  assert (Hc : Root.fit_cond est (root_start est X model w) = true).
  { unfold Root.fit_cond, root_start. cbn.
    apply andb_true_intro. split; [apply Z.ltb_lt; lia | reflexivity]. }
  assert (Hb : exists s',
            Root.epoch_body est 0 (length X) (root_start est X model w) =
              Throw ValueError s' /\
            Root.epoch s' = 0%Z /\ Root.trained s' = [] /\
            Root.net s' = model).
  { unfold Root.epoch_body.
    destruct (permutation (Root.rng (root_start est X model w)) (length X))
      as [rng' new_indices].
    unfold Root.calculate_P. cbn. eexists. split; [reflexivity|].
    cbn. auto. }
  destruct Hb as (s' & Hb & Hepoch & Htr & Hnet).
  assert (Hfuel : 0 < Z.to_nat (Root.n_iter est)) by lia.
  rewrite (@while_loop_first_throw _ _ _ _ _ _ _ Hfuel Hc Hb).
  cbn [fst snd Root.ended Root.final Root.fitted].
  rewrite Hnet. repeat split; auto.
Qed.

(** X15: in the root variant, [transform] on the estimator a call of [fit]
    leaves never raises [NotFittedError], whether [fit] returned or raised:
    it predicts with the network of the last state of the loop; and
    [fit_transform] embeds the data in the order the caller gave them, not
    in the order of the last shuffle. *)
Theorem root_transform_after_fit :
  forall (T : Type) (SC : Scalar T) (K : Keras T) (est : Root.estimator T)
         (X X' : matrix T) (batch_size : option Z) (w : Rng),
    let o := Root.fit est X batch_size w in
    Root.transform (Root.fitted o) X' =
      Ok (predict (Root.net (Root.final o)) X') /\
    Root.fit_transform est X batch_size w =
      (Root.fitted o,
       match Root.ended o with
       | ByRaise e => Raise e
       | _ => Ok (predict (Root.net (Root.final o)) X)
       end).
Proof.
  intros T SC K est X X' batch_size w o.
  destruct (root_fit_end est X batch_size w) as (Hfitted & _ & Hend).
  fold o in Hfitted, Hend.
  assert (Ht : forall Y, Root.transform (Root.fitted o) Y =
                         Ok (predict (Root.net (Root.final o)) Y))
    by (intros Y; rewrite Hfitted; reflexivity).
  split; [apply Ht|].
  unfold Root.fit_transform, Root.returned. fold o.
  destruct Hend as [(Hc & _) | (e & s0 & Hr & _)].
  - rewrite Hc. rewrite Ht. reflexivity.
  - rewrite Hr. reflexivity.
Qed.

Section RootFitRuns.
#[local] Existing Instance binary64.

(** Four epochs on the losses 5, 4, 4, 4 with a patience of two. *)
Lemma root_fit_early_stopping_witness :
  let est := Sample.root_estimator Sample.plateau 10 (Finite 2) in
  let o := Root.fit est Sample.block3 None 0 in
  Root.ended o = ByCond /\
  Root.history (Root.final o) = [5; 4; 4; 4]%float /\
  Root.epoch (Root.final o) = Z.of_nat (length (Root.history (Root.final o))) /\
  es_loss (Root.es (Root.final o)) =
    running_best 1e-2%float (Root.history (Root.final o)) /\
  (es_stop (Root.es (Root.final o)) = true <->
   Z.of_nat (stalled 1e-2%float (Root.history (Root.final o))) = 2%Z) /\
  (forall k, k < length (Root.history (Root.final o)) ->
     (Z.of_nat (stalled 1e-2%float
                  (firstn k (Root.history (Root.final o)))) < 2)%Z) /\
  (es_stop (Root.es (Root.final o)) = false ->
   Root.epoch (Root.final o) = Z.max 0 10).
Proof.
  intros est o.
  assert (Hended : Root.ended o = ByCond) by (vm_compute; reflexivity).
  split; [exact Hended|]. split; [vm_compute; reflexivity|].
  exact (@root_fit_early_stopping float binary64 Sample.plateau est
           Sample.block3 None 0 2%Z Hended eq_refl eq_refl).
Defined.

(** Three epochs of the default stopping rule on four points. *)
Lemma root_fit_runs_every_epoch_witness :
  let est := Sample.root_estimator Sample.plateau 3 Unbounded in
  let o := Root.fit est (Sample.line 4) (Some 2%Z) 0 in
  Root.ended o = ByCond /\
  es_stop (Root.es (Root.final o)) = false /\
  Root.epoch (Root.final o) = Z.max 0 3 /\
  length (Root.history (Root.final o)) = Z.to_nat 3 /\
  length (Root.trained (Root.final o)) = Z.to_nat 3.
Proof.
  intros est o.
  assert (Hended : Root.ended o = ByCond) by (vm_compute; reflexivity).
  split; [exact Hended|].
  exact (@root_fit_runs_every_epoch float binary64 Sample.plateau est
           (Sample.line 4) (Some 2%Z) 0 Hended eq_refl).
Defined.

(** A batch size of zero. *)
Lemma root_fit_zero_batch_size_witness :
  let est := Sample.root_estimator Sample.plateau 3 Unbounded in
  let o := Root.fit est (Sample.line 4) (Some 0%Z) 0 in
  let model := Root._build_model est 0 (width (Sample.line 4))
                 (Root.n_components est) in
  (0 < Root.n_iter est)%Z /\
  Root.ended o = ByRaise ValueError /\
  Root.epoch (Root.final o) = 0%Z /\
  Root.trained (Root.final o) = [] /\
  Root.fitted o = Root.with_internals est (Some model) (Some 0%Z) /\
  Root.transform (Root.fitted o) (Sample.line 2) =
    Ok (predict model (Sample.line 2)).
Proof.
  intros est o model.
  assert (Hn : (0 < Root.n_iter est)%Z) by reflexivity.
  split; [exact Hn|].
  exact (@root_fit_zero_batch_size float binary64 Sample.plateau est
           (Sample.line 4) (Sample.line 2) 0 Hn).
Defined.

(** Four epochs, the first two exaggerated by 4, of a network that
    records its batches, two by two. *)
Lemma root_fit_recomputes_P_witness :
  let est := Sample.root_estimator Recording.keras 4 Unbounded in
  let o := Root.fit est (Sample.line 4) (Some 2%Z) 0 in
  let s := Root.final o in
  Root.ended o = ByCond /\
  Root.epoch s = 4%Z /\
  root_epochs 2 4%float 30%float 2 4 (Sample.line 4) (Root.built o) 0 4 =
    Some (Root.X_now s, Root.net s, Root.rng s, Root.history s) /\
  Root._model (Root.fitted o) = Some (Root.net s).
Proof.
  intros est o s.
  assert (Hended : Root.ended o = ByCond) by (vm_compute; reflexivity).
  assert (Hepoch : Root.epoch s = 4%Z) by (vm_compute; reflexivity).
  split; [exact Hended|]. split; [exact Hepoch|].
  destruct (@root_fit_recomputes_P float binary64 Recording.keras est
              (Sample.line 4) (Some 2%Z) 0)
    as (_ & _ & _ & _ & s0 & Hrep & _ & _ & Hc & _ & Hmodel & _).
  fold o in Hrep, Hc, Hmodel. fold s in Hrep, Hc, Hmodel.
  rewrite (Hc Hended) in Hrep. rewrite Hepoch in Hrep.
  split; [exact Hrep | exact Hmodel].
Defined.

End RootFitRuns.

(** ** Batches that do and do not divide the samples *)

Section RootShuffle.
Context {T : Type} {SC : Scalar T} {K : Keras T}.
Hypothesis permutation_length :
  forall (w : Rng) (n : nat), length (snd (permutation w n)) = n.
Variables (est : Root.estimator T) (b : Z) (X : matrix T).

Lemma length_take_indices (A : Type) (z : A) (p : list nat) (l : list A) :
  length (take_indices z p l) = length p.
Proof. unfold take_indices. apply length_map. Qed.

(** Shuffling keeps the number of rows. *)
Lemma root_visits_rows (model : Net) (w : Rng) (s : Root.train_state T) :
  visits (Root.fit_cond est) (Root.epoch_body est b (length X))
    (root_start est X model w) s ->
  length (Root.X_now s) = length X.
Proof.
  revert s.
  apply visits_invariant
    with (I := fun s => length (Root.X_now s) = length X).
  - reflexivity.
  - intros s s' _ _ Hb.
    apply root_epoch_next in Hb as (loss & P0 & _ & HX & _).
    rewrite HX, length_take_indices. apply permutation_length.
Qed.

(** An epoch whose [calculate_P] raises. *)
Lemma root_epoch_raises (s : Root.train_state T) (e : exn) :
  Root.calculate_P
    (take_indices [] (snd (permutation (Root.rng s) (length X)))
       (Root.X_now s)) b (Root.perplexity est) = Raise e ->
  exists s',
    Root.epoch_body est b (length X) s = Throw e s' /\
    Root.epoch s' = Root.epoch s /\ Root.trained s' = Root.trained s /\
    Root.net s' = Root.net s.
Proof.
  unfold Root.epoch_body.
  destruct (permutation (Root.rng s) (length X)) as [rng' new_indices].
  cbn [snd]. intros Hcalc. rewrite Hcalc. eexists.
  split; [reflexivity|]. cbn. auto.
Qed.

(** On whole batches, no epoch raises. *)
Lemma root_epoch_no_throw (k : nat) (s s' : Root.train_state T) (e : exn) :
  (0 < b)%Z -> 0 < k -> length X = k * Z.to_nat b ->
  length (Root.X_now s) = length X ->
  Root.epoch_body est b (length X) s <> Throw e s'.
Proof.
  intros Hb Hk Hlen Hrows Hthrow.
  apply root_epoch_throw in Hthrow as ([Hcalc | [_ Hnone]] & _).
  - destruct (@root_calculate_P_whole T SC
                (take_indices [] (snd (permutation (Root.rng s) (length X)))
                   (Root.X_now s)) b (Root.perplexity est) k Hb)
      as (P & HP & _).
    + rewrite length_take_indices, permutation_length. exact Hlen.
    + congruence.
  - revert Hnone. apply range_step_nonempty; nia.
Qed.

End RootShuffle.

(** X16: in the root variant, [fit] on samples that make whole batches, at
    least one, with a generator whose permutations of [range(n)] have [n]
    entries, raises nothing (as far as Keras does not): the loop ends by
    its condition, [fit] returns [self], which holds the trained network
    and the batch size, and the data of the last epoch are as many rows as
    [X] has.  Without a batch size, all the samples make one batch. *)
Theorem root_fit_succeeds :
  forall (T : Type) (SC : Scalar T) (K : Keras T) (est : Root.estimator T)
         (X : matrix T) (batch_size : option Z) (w : Rng) (k : nat),
    (forall (w : Rng) (n : nat), length (snd (permutation w n)) = n) ->
    let b := match batch_size with
             | Some b => b
             | None => Z.of_nat (length X)
             end in
    (0 < b)%Z -> 0 < k -> length X = k * Z.to_nat b ->
    let o := Root.fit est X batch_size w in
    Root.ended o = ByCond /\
    Root.returned o = Ok (Root.fitted o) /\
    Root.fitted o =
      Root.with_internals est (Some (Root.net (Root.final o))) (Some b) /\
    length (Root.X_now (Root.final o)) = length X.
Proof.
  intros T SC K est X batch_size w k Hperm b Hb Hk Hlen o.
  destruct (root_fit_end est X batch_size w)
    as (Hfitted & _ & [(Hc & Hv & _) | (e & s & _ & Hv & _ & Hthrow)]).
  - fold o in Hc, Hfitted, Hv. fold b in Hfitted, Hv.
    split; [exact Hc|]. unfold Root.returned. rewrite Hc.
    split; [reflexivity|]. split; [exact Hfitted|].
    eapply root_visits_rows; eauto.
  - exfalso. fold b in Hv, Hthrow.
    eapply (@root_epoch_no_throw T SC K Hperm est b X k); eauto.
    eapply root_visits_rows; eauto.
Qed.

(** X17: in the root variant, [fit] with a batch size that leaves a last batch
    of [r] samples, [2 <= r < batch_size], raises [ValueError] in its
    first epoch, when [calculate_P] stores the block of that batch: no
    epoch completes and nothing is trained. *)
Theorem root_fit_ragged_batches :
  forall (T : Type) (SC : Scalar T) (K : Keras T) (est : Root.estimator T)
         (X : matrix T) (b : Z) (w : Rng) (q r : nat),
    (forall (w : Rng) (n : nat), length (snd (permutation w n)) = n) ->
    (0 < Root.n_iter est)%Z ->
    2 <= r < Z.to_nat b -> length X = q * Z.to_nat b + r ->
    let o := Root.fit est X (Some b) w in
    Root.ended o = ByRaise ValueError /\
    Root.returned o = Raise ValueError /\
    Root.epoch (Root.final o) = 0%Z /\
    Root.trained (Root.final o) = [].
Proof.
  intros T SC K est X b w q r Hperm Hn Hr Hlen o. unfold o.
  pose proof (root_fit_run est X (Some b) w) as Hfit.
  cbv beta iota zeta in Hfit. rewrite Hfit. clear Hfit.
  set (model := Root._build_model est b (width X) (Root.n_components est)).
  assert (Hc : Root.fit_cond est (root_start est X model w) = true).
  { unfold Root.fit_cond, root_start. cbn.
    apply andb_true_intro. split; [apply Z.ltb_lt; lia | reflexivity]. }
  destruct (@root_epoch_raises T SC K est b X (root_start est X model w)
              ValueError) as (s' & Hb & Hepoch & Htr & _).
  { apply root_calculate_P_ragged with (q := q) (r := r); [exact Hr|].
    rewrite length_take_indices, Hperm. exact Hlen. }
  assert (Hfuel : 0 < Z.to_nat (Root.n_iter est)) by lia.
  rewrite (@while_loop_first_throw _ _ _ _ _ _ _ Hfuel Hc Hb).
  unfold Root.returned. cbn [fst snd Root.ended Root.final].
  rewrite Hepoch, Htr. repeat split; reflexivity.
Qed.

Section RootBatchRuns.
#[local] Existing Instance binary64.

(** Four points in two batches of two. *)
Lemma root_fit_succeeds_witness :
  let est := Sample.root_estimator Sample.plateau 3 Unbounded in
  let o := Root.fit est (Sample.line 4) (Some 2%Z) 0 in
  (forall (w : Rng (Keras := Sample.plateau)) (n : nat),
     length (snd (permutation w n)) = n) /\
  Root.ended o = ByCond /\
  Root.returned o = Ok (Root.fitted o) /\
  Root.fitted o =
    Root.with_internals est (Some (Root.net (Root.final o))) (Some 2%Z) /\
  length (Root.X_now (Root.final o)) = length (Sample.line 4).
Proof.
  intros est o.
  assert (Hperm : forall (w : Rng (Keras := Sample.plateau)) (n : nat),
            length (snd (permutation w n)) = n)
    by (intros w n; cbn; rewrite length_map; apply length_seq).
  split; [exact Hperm|].
  apply (@root_fit_succeeds float binary64 Sample.plateau est
           (Sample.line 4) (Some 2%Z) 0 2 Hperm);
    [reflexivity | lia | reflexivity].
Defined.

(** Five points in batches of three: the last batch has two. *)
Lemma root_fit_ragged_batches_witness :
  let est := Sample.root_estimator Sample.plateau 3 Unbounded in
  let o := Root.fit est (Sample.line 5) (Some 3%Z) 0 in
  (forall (w : Rng (Keras := Sample.plateau)) (n : nat),
     length (snd (permutation w n)) = n) /\
  Root.ended o = ByRaise ValueError /\
  Root.returned o = Raise ValueError /\
  Root.epoch (Root.final o) = 0%Z /\
  Root.trained (Root.final o) = [].
Proof.
  intros est o.
  assert (Hperm : forall (w : Rng (Keras := Sample.plateau)) (n : nat),
            length (snd (permutation w n)) = n)
    by (intros w n; cbn; rewrite length_map; apply length_seq).
  split; [exact Hperm|].
  apply (@root_fit_ragged_batches float binary64 Sample.plateau est
           (Sample.line 5) 3%Z 0 1 2 Hperm);
    [reflexivity | cbn; lia | reflexivity].
Defined.

End RootBatchRuns.

(** ** What [x2p] assembles *)

Lemma drop_nth_put_around (A : Type) (i : nat) (z : A) (l : list A) :
  i <= length l -> drop_nth i (put_around i z l) = l.
Proof.
  revert l. induction i as [|i IH]; intros l Hi.
  - reflexivity.
  - destruct l as [|x l]; [simpl in Hi; lia|].
    change (put_around (Datatypes.S i) z (x :: l))
      with (x :: put_around i z l).
    change (drop_nth (Datatypes.S i) (x :: put_around i z l))
      with (x :: drop_nth i (put_around i z l)).
    rewrite IH by (simpl in Hi; lia). reflexivity.
Qed.

Section Assembly.
Context {T : Type} {SC : Scalar T}.

(** Row [i] of the assembled matrix, without its diagonal entry, is the
    row it was assembled from. *)
Lemma assembled_content (n : nat) (row : nat -> list T) (i : nat) :
  (forall i, i < n -> length (row i) = n - 1) -> i < n ->
  drop_nth i (nth i (map (fun i => put_around i rzero (row i)) (seq 0 n)) [])
  = row i.
Proof.
  intros Hrow Hi.
  rewrite (nth_map_in _ _ 0) by (rewrite length_seq; lia).
  rewrite seq_nth by lia. cbn [plus].
  apply drop_nth_put_around. rewrite Hrow by lia. lia.
Qed.

End Assembly.

(** X18: [x2p_job], in either variant and for any budget and tolerance, returns
    the index it was given and as many probabilities as it was given
    distances, whether its loop ran out, converged or, in the root
    variant, broke on a NaN. *)
Theorem x2p_job_returns_a_row :
  forall (T : Type) (SC : Scalar T) (i : nat) (Di : list T) (logU : T)
         (max_iteration : Z) (tol : T),
    fst (Root.x2p_job (i, Di, logU) max_iteration tol) = i /\
    length (snd (Root.x2p_job (i, Di, logU) max_iteration tol)) =
      length Di /\
    fst (Msp.x2p_job (i, Di, logU) max_iteration tol) = i /\
    length (snd (Msp.x2p_job (i, Di, logU) max_iteration tol)) = length Di.
Proof.
  intros T SC i Di logU max_iteration tol.
  unfold Root.x2p_job, Msp.x2p_job. cbn [fst snd].
  split; [reflexivity|]. split; [apply root_run_row|].
  split; [reflexivity | apply msp_run_row].
Qed.

(** X19: [x2p], in either variant, refuses an empty block with [ValueError];
    for [n >= 1] rows it returns an [n] by [n] matrix whose diagonal is
    [0] and whose row [i], without the diagonal entry, is the row
    [x2p_job] returns for the distances from row [i] to the other rows,
    with [logU = log(perplexity)] and the default budget and tolerance. *)
Theorem x2p_assembles_the_rows :
  forall (T : Type) (SC : Scalar T) (X : matrix T) (perplexity : T),
    (X = [] ->
     Root.x2p X perplexity = Raise ValueError /\
     Msp.x2p X perplexity = Raise ValueError) /\
    (X <> [] ->
     exists P Q,
       Root.x2p X perplexity = Ok P /\ Msp.x2p X perplexity = Ok Q /\
       square (length X) P /\ square (length X) Q /\
       forall i, i < length X ->
         entry rzero P i i = rzero /\ entry rzero Q i i = rzero /\
         drop_nth i (nth i P []) =
           snd (Root.x2p_job
                  (i, drop_nth i (nth i (pairwise_D X) []), slog perplexity)
                  default_max_iteration default_tol) /\
         drop_nth i (nth i Q []) =
           snd (Msp.x2p_job
                  (i, drop_nth i (nth i (pairwise_D X) []), slog perplexity)
                  default_max_iteration default_tol)).
Proof.
  intros T SC X perplexity. split.
  - intros ->. split; reflexivity.
  - intros HX.
    destruct (root_x2p_ok perplexity HX) as [P HP].
    destruct (msp_x2p_ok perplexity HX) as [Q HQ].
    exists P, Q. split; [exact HP|]. split; [exact HQ|].
    destruct (root_x2p_shape _ _ HP) as [HsqP HdP].
    destruct (msp_x2p_shape _ _ HQ) as [HsqQ HdQ].
    split; [exact HsqP|]. split; [exact HsqQ|].
    intros i Hi. split; [apply HdP; exact Hi|].
    split; [apply HdQ; exact Hi|].
    destruct X as [|x X'] eqn:HXeq; [congruence|]. rewrite <- HXeq in *.
    assert (Hroot : P = map (fun i => put_around i rzero
                       (snd (Root.x2p_job
                               (i, drop_nth i (nth i (pairwise_D X) []),
                                slog perplexity)
                               default_max_iteration default_tol)))
                      (seq 0 (length X))).
    { rewrite HXeq in HP. unfold Root.x2p in HP. rewrite <- HXeq in HP.
      injection HP as <-. rewrite map_map. apply map_ext. intros j.
      unfold Root.x2p_job. reflexivity. }
    assert (Hmsp : Q = map (fun i => put_around i rzero
                      (snd (Msp.x2p_job
                              (i, drop_nth i (nth i (pairwise_D X) []),
                               slog perplexity)
                              default_max_iteration default_tol)))
                     (seq 0 (length X))).
    { rewrite HXeq in HQ. unfold Msp.x2p in HQ. rewrite <- HXeq in HQ.
      injection HQ as <-.
      first [ rewrite map_map; apply map_ext; intros j;
              unfold Msp.x2p_job; reflexivity
            | apply map_ext; intros j; unfold Msp.x2p_job; reflexivity ]. }
    assert (Hlen : forall j, j < length X ->
              length (drop_nth j (nth j (pairwise_D X) [])) = length X - 1)
      by (intros j Hj; rewrite length_drop_nth;
          rewrite pairwise_D_row; lia).
    split.
    + rewrite Hroot.
      apply (assembled_content
               (fun i => snd (Root.x2p_job
                                (i, drop_nth i (nth i (pairwise_D X) []),
                                 slog perplexity)
                                default_max_iteration default_tol)));
        [|exact Hi].
      intros j Hj. unfold Root.x2p_job. cbn [snd].
      rewrite root_run_row. apply Hlen. exact Hj.
    + rewrite Hmsp.
      apply (assembled_content
               (fun i => snd (Msp.x2p_job
                                (i, drop_nth i (nth i (pairwise_D X) []),
                                 slog perplexity)
                                default_max_iteration default_tol)));
        [|exact Hi].
      intros j Hj. unfold Msp.x2p_job. cbn [snd].
      rewrite msp_run_row. apply Hlen. exact Hj.
Qed.

(** ** A batch of a single sample *)

Section SingleRow.
Context {T : Type} {SC : Scalar T}.

(** [x2p] of a single row: no distance is left off the diagonal, and the
    row of probabilities is the zero of the diagonal. *)
Lemma root_x2p_single (x : list T) (p : T) :
  Root.x2p [x] p = Ok [[rzero]].
Proof.
  unfold Root.x2p. cbn [length seq map]. unfold Root.x2p_job.
  set (Di := drop_nth 0 (nth 0 (pairwise_D [x]) [])).
  assert (HDi : Di = []) by reflexivity.
  pose proof (@root_run_row T SC Di (slog p) default_max_iteration
                default_tol) as Hrow.
  rewrite HDi in Hrow at 2. cbn [length] in Hrow.
  apply length_zero_iff_nil in Hrow. rewrite Hrow. reflexivity.
Qed.

Lemma slice_single (A : Type) (i : nat) (b : nat) (X : list A) :
  length X = Datatypes.S i -> 0 < b -> exists x, slice i b X = [x].
Proof.
  intros Hlen Hb. unfold slice.
  assert (Hskip : length (skipn i X) = 1) by (rewrite length_skipn; lia).
  destruct (skipn i X) as [|x [|y l]]; try discriminate.
  exists x. destruct b; [lia|]. cbn [firstn]. rewrite firstn_nil.
  reflexivity.
Qed.

End SingleRow.

(** X20: in the root variant, in binary64, whatever the mathematical library,
    a last batch of a single sample gets similarities that are all NaN:
    for samples that make [q] whole batches and one more sample,
    [calculate_P] returns, and the last row of [P] is [batch_size] times
    NaN (the block of the sample is [0 / 0], which [np.maximum] does not
    floor, broadcast over the row). *)
Theorem root_calculate_P_single_sample_batch :
  forall (lib : Libm) (X : matrix float) (b : Z) (p : float) (q : nat),
    (0 < b)%Z -> length X = q * Z.to_nat b + 1 ->
    exists P,
      Root.calculate_P (SC := float_scalar lib) X b p =
        Ok (P ++ [repeat nan (Z.to_nat b)]) /\
      length P = q * Z.to_nat b /\
      Forall (fun row => length row = Z.to_nat b) P.
Proof.
  intros lib X b p q Hb Hlen. unfold Root.calculate_P.
  replace (b <=? 0)%Z with false by (symmetry; lia).
  cbv beta iota zeta.
  replace (range_step (length X) (Z.to_nat b))
    with (map (fun j => j * Z.to_nat b) (seq 0 q) ++ [q * Z.to_nat b])
    by (rewrite Hlen; symmetry; apply range_step_remainder; lia).
  rewrite mapM_app.
  destruct (@mapM_all_ok _ _
              (fun i => P_batch <- Root.x2p (SC := float_scalar lib)
                                     (slice i (Z.to_nat b) X) p ;;
                        store_block (SC := float_scalar lib) (Z.to_nat b)
                          (similarity_block (SC := float_scalar lib)
                             (Root.floor_eps (SC := float_scalar lib))
                             P_batch))
              (square (Z.to_nat b))
              (map (fun j => j * Z.to_nat b) (seq 0 q)))
    as (Ms & HMs & HlenMs & Hsq).
  { intros i Hi. apply in_map_iff in Hi as (j & <- & Hj).
    apply in_seq in Hj.
    apply (@block_whole float (float_scalar lib)
             (Root.x2p (SC := float_scalar lib))
             (@root_x2p_ok float (float_scalar lib))
             (@root_x2p_square float (float_scalar lib)));
      [lia | nia]. }
  rewrite HMs. cbn [bind mapM].
  destruct (@slice_single _ (q * Z.to_nat b) (Z.to_nat b) X) as [x Hx];
    [lia | lia |].
  rewrite Hx, root_x2p_single. cbn [bind].
  assert (Hlast : store_block (SC := float_scalar lib) (Z.to_nat b)
                    (similarity_block (SC := float_scalar lib)
                       (Root.floor_eps (SC := float_scalar lib))
                       [[@rzero float (@sc_ring float (float_scalar lib))]]) =
                  Ok [repeat nan (Z.to_nat b)]).
  { change (similarity_block (SC := float_scalar lib)
              (Root.floor_eps (SC := float_scalar lib))
              [[@rzero float (@sc_ring float (float_scalar lib))]])
      with [[nan]].
    unfold store_block. cbn [length].
    destruct (Nat.eqb 1 (Z.to_nat b)) eqn:H1.
    - apply Nat.eqb_eq in H1. rewrite <- H1. reflexivity.
    - reflexivity. }
  rewrite Hlast. cbn [bind]. rewrite concat_app. cbn [concat app].
  destruct (concat_squares Hsq) as [Hc Hrows].
  eexists. split; [reflexivity|].
  rewrite length_map, length_seq in HlenMs.
  split; [rewrite Hc, HlenMs; reflexivity | exact Hrows].
Qed.

(** Four points in batches of three. *)
Lemma root_calculate_P_single_sample_batch_witness :
  (0 < 3)%Z /\ length (Sample.line 4) = 1 * Z.to_nat 3 + 1 /\
  exists P,
    Root.calculate_P (SC := binary64) (Sample.line 4) 3 30%float =
      Ok (P ++ [repeat nan (Z.to_nat 3)]) /\
    length P = 1 * Z.to_nat 3 /\
    Forall (fun row => length row = Z.to_nat 3) P.
Proof.
  split; [lia|]. split; [reflexivity|].
  apply (@root_calculate_P_single_sample_batch LibmModel.libm
           (Sample.line 4) 3%Z 30%float 1); [lia | reflexivity].
Defined.
